(** * Sell-To-Cover calculation engine (package [stc]) over binary64 floats

    Shallow embedding of [stc/config.go] (Calculate, roundMoney, the
    Calculator configuration), of the RSU solver (CalculateRSU) and of
    the tabular layer (ToCSV, FromCSV).  Go's [float64] is Rocq's
    primitive [float] (IEEE 754 binary64, round to nearest even), so
    every arithmetic step below rounds exactly as the Go program does. *)

From Stdlib Require Import ZArith List String Ascii Bool Lia Floats.
From Stdlib Require Import DecimalString.
Import ListNotations.

Set Warnings "-inexact-float".

Local Open Scope Z_scope.

(** ** Go's [math] package on binary64

    [Float64bits] / [Float64frombits] expose the IEEE encoding as a
    64-bit unsigned integer (a [Z] below 2^64); [Round], [Modf], [Floor],
    [Ceil] and [Max] follow the portable Go implementations in
    [math/floor.go], [math/modf.go] and [math/dim.go]. *)
Module GoMath.

Definition shift : Z := 52.
Definition mask : Z := 0x7FF.
Definition bias : Z := 1023.
Definition signMask : Z := 0x8000000000000000.
Definition fracMask : Z := 0xFFFFFFFFFFFFF.
Definition uvone : Z := 0x3FF0000000000000.
Definition uvinf : Z := 0x7FF0000000000000.
Definition uvnan : Z := 0x7FF8000000000001.

Definition wrap64 (z : Z) : Z := z mod 2 ^ 64.

(** [x &^ y] on uint64. *)
Definition andnot (x y : Z) : Z := Z.land x (Z.lxor y (2 ^ 64 - 1)).

Definition Float64bits (x : float) : Z :=
  match Prim2SF x with
  | S754_zero s => if s then signMask else 0
  | S754_infinity s => (if s then signMask else 0) + uvinf
  | S754_nan => uvnan
  | S754_finite s m e =>
      (if s then signMask else 0) +
      (if Zpos m <? 2 ^ shift then Zpos m
       else Z.shiftl (e + shift + bias) shift + (Zpos m - 2 ^ shift))
  end.

Definition Float64frombits (b : Z) : float :=
  let s := Z.testbit b 63 in
  let e := Z.land (Z.shiftr b shift) mask in
  let f := Z.land b fracMask in
  if e =? mask then
    if f =? 0 then (if s then neg_infinity else infinity) else nan
  else if e =? 0 then
    match f with
    | Zpos p => SF2Prim (S754_finite s p (1 - bias - shift))
    | _ => SF2Prim (S754_zero s)
    end
  else SF2Prim (S754_finite s (Z.to_pos (f + 2 ^ shift)) (e - bias - shift)).

Definition IsNaN (f : float) : bool := negb (f =? f)%float.

Definition MaxFloat64 : float := 0x1.fffffffffffffp+1023%float.

Definition IsInf (f : float) (sign : Z) : bool :=
  ((0 <=? sign) && (MaxFloat64 <? f)%float) ||
  ((sign <=? 0) && (f <? - MaxFloat64)%float).

Definition Signbit (x : float) : bool :=
  negb (Z.land (Float64bits x) signMask =? 0).

(** [math.Round]: nearest integer, halves away from zero. *)
Definition Round (x : float) : float :=
  let bits := Float64bits x in
  let e := Z.land (Z.shiftr bits shift) mask in
  if e <? bias then
    let bits := Z.land bits signMask in
    let bits := if e =? bias - 1 then Z.lor bits uvone else bits in
    Float64frombits bits
  else if e <? bias + shift then
    let half := Z.shiftl 1 (shift - 1) in
    let e := e - bias in
    let bits := wrap64 (bits + Z.shiftr half e) in
    let bits := andnot bits (Z.shiftr fracMask e) in
    Float64frombits bits
  else Float64frombits bits.

(** [math.Modf] on an argument that is not below zero (the branch taken
    after the sign has been stripped). *)
Definition modf_nonneg (f : float) : float * float :=
  if (f <? 1)%float then
    if (f =? 0)%float then (f, f) else (0%float, f)
  else
    let x := Float64bits f in
    let e := Z.land (Z.shiftr x shift) mask - bias in
    let x := if e <? 64 - 12 then andnot x (Z.shiftl 1 (64 - 12 - e) - 1) else x in
    let int := Float64frombits x in
    (int, (f - int)%float).

Definition Modf (f : float) : float * float :=
  if (f <? 1)%float && (f <? 0)%float then
    let '(int, frac) := modf_nonneg (- f)%float in ((- int)%float, (- frac)%float)
  else modf_nonneg f.

Definition Floor (x : float) : float :=
  if (x =? 0)%float || IsNaN x || IsInf x 0 then x
  else if (x <? 0)%float then
    let '(d, fract) := Modf (- x)%float in
    let d := if negb (fract =? 0)%float then (d + 1)%float else d in
    (- d)%float
  else fst (Modf x).

Definition Ceil (x : float) : float := (- Floor (- x))%float.

Definition Max (x y : float) : float :=
  if IsInf x 1 || IsInf y 1 then infinity
  else if IsNaN x || IsNaN y then nan
  else if (x =? 0)%float && (x =? y)%float then
    if Signbit x then y else x
  else if (y <? x)%float then x else y.

End GoMath.

(** ** stc/config.go *)

(** roundMoney rounds a float64 to 2 decimal places for monetary values *)
Definition roundMoney (val : float) : float :=
  (GoMath.Round (val * 100) / 100)%float.

(** TaxRates represents tax rate configuration *)
Module TaxRates.
Record t : Set := mk {
  Federal : float;
  Medicare : float;
  SocialSec : float;
  State : float;
  LocalSDI : float
}.
End TaxRates.

(** BrokerFees represents broker fee configuration *)
Module BrokerFees.
Record t : Set := mk {
  CommissionRate : float;
  MinimumFee : float;
  FlatFee : float
}.
End BrokerFees.

(** Config holds the static configuration for STC calculations *)
Module Config.
Record t : Set := mk {
  TaxRates : TaxRates.t;
  BrokerFees : BrokerFees.t
}.
End Config.

(** Input represents the user-provided inputs for standard STC (Options) *)
Module Input.
Record t : Set := mk {
  ExercisePrice : float;
  ExercisedShares : float;
  FMV : float
}.
End Input.

(** RSUInput represents user-provided inputs for RSU STC *)
Module RSUInput.
Record t : Set := mk {
  SharesReleased : float;
  VestPrice : float;
  SalePrice : float
}.
End RSUInput.

(** Result contains all calculated values from the standard STC calculation *)
Module Result.
Record t : Set := mk {
  ExercisePrice : float;
  ExercisedShares : float;
  FMV : float;
  OptionCost : float;
  TaxableGain : float;
  FederalTax : float;
  MedicareTax : float;
  SocialSecTax : float;
  StateTax : float;
  LocalSDITax : float;
  TotalTax : float;
  BrokerCommission : float;
  BrokerFees : float;
  TotalCosts : float;
  SharesToSell : float;
  EstGrossProceeds : float;
  Residual : float;
  NetShares : float
}.

(** Go's zero value of the struct. *)
Definition zero : t := mk 0%float 0%float 0%float 0%float 0%float 0%float 0%float 0%float 0%float 0%float 0%float 0%float 0%float 0%float 0%float 0%float 0%float 0%float.

(** Field assignments [r.F = v]. *)
Definition set_ExercisePrice (v : float) (r : t) : t :=
  mk v (r.(ExercisedShares)) (r.(FMV)) (r.(OptionCost)) (r.(TaxableGain)) (r.(FederalTax)) (r.(MedicareTax)) (r.(SocialSecTax)) (r.(StateTax)) (r.(LocalSDITax)) (r.(TotalTax)) (r.(BrokerCommission)) (r.(BrokerFees)) (r.(TotalCosts)) (r.(SharesToSell)) (r.(EstGrossProceeds)) (r.(Residual)) (r.(NetShares)).
Definition set_ExercisedShares (v : float) (r : t) : t :=
  mk (r.(ExercisePrice)) v (r.(FMV)) (r.(OptionCost)) (r.(TaxableGain)) (r.(FederalTax)) (r.(MedicareTax)) (r.(SocialSecTax)) (r.(StateTax)) (r.(LocalSDITax)) (r.(TotalTax)) (r.(BrokerCommission)) (r.(BrokerFees)) (r.(TotalCosts)) (r.(SharesToSell)) (r.(EstGrossProceeds)) (r.(Residual)) (r.(NetShares)).
Definition set_FMV (v : float) (r : t) : t :=
  mk (r.(ExercisePrice)) (r.(ExercisedShares)) v (r.(OptionCost)) (r.(TaxableGain)) (r.(FederalTax)) (r.(MedicareTax)) (r.(SocialSecTax)) (r.(StateTax)) (r.(LocalSDITax)) (r.(TotalTax)) (r.(BrokerCommission)) (r.(BrokerFees)) (r.(TotalCosts)) (r.(SharesToSell)) (r.(EstGrossProceeds)) (r.(Residual)) (r.(NetShares)).
Definition set_OptionCost (v : float) (r : t) : t :=
  mk (r.(ExercisePrice)) (r.(ExercisedShares)) (r.(FMV)) v (r.(TaxableGain)) (r.(FederalTax)) (r.(MedicareTax)) (r.(SocialSecTax)) (r.(StateTax)) (r.(LocalSDITax)) (r.(TotalTax)) (r.(BrokerCommission)) (r.(BrokerFees)) (r.(TotalCosts)) (r.(SharesToSell)) (r.(EstGrossProceeds)) (r.(Residual)) (r.(NetShares)).
Definition set_TaxableGain (v : float) (r : t) : t :=
  mk (r.(ExercisePrice)) (r.(ExercisedShares)) (r.(FMV)) (r.(OptionCost)) v (r.(FederalTax)) (r.(MedicareTax)) (r.(SocialSecTax)) (r.(StateTax)) (r.(LocalSDITax)) (r.(TotalTax)) (r.(BrokerCommission)) (r.(BrokerFees)) (r.(TotalCosts)) (r.(SharesToSell)) (r.(EstGrossProceeds)) (r.(Residual)) (r.(NetShares)).
Definition set_FederalTax (v : float) (r : t) : t :=
  mk (r.(ExercisePrice)) (r.(ExercisedShares)) (r.(FMV)) (r.(OptionCost)) (r.(TaxableGain)) v (r.(MedicareTax)) (r.(SocialSecTax)) (r.(StateTax)) (r.(LocalSDITax)) (r.(TotalTax)) (r.(BrokerCommission)) (r.(BrokerFees)) (r.(TotalCosts)) (r.(SharesToSell)) (r.(EstGrossProceeds)) (r.(Residual)) (r.(NetShares)).
Definition set_MedicareTax (v : float) (r : t) : t :=
  mk (r.(ExercisePrice)) (r.(ExercisedShares)) (r.(FMV)) (r.(OptionCost)) (r.(TaxableGain)) (r.(FederalTax)) v (r.(SocialSecTax)) (r.(StateTax)) (r.(LocalSDITax)) (r.(TotalTax)) (r.(BrokerCommission)) (r.(BrokerFees)) (r.(TotalCosts)) (r.(SharesToSell)) (r.(EstGrossProceeds)) (r.(Residual)) (r.(NetShares)).
Definition set_SocialSecTax (v : float) (r : t) : t :=
  mk (r.(ExercisePrice)) (r.(ExercisedShares)) (r.(FMV)) (r.(OptionCost)) (r.(TaxableGain)) (r.(FederalTax)) (r.(MedicareTax)) v (r.(StateTax)) (r.(LocalSDITax)) (r.(TotalTax)) (r.(BrokerCommission)) (r.(BrokerFees)) (r.(TotalCosts)) (r.(SharesToSell)) (r.(EstGrossProceeds)) (r.(Residual)) (r.(NetShares)).
Definition set_StateTax (v : float) (r : t) : t :=
  mk (r.(ExercisePrice)) (r.(ExercisedShares)) (r.(FMV)) (r.(OptionCost)) (r.(TaxableGain)) (r.(FederalTax)) (r.(MedicareTax)) (r.(SocialSecTax)) v (r.(LocalSDITax)) (r.(TotalTax)) (r.(BrokerCommission)) (r.(BrokerFees)) (r.(TotalCosts)) (r.(SharesToSell)) (r.(EstGrossProceeds)) (r.(Residual)) (r.(NetShares)).
Definition set_LocalSDITax (v : float) (r : t) : t :=
  mk (r.(ExercisePrice)) (r.(ExercisedShares)) (r.(FMV)) (r.(OptionCost)) (r.(TaxableGain)) (r.(FederalTax)) (r.(MedicareTax)) (r.(SocialSecTax)) (r.(StateTax)) v (r.(TotalTax)) (r.(BrokerCommission)) (r.(BrokerFees)) (r.(TotalCosts)) (r.(SharesToSell)) (r.(EstGrossProceeds)) (r.(Residual)) (r.(NetShares)).
Definition set_TotalTax (v : float) (r : t) : t :=
  mk (r.(ExercisePrice)) (r.(ExercisedShares)) (r.(FMV)) (r.(OptionCost)) (r.(TaxableGain)) (r.(FederalTax)) (r.(MedicareTax)) (r.(SocialSecTax)) (r.(StateTax)) (r.(LocalSDITax)) v (r.(BrokerCommission)) (r.(BrokerFees)) (r.(TotalCosts)) (r.(SharesToSell)) (r.(EstGrossProceeds)) (r.(Residual)) (r.(NetShares)).
Definition set_BrokerCommission (v : float) (r : t) : t :=
  mk (r.(ExercisePrice)) (r.(ExercisedShares)) (r.(FMV)) (r.(OptionCost)) (r.(TaxableGain)) (r.(FederalTax)) (r.(MedicareTax)) (r.(SocialSecTax)) (r.(StateTax)) (r.(LocalSDITax)) (r.(TotalTax)) v (r.(BrokerFees)) (r.(TotalCosts)) (r.(SharesToSell)) (r.(EstGrossProceeds)) (r.(Residual)) (r.(NetShares)).
Definition set_BrokerFees (v : float) (r : t) : t :=
  mk (r.(ExercisePrice)) (r.(ExercisedShares)) (r.(FMV)) (r.(OptionCost)) (r.(TaxableGain)) (r.(FederalTax)) (r.(MedicareTax)) (r.(SocialSecTax)) (r.(StateTax)) (r.(LocalSDITax)) (r.(TotalTax)) (r.(BrokerCommission)) v (r.(TotalCosts)) (r.(SharesToSell)) (r.(EstGrossProceeds)) (r.(Residual)) (r.(NetShares)).
Definition set_TotalCosts (v : float) (r : t) : t :=
  mk (r.(ExercisePrice)) (r.(ExercisedShares)) (r.(FMV)) (r.(OptionCost)) (r.(TaxableGain)) (r.(FederalTax)) (r.(MedicareTax)) (r.(SocialSecTax)) (r.(StateTax)) (r.(LocalSDITax)) (r.(TotalTax)) (r.(BrokerCommission)) (r.(BrokerFees)) v (r.(SharesToSell)) (r.(EstGrossProceeds)) (r.(Residual)) (r.(NetShares)).
Definition set_SharesToSell (v : float) (r : t) : t :=
  mk (r.(ExercisePrice)) (r.(ExercisedShares)) (r.(FMV)) (r.(OptionCost)) (r.(TaxableGain)) (r.(FederalTax)) (r.(MedicareTax)) (r.(SocialSecTax)) (r.(StateTax)) (r.(LocalSDITax)) (r.(TotalTax)) (r.(BrokerCommission)) (r.(BrokerFees)) (r.(TotalCosts)) v (r.(EstGrossProceeds)) (r.(Residual)) (r.(NetShares)).
Definition set_EstGrossProceeds (v : float) (r : t) : t :=
  mk (r.(ExercisePrice)) (r.(ExercisedShares)) (r.(FMV)) (r.(OptionCost)) (r.(TaxableGain)) (r.(FederalTax)) (r.(MedicareTax)) (r.(SocialSecTax)) (r.(StateTax)) (r.(LocalSDITax)) (r.(TotalTax)) (r.(BrokerCommission)) (r.(BrokerFees)) (r.(TotalCosts)) (r.(SharesToSell)) v (r.(Residual)) (r.(NetShares)).
Definition set_Residual (v : float) (r : t) : t :=
  mk (r.(ExercisePrice)) (r.(ExercisedShares)) (r.(FMV)) (r.(OptionCost)) (r.(TaxableGain)) (r.(FederalTax)) (r.(MedicareTax)) (r.(SocialSecTax)) (r.(StateTax)) (r.(LocalSDITax)) (r.(TotalTax)) (r.(BrokerCommission)) (r.(BrokerFees)) (r.(TotalCosts)) (r.(SharesToSell)) (r.(EstGrossProceeds)) v (r.(NetShares)).
Definition set_NetShares (v : float) (r : t) : t :=
  mk (r.(ExercisePrice)) (r.(ExercisedShares)) (r.(FMV)) (r.(OptionCost)) (r.(TaxableGain)) (r.(FederalTax)) (r.(MedicareTax)) (r.(SocialSecTax)) (r.(StateTax)) (r.(LocalSDITax)) (r.(TotalTax)) (r.(BrokerCommission)) (r.(BrokerFees)) (r.(TotalCosts)) (r.(SharesToSell)) (r.(EstGrossProceeds)) (r.(Residual)) v.
End Result.

(** RSUResult contains all calculated values from the RSU STC calculation *)
Module RSUResult.
Record t : Set := mk {
  SharesReleased : float;
  VestPrice : float;
  SalePrice : float;
  TaxableGain : float;
  FederalTax : float;
  MedicareTax : float;
  SocialSecTax : float;
  StateTax : float;
  LocalSDITax : float;
  TotalTax : float;
  BrokerCommission : float;
  FlatFee : float;
  TotalFees : float;
  TotalCosts : float;
  SharesToSell : float;
  EstGrossProceeds : float;
  Residual : float;
  NetShares : float
}.

(** Go's zero value of the struct. *)
Definition zero : t := mk 0%float 0%float 0%float 0%float 0%float 0%float 0%float 0%float 0%float 0%float 0%float 0%float 0%float 0%float 0%float 0%float 0%float 0%float.

(** Field assignments [r.F = v]. *)
Definition set_SharesReleased (v : float) (r : t) : t :=
  mk v (r.(VestPrice)) (r.(SalePrice)) (r.(TaxableGain)) (r.(FederalTax)) (r.(MedicareTax)) (r.(SocialSecTax)) (r.(StateTax)) (r.(LocalSDITax)) (r.(TotalTax)) (r.(BrokerCommission)) (r.(FlatFee)) (r.(TotalFees)) (r.(TotalCosts)) (r.(SharesToSell)) (r.(EstGrossProceeds)) (r.(Residual)) (r.(NetShares)).
Definition set_VestPrice (v : float) (r : t) : t :=
  mk (r.(SharesReleased)) v (r.(SalePrice)) (r.(TaxableGain)) (r.(FederalTax)) (r.(MedicareTax)) (r.(SocialSecTax)) (r.(StateTax)) (r.(LocalSDITax)) (r.(TotalTax)) (r.(BrokerCommission)) (r.(FlatFee)) (r.(TotalFees)) (r.(TotalCosts)) (r.(SharesToSell)) (r.(EstGrossProceeds)) (r.(Residual)) (r.(NetShares)).
Definition set_SalePrice (v : float) (r : t) : t :=
  mk (r.(SharesReleased)) (r.(VestPrice)) v (r.(TaxableGain)) (r.(FederalTax)) (r.(MedicareTax)) (r.(SocialSecTax)) (r.(StateTax)) (r.(LocalSDITax)) (r.(TotalTax)) (r.(BrokerCommission)) (r.(FlatFee)) (r.(TotalFees)) (r.(TotalCosts)) (r.(SharesToSell)) (r.(EstGrossProceeds)) (r.(Residual)) (r.(NetShares)).
Definition set_TaxableGain (v : float) (r : t) : t :=
  mk (r.(SharesReleased)) (r.(VestPrice)) (r.(SalePrice)) v (r.(FederalTax)) (r.(MedicareTax)) (r.(SocialSecTax)) (r.(StateTax)) (r.(LocalSDITax)) (r.(TotalTax)) (r.(BrokerCommission)) (r.(FlatFee)) (r.(TotalFees)) (r.(TotalCosts)) (r.(SharesToSell)) (r.(EstGrossProceeds)) (r.(Residual)) (r.(NetShares)).
Definition set_FederalTax (v : float) (r : t) : t :=
  mk (r.(SharesReleased)) (r.(VestPrice)) (r.(SalePrice)) (r.(TaxableGain)) v (r.(MedicareTax)) (r.(SocialSecTax)) (r.(StateTax)) (r.(LocalSDITax)) (r.(TotalTax)) (r.(BrokerCommission)) (r.(FlatFee)) (r.(TotalFees)) (r.(TotalCosts)) (r.(SharesToSell)) (r.(EstGrossProceeds)) (r.(Residual)) (r.(NetShares)).
Definition set_MedicareTax (v : float) (r : t) : t :=
  mk (r.(SharesReleased)) (r.(VestPrice)) (r.(SalePrice)) (r.(TaxableGain)) (r.(FederalTax)) v (r.(SocialSecTax)) (r.(StateTax)) (r.(LocalSDITax)) (r.(TotalTax)) (r.(BrokerCommission)) (r.(FlatFee)) (r.(TotalFees)) (r.(TotalCosts)) (r.(SharesToSell)) (r.(EstGrossProceeds)) (r.(Residual)) (r.(NetShares)).
Definition set_SocialSecTax (v : float) (r : t) : t :=
  mk (r.(SharesReleased)) (r.(VestPrice)) (r.(SalePrice)) (r.(TaxableGain)) (r.(FederalTax)) (r.(MedicareTax)) v (r.(StateTax)) (r.(LocalSDITax)) (r.(TotalTax)) (r.(BrokerCommission)) (r.(FlatFee)) (r.(TotalFees)) (r.(TotalCosts)) (r.(SharesToSell)) (r.(EstGrossProceeds)) (r.(Residual)) (r.(NetShares)).
Definition set_StateTax (v : float) (r : t) : t :=
  mk (r.(SharesReleased)) (r.(VestPrice)) (r.(SalePrice)) (r.(TaxableGain)) (r.(FederalTax)) (r.(MedicareTax)) (r.(SocialSecTax)) v (r.(LocalSDITax)) (r.(TotalTax)) (r.(BrokerCommission)) (r.(FlatFee)) (r.(TotalFees)) (r.(TotalCosts)) (r.(SharesToSell)) (r.(EstGrossProceeds)) (r.(Residual)) (r.(NetShares)).
Definition set_LocalSDITax (v : float) (r : t) : t :=
  mk (r.(SharesReleased)) (r.(VestPrice)) (r.(SalePrice)) (r.(TaxableGain)) (r.(FederalTax)) (r.(MedicareTax)) (r.(SocialSecTax)) (r.(StateTax)) v (r.(TotalTax)) (r.(BrokerCommission)) (r.(FlatFee)) (r.(TotalFees)) (r.(TotalCosts)) (r.(SharesToSell)) (r.(EstGrossProceeds)) (r.(Residual)) (r.(NetShares)).
Definition set_TotalTax (v : float) (r : t) : t :=
  mk (r.(SharesReleased)) (r.(VestPrice)) (r.(SalePrice)) (r.(TaxableGain)) (r.(FederalTax)) (r.(MedicareTax)) (r.(SocialSecTax)) (r.(StateTax)) (r.(LocalSDITax)) v (r.(BrokerCommission)) (r.(FlatFee)) (r.(TotalFees)) (r.(TotalCosts)) (r.(SharesToSell)) (r.(EstGrossProceeds)) (r.(Residual)) (r.(NetShares)).
Definition set_BrokerCommission (v : float) (r : t) : t :=
  mk (r.(SharesReleased)) (r.(VestPrice)) (r.(SalePrice)) (r.(TaxableGain)) (r.(FederalTax)) (r.(MedicareTax)) (r.(SocialSecTax)) (r.(StateTax)) (r.(LocalSDITax)) (r.(TotalTax)) v (r.(FlatFee)) (r.(TotalFees)) (r.(TotalCosts)) (r.(SharesToSell)) (r.(EstGrossProceeds)) (r.(Residual)) (r.(NetShares)).
Definition set_FlatFee (v : float) (r : t) : t :=
  mk (r.(SharesReleased)) (r.(VestPrice)) (r.(SalePrice)) (r.(TaxableGain)) (r.(FederalTax)) (r.(MedicareTax)) (r.(SocialSecTax)) (r.(StateTax)) (r.(LocalSDITax)) (r.(TotalTax)) (r.(BrokerCommission)) v (r.(TotalFees)) (r.(TotalCosts)) (r.(SharesToSell)) (r.(EstGrossProceeds)) (r.(Residual)) (r.(NetShares)).
Definition set_TotalFees (v : float) (r : t) : t :=
  mk (r.(SharesReleased)) (r.(VestPrice)) (r.(SalePrice)) (r.(TaxableGain)) (r.(FederalTax)) (r.(MedicareTax)) (r.(SocialSecTax)) (r.(StateTax)) (r.(LocalSDITax)) (r.(TotalTax)) (r.(BrokerCommission)) (r.(FlatFee)) v (r.(TotalCosts)) (r.(SharesToSell)) (r.(EstGrossProceeds)) (r.(Residual)) (r.(NetShares)).
Definition set_TotalCosts (v : float) (r : t) : t :=
  mk (r.(SharesReleased)) (r.(VestPrice)) (r.(SalePrice)) (r.(TaxableGain)) (r.(FederalTax)) (r.(MedicareTax)) (r.(SocialSecTax)) (r.(StateTax)) (r.(LocalSDITax)) (r.(TotalTax)) (r.(BrokerCommission)) (r.(FlatFee)) (r.(TotalFees)) v (r.(SharesToSell)) (r.(EstGrossProceeds)) (r.(Residual)) (r.(NetShares)).
Definition set_SharesToSell (v : float) (r : t) : t :=
  mk (r.(SharesReleased)) (r.(VestPrice)) (r.(SalePrice)) (r.(TaxableGain)) (r.(FederalTax)) (r.(MedicareTax)) (r.(SocialSecTax)) (r.(StateTax)) (r.(LocalSDITax)) (r.(TotalTax)) (r.(BrokerCommission)) (r.(FlatFee)) (r.(TotalFees)) (r.(TotalCosts)) v (r.(EstGrossProceeds)) (r.(Residual)) (r.(NetShares)).
Definition set_EstGrossProceeds (v : float) (r : t) : t :=
  mk (r.(SharesReleased)) (r.(VestPrice)) (r.(SalePrice)) (r.(TaxableGain)) (r.(FederalTax)) (r.(MedicareTax)) (r.(SocialSecTax)) (r.(StateTax)) (r.(LocalSDITax)) (r.(TotalTax)) (r.(BrokerCommission)) (r.(FlatFee)) (r.(TotalFees)) (r.(TotalCosts)) (r.(SharesToSell)) v (r.(Residual)) (r.(NetShares)).
Definition set_Residual (v : float) (r : t) : t :=
  mk (r.(SharesReleased)) (r.(VestPrice)) (r.(SalePrice)) (r.(TaxableGain)) (r.(FederalTax)) (r.(MedicareTax)) (r.(SocialSecTax)) (r.(StateTax)) (r.(LocalSDITax)) (r.(TotalTax)) (r.(BrokerCommission)) (r.(FlatFee)) (r.(TotalFees)) (r.(TotalCosts)) (r.(SharesToSell)) (r.(EstGrossProceeds)) v (r.(NetShares)).
Definition set_NetShares (v : float) (r : t) : t :=
  mk (r.(SharesReleased)) (r.(VestPrice)) (r.(SalePrice)) (r.(TaxableGain)) (r.(FederalTax)) (r.(MedicareTax)) (r.(SocialSecTax)) (r.(StateTax)) (r.(LocalSDITax)) (r.(TotalTax)) (r.(BrokerCommission)) (r.(FlatFee)) (r.(TotalFees)) (r.(TotalCosts)) (r.(SharesToSell)) (r.(EstGrossProceeds)) (r.(Residual)) v.
End RSUResult.

(** Calculator handles STC calculations with a given configuration *)
Module Calculator.
Record t : Set := mk { config : Config.t }.
End Calculator.

Definition NewCalculator (config : Config.t) : Calculator.t :=
  Calculator.mk config.

Definition NewDefaultCalculator : Calculator.t :=
  Calculator.mk
    (Config.mk
       (TaxRates.mk 0.22 0.0145 0.062 0.0 0.0)
       (BrokerFees.mk 0.03 25.0 0.0)).

Definition maxIterations : nat := 100.

Section Solvers.

Variable c : Calculator.t.

Let rates : TaxRates.t := Config.TaxRates (Calculator.config c).
Let fees : BrokerFees.t := Config.BrokerFees (Calculator.config c).

(** *** Calculate (options) *)

(** One pass through the body of the [for] loop of Calculate, up to the
    stability test: commission, applied fee, total liability and the
    new share count computed from the current [sharesToSell]. *)
Definition iteration (result : Result.t) (input : Input.t) (sharesToSell : float)
  : float * float * float * float :=
  let brokerCommission := (sharesToSell * BrokerFees.CommissionRate fees)%float in
  let brokerFeesApplied := GoMath.Max brokerCommission (BrokerFees.MinimumFee fees) in
  let totalCosts :=
    (Result.OptionCost result + Result.TotalTax result + brokerFeesApplied)%float in
  let newSharesToSell := GoMath.Ceil (totalCosts / Input.FMV input) in
  (brokerCommission, brokerFeesApplied, totalCosts, newSharesToSell).

(** The [for i := 0; i < maxIterations; i++] loop: [fuel] is the number of
    iterations left; the result is only written in the stable branch,
    which then leaves the loop. *)
Fixpoint solve (fuel : nat) (input : Input.t) (sharesToSell : float)
    (result : Result.t) : Result.t :=
  match fuel with
  | O => result
  | S fuel' =>
      let '(brokerCommission, brokerFeesApplied, totalCosts, newSharesToSell) :=
        iteration result input sharesToSell in
      if (newSharesToSell =? sharesToSell)%float then
        Result.set_TotalCosts totalCosts
          (Result.set_BrokerFees brokerFeesApplied
             (Result.set_BrokerCommission brokerCommission
                (Result.set_SharesToSell sharesToSell result)))
      else solve fuel' input newSharesToSell result
  end.

(** The part of Calculate before the loop: cost basis, taxable gain and
    the five rounded tax lines. *)
Definition taxLines (input : Input.t) : Result.t :=
  let result :=
    Result.set_FMV (Input.FMV input)
      (Result.set_ExercisedShares (Input.ExercisedShares input)
         (Result.set_ExercisePrice (Input.ExercisePrice input) Result.zero)) in
  let result :=
    Result.set_OptionCost
      (roundMoney (Input.ExercisedShares input * Input.ExercisePrice input)) result in
  let result :=
    Result.set_TaxableGain
      (roundMoney ((Input.FMV input - Input.ExercisePrice input)
                   * Input.ExercisedShares input)) result in
  let result :=
    Result.set_FederalTax
      (roundMoney (Result.TaxableGain result * TaxRates.Federal rates)) result in
  let result :=
    Result.set_MedicareTax
      (roundMoney (Result.TaxableGain result * TaxRates.Medicare rates)) result in
  let result :=
    Result.set_SocialSecTax
      (roundMoney (Result.TaxableGain result * TaxRates.SocialSec rates)) result in
  let result :=
    Result.set_StateTax
      (roundMoney (Result.TaxableGain result * TaxRates.State rates)) result in
  let result :=
    Result.set_LocalSDITax
      (roundMoney (Result.TaxableGain result * TaxRates.LocalSDI rates)) result in
  Result.set_TotalTax
    (Result.FederalTax result + Result.MedicareTax result
     + Result.SocialSecTax result + Result.StateTax result
     + Result.LocalSDITax result) result.

(** Base liability (costs excluding broker fees). *)
Definition baseLiability (result : Result.t) : float :=
  (Result.OptionCost result + Result.TotalTax result + BrokerFees.FlatFee fees)%float.

(** Initial guess: cost / FMV rounded up, or 0 when FMV is not above 0. *)
Definition initialGuess (result : Result.t) (input : Input.t) : float :=
  if (0 <? Input.FMV input)%float
  then GoMath.Ceil (baseLiability result / Input.FMV input)
  else 0%float.

(** The statements after the loop. *)
Definition finish (input : Input.t) (result : Result.t) : Result.t :=
  let result :=
    Result.set_EstGrossProceeds
      (Result.SharesToSell result * Input.FMV input) result in
  let result :=
    Result.set_Residual
      (Result.EstGrossProceeds result - Result.TotalCosts result) result in
  Result.set_NetShares
    (Input.ExercisedShares input - Result.SharesToSell result) result.

(** Calculate performs the STC calculation for Options *)
Definition Calculate (input : Input.t) : Result.t :=
  let result := taxLines input in
  let sharesToSell := initialGuess result input in
  let result := solve maxIterations input sharesToSell result in
  finish input result.

(** *** CalculateRSU (restricted stock units) *)

(** One pass through the body of the [for] loop of CalculateRSU, up to
    the stability test. *)
Definition iterationRSU (result : RSUResult.t) (input : RSUInput.t)
    (sharesToSell : float) : float * float * float * float * float :=
  let sharesReleased := RSUInput.SharesReleased input in
  let grossProceeds := ((sharesReleased - sharesToSell) * RSUInput.SalePrice input)%float in
  let commission := (sharesToSell * BrokerFees.CommissionRate fees)%float in
  let finalCommission := GoMath.Max commission (BrokerFees.MinimumFee fees) in
  let totalTransactionCosts := (finalCommission + BrokerFees.FlatFee fees)%float in
  let totalRequired := (RSUResult.TotalTax result + totalTransactionCosts)%float in
  let newSharesToSell := GoMath.Ceil (totalRequired / RSUInput.SalePrice input) in
  (grossProceeds, finalCommission, totalTransactionCosts, totalRequired, newSharesToSell).

(** The loop of CalculateRSU.  The local [sharesToSell] is read again
    after the loop, so it is returned next to the result. *)
Fixpoint solveRSU (fuel : nat) (input : RSUInput.t) (sharesToSell : float)
    (result : RSUResult.t) : float * RSUResult.t :=
  match fuel with
  | O => (sharesToSell, result)
  | S fuel' =>
      let '(grossProceeds, finalCommission, totalTransactionCosts,
            totalRequired, newSharesToSell) :=
        iterationRSU result input sharesToSell in
      if (newSharesToSell =? sharesToSell)%float then
        (sharesToSell,
         RSUResult.set_EstGrossProceeds grossProceeds
           (RSUResult.set_TotalCosts totalRequired
              (RSUResult.set_TotalFees totalTransactionCosts
                 (RSUResult.set_FlatFee (BrokerFees.FlatFee fees)
                    (RSUResult.set_BrokerCommission finalCommission
                       (RSUResult.set_SharesToSell sharesToSell result))))))
      else solveRSU fuel' input newSharesToSell result
  end.

(** Steps 1 and 2 of CalculateRSU: taxable gain (basis is FMV at vest)
    and the five rounded tax lines. *)
Definition taxLinesRSU (input : RSUInput.t) : RSUResult.t :=
  let result :=
    RSUResult.set_SalePrice (RSUInput.SalePrice input)
      (RSUResult.set_VestPrice (RSUInput.VestPrice input)
         (RSUResult.set_SharesReleased (RSUInput.SharesReleased input)
            RSUResult.zero)) in
  let result :=
    RSUResult.set_TaxableGain
      (roundMoney (RSUInput.SharesReleased input * RSUInput.VestPrice input)) result in
  let result :=
    RSUResult.set_FederalTax
      (roundMoney (RSUResult.TaxableGain result * TaxRates.Federal rates)) result in
  let result :=
    RSUResult.set_MedicareTax
      (roundMoney (RSUResult.TaxableGain result * TaxRates.Medicare rates)) result in
  let result :=
    RSUResult.set_SocialSecTax
      (roundMoney (RSUResult.TaxableGain result * TaxRates.SocialSec rates)) result in
  let result :=
    RSUResult.set_StateTax
      (roundMoney (RSUResult.TaxableGain result * TaxRates.State rates)) result in
  let result :=
    RSUResult.set_LocalSDITax
      (roundMoney (RSUResult.TaxableGain result * TaxRates.LocalSDI rates)) result in
  RSUResult.set_TotalTax
    (RSUResult.FederalTax result + RSUResult.MedicareTax result
     + RSUResult.SocialSecTax result + RSUResult.StateTax result
     + RSUResult.LocalSDITax result) result.

Definition initialGuessRSU (result : RSUResult.t) (input : RSUInput.t) : float :=
  let baseBurden := RSUResult.TotalTax result in
  if (0 <? RSUInput.SalePrice input)%float
  then GoMath.Ceil (baseBurden / RSUInput.SalePrice input)
  else 0%float.

(** Step 5 of CalculateRSU; [sharesToSell] is the loop's local. *)
Definition finishRSU (input : RSUInput.t) (sharesToSell : float)
    (result : RSUResult.t) : RSUResult.t :=
  let result :=
    RSUResult.set_Residual
      (sharesToSell * RSUInput.SalePrice input - RSUResult.TotalCosts result) result in
  RSUResult.set_NetShares
    (RSUResult.SharesReleased result - RSUResult.SharesToSell result) result.

(** CalculateRSU performs the STC calculation for Restricted Stock Units *)
Definition CalculateRSU (input : RSUInput.t) : RSUResult.t :=
  let result := taxLinesRSU input in
  let sharesToSell := initialGuessRSU result input in
  let '(sharesToSell, result) := solveRSU maxIterations input sharesToSell result in
  finishRSU input sharesToSell result.

End Solvers.

(** *** Methods on [*Calculator]

    A method with receiver [c *Calculator] is a state transformer on
    the calculator the pointer refers to: it returns its result and the
    calculator as the call leaves it. *)
Definition Method (A : Type) : Type := Calculator.t -> A * Calculator.t.

Definition ret {A : Type} (a : A) : Method A := fun c => (a, c).

Definition bind {A B : Type} (m : Method A) (k : A -> Method B) : Method B :=
  fun c => let '(a, c') := m c in k a c'.

Notation "x <- m ;; k" := (bind m (fun x => k))
  (at level 61, m at next level, right associativity).

(** [c.config] read through the receiver. *)
Definition readConfig : Method Config.t := fun c => (Calculator.config c, c).

(** [c.config.TaxRates = rates] and [c.config.BrokerFees = fees]. *)
Definition writeTaxRates (rates : TaxRates.t) : Method unit :=
  fun c => (tt, Calculator.mk (Config.mk rates (Config.BrokerFees (Calculator.config c)))).

Definition writeBrokerFees (fees : BrokerFees.t) : Method unit :=
  fun c => (tt, Calculator.mk (Config.mk (Config.TaxRates (Calculator.config c)) fees)).

Definition CalculateM (input : Input.t) : Method Result.t :=
  config <- readConfig ;; ret (Calculate (Calculator.mk config) input).

Definition CalculateRSUM (input : RSUInput.t) : Method RSUResult.t :=
  config <- readConfig ;; ret (CalculateRSU (Calculator.mk config) input).

(** UpdateTaxRates updates the tax rate configuration *)
Definition UpdateTaxRates (rates : TaxRates.t) : Method unit := writeTaxRates rates.

(** UpdateBrokerFees updates the broker fee configuration *)
Definition UpdateBrokerFees (fees : BrokerFees.t) : Method unit := writeBrokerFees fees.

(** GetConfig returns the current configuration *)
Definition GetConfig : Method Config.t := readConfig.

(** A call on a calculator, and a sequence of calls run in order. *)
Inductive Call : Set :=
| DoCalculate (input : Input.t)
| DoCalculateRSU (input : RSUInput.t)
| DoGetConfig
| DoUpdateTaxRates (rates : TaxRates.t)
| DoUpdateBrokerFees (fees : BrokerFees.t).

Definition readOnly (call : Call) : bool :=
  match call with
  | DoCalculate _ | DoCalculateRSU _ | DoGetConfig => true
  | DoUpdateTaxRates _ | DoUpdateBrokerFees _ => false
  end.

Definition perform (call : Call) : Method unit :=
  match call with
  | DoCalculate input => _ <- CalculateM input ;; ret tt
  | DoCalculateRSU input => _ <- CalculateRSUM input ;; ret tt
  | DoGetConfig => _ <- GetConfig ;; ret tt
  | DoUpdateTaxRates rates => UpdateTaxRates rates
  | DoUpdateBrokerFees fees => UpdateBrokerFees fees
  end.

Fixpoint performAll (calls : list Call) : Method unit :=
  match calls with
  | [] => ret tt
  | call :: rest => _ <- perform call ;; performAll rest
  end.

(** ** Formatting and parsing collaborators *)

Local Open Scope string_scope.
Local Open Scope Z_scope.

(** [fmt.Sprintf("%.Nf", x)]: the exact decimal expansion of the
    binary64 value, rounded to N fractional digits, halves to even. *)
Module GoFmt.

Definition roundHalfEven (num den : Z) : Z :=
  let q := num / den in
  let r := num mod den in
  match 2 * r ?= den with
  | Lt => q
  | Gt => q + 1
  | Eq => if Z.even q then q else q + 1
  end.

(** |m * 2^e| scaled by 10^prec and rounded to an integer. *)
Definition scaled (prec : nat) (m : positive) (e : Z) : Z :=
  if 0 <=? e then Zpos m * 2 ^ e * 10 ^ Z.of_nat prec
  else roundHalfEven (Zpos m * 10 ^ Z.of_nat prec) (2 ^ (- e)).

Definition digitChar (d : Z) : ascii :=
  ascii_of_nat (48 + Z.to_nat d).

(** The last [width] decimal digits of [n], most significant first. *)
Fixpoint fixedDigits (width : nat) (n : Z) : string :=
  match width with
  | O => ""
  | S w => fixedDigits w (n / 10) ++ String (digitChar (n mod 10)) ""
  end.

Definition natString (n : Z) : string :=
  NilZero.string_of_uint (N.to_uint (Z.to_N n)).

Definition fixed (prec : nat) (n : Z) : string :=
  let unit := 10 ^ Z.of_nat prec in
  match prec with
  | O => natString n
  | _ => natString (n / unit) ++ "." ++ fixedDigits prec (n mod unit)
  end.

Definition Sprintf_f (prec : nat) (x : float) : string :=
  match Prim2SF x with
  | S754_nan => "NaN"
  | S754_infinity s => if s then "-Inf" else "+Inf"
  | S754_zero s => (if s then "-" else "") ++ fixed prec 0
  | S754_finite s m e => (if s then "-" else "") ++ fixed prec (scaled prec m e)
  end.

End GoFmt.

(** Go [error] values that the tabular layer can meet. *)
Inductive error : Set :=
| EOF
| ErrFieldCount
| ErrSyntax
| ErrRange
| ErrWrite
| Errorf (msg : string) (wrapped : error).

(** [encoding/csv].  The lexing of bytes into fields is left out: a
    reader is given the records of its source, a writer collects the
    records handed to it. *)
Module csv.

Record Reader : Set := mkReader {
  FieldsPerRecord : Z;
  source : list (list string)
}.

Definition NewReader (src : list (list string)) : Reader := mkReader 0 src.

(** [Reader.Read]: the next record; [io.EOF] at the end; with
    [FieldsPerRecord] 0 the first record fixes the field count that
    every later record must have, and a record of another length comes
    back together with [ErrFieldCount]. *)
Definition Read (r : Reader) : (list string * option error) * Reader :=
  match source r with
  | [] => (([], Some EOF), r)
  | record :: rest =>
      let n := Z.of_nat (List.length record) in
      if 0 <? FieldsPerRecord r then
        if n =? FieldsPerRecord r
        then ((record, None), mkReader (FieldsPerRecord r) rest)
        else ((record, Some ErrFieldCount), mkReader (FieldsPerRecord r) rest)
      else if FieldsPerRecord r =? 0
      then ((record, None), mkReader n rest)
      else ((record, None), mkReader (FieldsPerRecord r) rest)
  end.

(** A writer over a sink that either accepts every record or, once
    [broken], refuses them all. *)
Record Writer : Set := mkWriter {
  written : list (list string);
  broken : bool
}.

Definition NewWriter : Writer := mkWriter [] false.

Definition Write (record : list string) (w : Writer) : option error * Writer :=
  if broken w then (Some ErrWrite, w)
  else (None, mkWriter (written w ++ [record])%list false).

End csv.

(** ** Batch processing and CSV *)

(** CalculateBatch processes multiple STC calculations at once *)
Definition CalculateBatch (c : Calculator.t) (inputs : list Input.t) : list Result.t :=
  map (Calculate c) inputs.

Definition header : list string :=
  [ "Exercise Price"; "Exercised Shares"; "FMV"; "Shares To Sell";
    "Net Shares"; "Total Costs"; "Est. Gross Proceeds"; "Taxable Gain";
    "Total Tax"; "Option Cost"; "Broker Fees" ].

(** The data row that ToCSV builds for one result. *)
Definition row (result : Result.t) : list string :=
  [ GoFmt.Sprintf_f 2 (Result.ExercisePrice result);
    GoFmt.Sprintf_f 2 (Result.ExercisedShares result);
    GoFmt.Sprintf_f 2 (Result.FMV result);
    GoFmt.Sprintf_f 4 (Result.SharesToSell result);
    GoFmt.Sprintf_f 4 (Result.NetShares result);
    GoFmt.Sprintf_f 2 (Result.TotalCosts result);
    GoFmt.Sprintf_f 2 (Result.EstGrossProceeds result);
    GoFmt.Sprintf_f 2 (Result.TaxableGain result);
    GoFmt.Sprintf_f 2 (Result.TotalTax result);
    GoFmt.Sprintf_f 2 (Result.OptionCost result);
    GoFmt.Sprintf_f 2 (Result.BrokerFees result) ].

(** The [for _, result := range br.Results] loop of ToCSV. *)
Fixpoint writeRows (results : list Result.t) (writer : csv.Writer)
  : option error * csv.Writer :=
  match results with
  | [] => (None, writer)
  | result :: rest =>
      match csv.Write (row result) writer with
      | (Some err, writer) => (Some (Errorf "failed to write row" err), writer)
      | (None, writer) => writeRows rest writer
      end
  end.

(** ToCSV writes batch results to a CSV writer *)
Definition ToCSV (results : list Result.t) (writer : csv.Writer)
  : option error * csv.Writer :=
  match csv.Write header writer with
  | (Some err, writer) => (Some (Errorf "failed to write header" err), writer)
  | (None, writer) => writeRows results writer
  end.

Section TabularImport.

(** [strconv.ParseFloat(s, 64)]: the parsed value and the error, if any. *)
Variable ParseFloat : string -> float * option error.

Definition field (record : list string) (i : nat) : string := nth i record "".

(** The [for] loop of FromCSV; [fuel] bounds the number of reads. *)
Fixpoint readRows (fuel : nat) (reader : csv.Reader) (inputs : list Input.t)
  : option (list Input.t * option error) :=
  match fuel with
  | O => None
  | S fuel' =>
      let '((record, err), reader) := csv.Read reader in
      match err with
      | Some EOF => Some (inputs, None)
      | Some err => Some ([], Some (Errorf "failed to read row" err))
      | None =>
          if (List.length record <? 3)%nat then readRows fuel' reader inputs
          else
            match ParseFloat (field record 0) with
            | (_, Some err) => Some ([], Some (Errorf "invalid exercise price" err))
            | (exercisePrice, None) =>
            match ParseFloat (field record 1) with
            | (_, Some err) => Some ([], Some (Errorf "invalid exercised shares" err))
            | (exercisedShares, None) =>
            match ParseFloat (field record 2) with
            | (_, Some err) => Some ([], Some (Errorf "invalid FMV" err))
            | (fmv, None) =>
                readRows fuel' reader
                  (inputs ++ [Input.mk exercisePrice exercisedShares fmv])%list
            end end end
      end
  end.

(** FromCSV reads inputs from a CSV reader *)
Definition FromCSV (src : list (list string)) : option (list Input.t * option error) :=
  let reader := csv.NewReader src in
  let '((_, err), reader) := csv.Read reader in
  match err with
  | Some err => Some ([], Some (Errorf "failed to read header" err))
  | None => readRows (S (List.length (csv.source reader))) reader []
  end.

End TabularImport.

(** A small decimal reader standing in for strconv.ParseFloat where a
    concrete one is needed: digits with at most one point and an optional
    leading minus sign; anything else is a syntax error. *)
Module Decimal.

Definition digitValue (a : ascii) : option Z :=
  let n := Z.of_nat (nat_of_ascii a) in
  if (48 <=? n) && (n <=? 57) then Some (n - 48) else None.

(** Accumulates the digits in [mant] and counts the fractional ones. *)
Fixpoint scan (s : string) (seenPoint : bool) (mant : Z) (fracDigits : Z)
  : option (Z * Z) :=
  match s with
  | EmptyString => Some (mant, fracDigits)
  | String a rest =>
      if Ascii.eqb a "." then
        if seenPoint then None else scan rest true mant fracDigits
      else
        match digitValue a with
        | Some d => scan rest seenPoint (10 * mant + d)
                         (if seenPoint then fracDigits + 1 else fracDigits)
        | None => None
        end
  end.

Definition ofZ (n : Z) : float := of_uint63 (Uint63.of_Z n).

Definition unsigned (s : string) : float * option error :=
  match s with
  | EmptyString | String "." EmptyString => (0%float, Some ErrSyntax)
  | _ =>
      match scan s false 0 0 with
      | Some (mant, fracDigits) =>
          if (mant <? 2 ^ 53) && (fracDigits <=? 22)
          then ((ofZ mant / ofZ (10 ^ fracDigits))%float, None)
          else (0%float, Some ErrSyntax)
      | None => (0%float, Some ErrSyntax)
      end
  end.

Definition ParseFloat (s : string) : float * option error :=
  match s with
  | String "-" rest =>
      let '(v, err) := unsigned rest in ((- v)%float, err)
  | _ => unsigned s
  end.

End Decimal.

(** ** Vocabulary of the properties *)

Section Trace.

Variable c : Calculator.t.

(** The share count at which the loop of Calculate meets its stability
    test within [fuel] iterations, if it does. *)
Fixpoint fixedPoint (fuel : nat) (input : Input.t) (sharesToSell : float)
    (result : Result.t) : option float :=
  match fuel with
  | O => None
  | S fuel' =>
      let '(_, _, _, newSharesToSell) := iteration c result input sharesToSell in
      if (newSharesToSell =? sharesToSell)%float then Some sharesToSell
      else fixedPoint fuel' input newSharesToSell result
  end.

(** The value of the local [sharesToSell] after [k] unstable iterations. *)
Fixpoint sharesAfter (k : nat) (input : Input.t) (sharesToSell : float)
    (result : Result.t) : float :=
  match k with
  | O => sharesToSell
  | S k' =>
      let '(_, _, _, newSharesToSell) := iteration c result input sharesToSell in
      sharesAfter k' input newSharesToSell result
  end.

Fixpoint fixedPointRSU (fuel : nat) (input : RSUInput.t) (sharesToSell : float)
    (result : RSUResult.t) : option float :=
  match fuel with
  | O => None
  | S fuel' =>
      let '(_, _, _, _, newSharesToSell) := iterationRSU c result input sharesToSell in
      if (newSharesToSell =? sharesToSell)%float then Some sharesToSell
      else fixedPointRSU fuel' input newSharesToSell result
  end.

Fixpoint sharesAfterRSU (k : nat) (input : RSUInput.t) (sharesToSell : float)
    (result : RSUResult.t) : float :=
  match k with
  | O => sharesToSell
  | S k' =>
      let '(_, _, _, _, newSharesToSell) := iterationRSU c result input sharesToSell in
      sharesAfterRSU k' input newSharesToSell result
  end.

(** What a stable pass of either loop writes into the result. *)
Definition recorded (input : Input.t) (result : Result.t) (n : float) : Result.t :=
  let '(brokerCommission, brokerFeesApplied, totalCosts, _) :=
    iteration c result input n in
  Result.set_TotalCosts totalCosts
    (Result.set_BrokerFees brokerFeesApplied
       (Result.set_BrokerCommission brokerCommission
          (Result.set_SharesToSell n result))).

Definition recordedRSU (input : RSUInput.t) (result : RSUResult.t) (n : float)
  : RSUResult.t :=
  let '(grossProceeds, finalCommission, totalTransactionCosts, totalRequired, _) :=
    iterationRSU c result input n in
  RSUResult.set_EstGrossProceeds grossProceeds
    (RSUResult.set_TotalCosts totalRequired
       (RSUResult.set_TotalFees totalTransactionCosts
          (RSUResult.set_FlatFee
             (BrokerFees.FlatFee (Config.BrokerFees (Calculator.config c)))
             (RSUResult.set_BrokerCommission finalCommission
                (RSUResult.set_SharesToSell n result))))).

(** Whether, and where, Calculate / CalculateRSU stabilise on an input. *)
Definition stableAt (input : Input.t) : option float :=
  fixedPoint maxIterations input
    (initialGuess c (taxLines c input) input) (taxLines c input).

Definition stableAtRSU (input : RSUInput.t) : option float :=
  fixedPointRSU maxIterations input
    (initialGuessRSU (taxLinesRSU c input) input) (taxLinesRSU c input).

(** What the hundredth and last pass of the loop of Calculate computes
    when no earlier pass was stable: the share count it starts from, the
    commission, the applied fee, the total liability and the new share
    count. *)
Definition lastPass (input : Input.t) : float * float * float * float * float :=
  let result := taxLines c input in
  let sharesToSell :=
    sharesAfter (pred maxIterations) input (initialGuess c result input) result in
  let '(brokerCommission, brokerFeesApplied, totalCosts, newSharesToSell) :=
    iteration c result input sharesToSell in
  (sharesToSell, brokerCommission, brokerFeesApplied, totalCosts, newSharesToSell).

(** The reading of "returns the last computed values": the result holds
    what the last pass computed (the share count the loop ends on). *)
Definition carriesLastValues (input : Input.t) : Prop :=
  let r := Calculate c input in
  let '(_, brokerCommission, brokerFeesApplied, totalCosts, newSharesToSell) :=
    lastPass input in
  Result.SharesToSell r = newSharesToSell /\
  Result.BrokerCommission r = brokerCommission /\
  Result.BrokerFees r = brokerFeesApplied /\
  Result.TotalCosts r = totalCosts.

End Trace.

(** Whole numbers among the representations [(-1)^s * m * 2^e] of the
    binary64 values: a zero, or a mantissa that 2^(-e) divides when the
    exponent is negative. *)
Definition wholeSF (x : spec_float) : bool :=
  match x with
  | S754_zero _ => true
  | S754_finite _ m e => (0 <=? e) || (Zpos m mod 2 ^ (- e) =? 0)
  | S754_infinity _ | S754_nan => false
  end.

Definition finiteSF (x : spec_float) : bool :=
  match x with
  | S754_zero _ | S754_finite _ _ _ => true
  | S754_infinity _ | S754_nan => false
  end.

(** A binary64 value that is a finite whole number. *)
Definition integerValued (x : float) : bool := wholeSF (Prim2SF x).

(** [m * 2^e] is a whole number. *)
Definition wholeZ (m e : Z) : Prop :=
  0 <= e \/ (e < 0 /\ exists k, m = k * 2 ^ (- e)).

(** The shift record of a mantissa with nothing shifted out of it. *)
Definition exactly (m : Z) : shr_record :=
  {| shr_m := m; shr_r := false; shr_s := false |}.

Definition wholeOrSpecial (x : spec_float) : Prop :=
  wholeSF x = true \/ finiteSF x = false.

Definition nonnegWhole (w : spec_float) : Prop :=
  w = S754_zero false \/
  exists m e, w = S754_finite false m e /\ wholeZ (Zpos m) e.

Definition notNegative (w : spec_float) : Prop :=
  match w with
  | S754_finite true _ _ | S754_infinity true => False
  | _ => True
  end.

(** Leibniz inequality of floats, decided on the bit patterns. *)
Definition differ (x y : float) : bool := negb (PrimFloat.Leibniz.eqb x y).

(** Decimal amounts: [k] thousandths and [k] hundredths as the binary64
    values the decimal literals denote (correctly rounded quotients). *)
Definition ofInt (k : Z) : float :=
  if k <? 0 then (- of_uint63 (Uint63.of_Z (- k)))%float
  else of_uint63 (Uint63.of_Z k).

Definition thousandths (k : Z) : float := (ofInt k / 1000)%float.
Definition hundredths (k : Z) : float := (ofInt k / 100)%float.

(** The number of hundredths nearest to [k] thousandths, halves going
    away from zero. *)
Definition nearestHundredth (k : Z) : Z :=
  Z.sgn k * ((Z.abs k + 5) / 10).

(** [math.Round] sends every half [n + 0.5], [0 <= n < bound], to
    [n + 1], and its negation to [-(n + 1)]. *)
Definition halvesAwayFromZero (bound : nat) : bool :=
  forallb
    (fun n =>
       let h := (ofInt (Z.of_nat n) + 0.5)%float in
       PrimFloat.Leibniz.eqb (GoMath.Round h) (ofInt (Z.of_nat n + 1)) &&
       PrimFloat.Leibniz.eqb (GoMath.Round (- h)) (ofInt (- (Z.of_nat n + 1))))
    (seq 0 bound).

(** The row the export would write if every share count, Exercised
    Shares included, were given four decimals. *)
Definition rowSharesAtFour (result : Result.t) : list string :=
  [ GoFmt.Sprintf_f 2 (Result.ExercisePrice result);
    GoFmt.Sprintf_f 4 (Result.ExercisedShares result);
    GoFmt.Sprintf_f 2 (Result.FMV result);
    GoFmt.Sprintf_f 4 (Result.SharesToSell result);
    GoFmt.Sprintf_f 4 (Result.NetShares result);
    GoFmt.Sprintf_f 2 (Result.TotalCosts result);
    GoFmt.Sprintf_f 2 (Result.EstGrossProceeds result);
    GoFmt.Sprintf_f 2 (Result.TaxableGain result);
    GoFmt.Sprintf_f 2 (Result.TotalTax result);
    GoFmt.Sprintf_f 2 (Result.OptionCost result);
    GoFmt.Sprintf_f 2 (Result.BrokerFees result) ].

(** The number of characters after the first point of a string. *)
Fixpoint decimals (s : string) : option nat :=
  match s with
  | EmptyString => None
  | String a rest =>
      if Ascii.eqb a "." then Some (String.length rest) else decimals rest
  end.

(** No point among the characters of a string. *)
Fixpoint noPoint (s : string) : bool :=
  match s with
  | EmptyString => true
  | String a rest => negb (Ascii.eqb a ".") && noPoint rest
  end.

Definition isFinite (x : float) : bool := finiteSF (Prim2SF x).

(** Sample configurations and inputs. *)
Definition flatFeeCalculator : Calculator.t :=
  NewCalculator
    (Config.mk (TaxRates.mk 0.22 0.0145 0.062 0 0) (BrokerFees.mk 0.03 25 5)).

Definition specExample : Input.t := Input.mk 10 100 50.
Definition pennyStock : Input.t := Input.mk 0.01 100 0.02.
Definition pennyRelease : RSUInput.t := RSUInput.mk 100 0.02 0.02.
Definition hugeExercise : Input.t := Input.mk 1e300 1e10 1e300.
Definition tenthOfAShare : Input.t := Input.mk 10 0.1 50.
Definition release : RSUInput.t := RSUInput.mk 100 50 50.

(** ** The printed result, batch summaries and the window *)


(** String returns a formatted string representation of the result *)
Definition Result_String (r : Result.t) : string :=
  "STC Result: " ++ GoFmt.Sprintf_f 4 (Result.SharesToSell r)
  ++ " shares to sell, $"
  ++ GoFmt.Sprintf_f 2 (Result.EstGrossProceeds r - Result.TotalCosts r)
  ++ " net proceeds, " ++ GoFmt.Sprintf_f 4 (Result.NetShares r)
  ++ " net shares remaining".

(** Summary provides aggregate statistics for a batch of results *)
Module Summary.
Record t : Set := mk {
  TotalExercisedShares : float;
  TotalSharesToSell : float;
  TotalNetShares : float;
  TotalCosts : float;
  TotalTaxes : float;
  TotalBrokerFees : float;
  AverageFMV : float;
  Count : Z
}.

(** The zero value [Summary{}]. *)
Definition zero : t := mk 0%float 0%float 0%float 0%float 0%float 0%float 0%float 0.
End Summary.

(** The body of the [for _, result := range br.Results] loop of
    Summarize. *)
Definition accumulate (summary : Summary.t) (result : Result.t) : Summary.t :=
  Summary.mk
    (Summary.TotalExercisedShares summary + Result.ExercisedShares result)
    (Summary.TotalSharesToSell summary + Result.SharesToSell result)
    (Summary.TotalNetShares summary + Result.NetShares result)
    (Summary.TotalCosts summary + Result.TotalCosts result)
    (Summary.TotalTaxes summary + Result.TotalTax result)
    (Summary.TotalBrokerFees summary + Result.BrokerFees result)
    (Summary.AverageFMV summary + Result.FMV result)
    (Summary.Count summary).

(** Summarize generates aggregate statistics from batch results *)
Definition Summarize (results : list Result.t) : Summary.t :=
  match results with
  | [] => Summary.zero
  | _ :: _ =>
      let summary :=
        Summary.mk 0%float 0%float 0%float 0%float 0%float 0%float 0%float
          (Z.of_nat (List.length results)) in
      let summary := fold_left accumulate results summary in
      Summary.mk
        (Summary.TotalExercisedShares summary)
        (Summary.TotalSharesToSell summary)
        (Summary.TotalNetShares summary)
        (Summary.TotalCosts summary)
        (Summary.TotalTaxes summary)
        (Summary.TotalBrokerFees summary)
        (Summary.AverageFMV summary / ofInt (Summary.Count summary))
        (Summary.Count summary)
  end.


(** The exercise tab of the window: the texts of its entries and of the
    labels it writes its results to. *)
Module STCTab.

Record Entries : Set := mkEntries {
  exSharesEntry : string;
  exPriceEntry : string;
  fmvEntry : string;
  fedTaxEntry : string;
  medTaxEntry : string;
  ssTaxEntry : string;
  stateTaxEntry : string;
  localTaxEntry : string;
  commRateEntry : string;
  minFeeEntry : string
}.

Record Labels : Set := mkLabels {
  lblNetShares : string;
  lblResidual : string;
  lblSharesSold : string;
  lblTotalCost : string;
  lblGrossProceeds : string;
  lblTaxes : string;
  lblFees : string
}.

End STCTab.

Section Window.

(** [strconv.ParseFloat(s, 64)]. *)
Variable ParseFloat : string -> float * option error.

(** The shared helper of the tabs: an empty entry reads as 0. *)
Definition parseFloat (s : string) : float * option error :=
  if String.eqb s "" then (0%float, None) else ParseFloat s.

(** The handler [calculateFunc] of makeSTCTab.  It reads the entries and
    either shows an error dialog, whose message is returned, or writes
    the labels. *)
Definition calculateFunc (entries : STCTab.Entries) (labels : STCTab.Labels)
  : option string * STCTab.Labels :=
  let '(exPrice, err1) := parseFloat (STCTab.exPriceEntry entries) in
  let '(fmv, err3) := parseFloat (STCTab.fmvEntry entries) in
  let '(exShares, err2) := parseFloat (STCTab.exSharesEntry entries) in
  let fed := fst (parseFloat (STCTab.fedTaxEntry entries)) in
  let med := fst (parseFloat (STCTab.medTaxEntry entries)) in
  let ss := fst (parseFloat (STCTab.ssTaxEntry entries)) in
  let state := fst (parseFloat (STCTab.stateTaxEntry entries)) in
  let local := fst (parseFloat (STCTab.localTaxEntry entries)) in
  let comm := fst (parseFloat (STCTab.commRateEntry entries)) in
  let minFee := fst (parseFloat (STCTab.minFeeEntry entries)) in
  match err1, err2, err3 with
  | None, None, None =>
      if (exPrice <=? 0)%float || (exShares <=? 0)%float || (fmv <=? 0)%float then
        (Some "Price, Shares, and FMV must be greater than 0", labels)
      else
        let config :=
          Config.mk (TaxRates.mk fed med ss state local)
                    (BrokerFees.mk comm minFee 0%float) in
        let calculator := NewCalculator config in
        let input := Input.mk exPrice exShares fmv in
        let result := Calculate calculator input in
        (None,
         STCTab.mkLabels
           (GoFmt.Sprintf_f 0 (Result.NetShares result))
           ("$" ++ GoFmt.Sprintf_f 2 (Result.Residual result))
           (GoFmt.Sprintf_f 0 (Result.SharesToSell result))
           ("$" ++ GoFmt.Sprintf_f 2 (Result.TotalCosts result))
           ("$" ++ GoFmt.Sprintf_f 2 (Result.EstGrossProceeds result))
           ("$" ++ GoFmt.Sprintf_f 2 (Result.TotalTax result))
           ("$" ++ GoFmt.Sprintf_f 2 (Result.BrokerFees result)))
  | _, _, _ =>
      (Some "Please enter valid numbers for Price, Shares, and FMV", labels)
  end.

End Window.


(** The keys tab of the window: the variables its closures share and the
    texts of its two labels. *)
Module Keys.

Record State : Set := mkState {
  currentNum : string;
  storedNum : float;
  currentOp : string;
  lastWasOp : bool;
  display : string;
  history : string
}.

(** The state makeCalculatorTab starts from. *)
Definition initial : State := mkState "0" 0%float "" false "0" "".

End Keys.

Section Keypad.

(** [strconv.ParseFloat(s, 64)], [fmt.Sprintf("%g", x)] and the
    conversion [float64(int64(x))]. *)
Variable ParseFloat : string -> float * option error.
Variable Sprintf_g : float -> string.
Variable throughInt64 : float -> float.

(** [strings.Contains(s, ".")]. *)
Definition ContainsPoint (s : string) : bool := negb (noPoint s).

Definition updateDisplay (s : Keys.State) : Keys.State :=
  Keys.mkState (Keys.currentNum s) (Keys.storedNum s) (Keys.currentOp s)
    (Keys.lastWasOp s) (Keys.currentNum s) (Keys.history s).

Definition setCurrentNum (text : string) (s : Keys.State) : Keys.State :=
  Keys.mkState text (Keys.storedNum s) (Keys.currentOp s)
    (Keys.lastWasOp s) (Keys.display s) (Keys.history s).

Definition setCurrentOp (op : string) (s : Keys.State) : Keys.State :=
  Keys.mkState (Keys.currentNum s) (Keys.storedNum s) op
    (Keys.lastWasOp s) (Keys.display s) (Keys.history s).

Definition setLastWasOp (b : bool) (s : Keys.State) : Keys.State :=
  Keys.mkState (Keys.currentNum s) (Keys.storedNum s) (Keys.currentOp s)
    b (Keys.display s) (Keys.history s).

Definition setStoredNum (x : float) (s : Keys.State) : Keys.State :=
  Keys.mkState (Keys.currentNum s) x (Keys.currentOp s)
    (Keys.lastWasOp s) (Keys.display s) (Keys.history s).

Definition setHistory (text : string) (s : Keys.State) : Keys.State :=
  Keys.mkState (Keys.currentNum s) (Keys.storedNum s) (Keys.currentOp s)
    (Keys.lastWasOp s) (Keys.display s) text.

(** The end of [calculate]: the result is formatted, the pending
    operator is cleared and the display refreshed. *)
Definition showResult (result : float) (s : Keys.State) : Keys.State :=
  let s :=
    if (result =? throughInt64 result)%float
    then setCurrentNum (GoFmt.Sprintf_f 0 result) s
    else setCurrentNum (Sprintf_g result) s in
  updateDisplay (setCurrentOp "" s).

Definition calculate (s : Keys.State) : Keys.State :=
  if String.eqb (Keys.currentOp s) "" then s
  else
    let val := fst (ParseFloat (Keys.currentNum s)) in
    if String.eqb (Keys.currentOp s) "+" then
      showResult (Keys.storedNum s + val) s
    else if String.eqb (Keys.currentOp s) "-" then
      showResult (Keys.storedNum s - val) s
    else if String.eqb (Keys.currentOp s) "*" then
      showResult (Keys.storedNum s * val) s
    else if String.eqb (Keys.currentOp s) "/" then
      if (val =? 0)%float then updateDisplay (setCurrentNum "Error" s)
      else showResult (Keys.storedNum s / val) s
    else showResult 0 s.

Definition onNum (n : string) (s : Keys.State) : Keys.State :=
  let s :=
    if Keys.lastWasOp s then setLastWasOp false (setCurrentNum "0" s) else s in
  if String.eqb (Keys.currentNum s) "0" && negb (String.eqb n ".") then
    updateDisplay (setCurrentNum n s)
  else if String.eqb n "." && ContainsPoint (Keys.currentNum s) then s
  else updateDisplay (setCurrentNum (Keys.currentNum s ++ n) s).

Definition onOp (op : string) (s : Keys.State) : Keys.State :=
  let s :=
    if negb (String.eqb (Keys.currentOp s) "") && negb (Keys.lastWasOp s)
    then calculate s else s in
  let '(stored, err) := ParseFloat (Keys.currentNum s) in
  let s := setStoredNum stored s in
  let s := match err with Some _ => setCurrentNum "0" s | None => s end in
  let s := setCurrentOp op s in
  let s := setLastWasOp true s in
  setHistory (Sprintf_g (Keys.storedNum s) ++ " " ++ Keys.currentOp s) s.

Definition onClear (s : Keys.State) : Keys.State :=
  updateDisplay (Keys.mkState "0" 0%float "" false (Keys.display s) "").

Definition onEq (s : Keys.State) : Keys.State :=
  setLastWasOp true (calculate (setHistory "" s)).

(** The buttons of the number pad with their actions. *)
Inductive Button : Set :=
| NumButton (n : string)
| OpButton (op : string)
| ClearButton
| EqButton.

Definition tapped (b : Button) (s : Keys.State) : Keys.State :=
  match b with
  | NumButton n => onNum n s
  | OpButton op => onOp op s
  | ClearButton => onClear s
  | EqButton => onEq s
  end.

Definition tappedAll (buttons : list Button) (s : Keys.State) : Keys.State :=
  fold_left (fun s b => tapped b s) buttons s.

End Keypad.

(** ** Further vocabulary *)


(** The whole number [m * 2^e] stands for. *)
Definition shifted (m e : Z) : Z :=
  if 0 <=? e then m * 2 ^ e else m / 2 ^ (- e).

Definition valueSF (x : spec_float) : Z :=
  match x with
  | S754_finite s m e => shifted (cond_Zopp s (Zpos m)) e
  | _ => 0
  end.

(** [m * 2^e] is the whole number [V]. *)
Definition isValue (m e V : Z) : Prop :=
  (0 <= e /\ V = m * 2 ^ e) \/ (e < 0 /\ m = V * 2 ^ (- e)).

Definition hasValue (x : spec_float) (V : Z) : Prop :=
  match x with
  | S754_zero _ => V = 0
  | S754_finite s m e => isValue (cond_Zopp s (Zpos m)) e V
  | S754_infinity _ | S754_nan => False
  end.

(** A whole number of magnitude below 2^52, as share counts are. *)
Definition wholeCount (x : float) : bool :=
  integerValued x && (abs x <? 4503599627370496)%float.


(** The tax rates and the broker fees that a sequence of calls leaves in
    force, given the ones in force before it. *)
Fixpoint ratesAfter (calls : list Call) (rates : TaxRates.t) : TaxRates.t :=
  match calls with
  | [] => rates
  | DoUpdateTaxRates rates' :: rest => ratesAfter rest rates'
  | _ :: rest => ratesAfter rest rates
  end.

Fixpoint feesAfter (calls : list Call) (fees : BrokerFees.t) : BrokerFees.t :=
  match calls with
  | [] => fees
  | DoUpdateBrokerFees fees' :: rest => feesAfter rest fees'
  | _ :: rest => feesAfter rest fees
  end.

(** The tax part of a result. *)
Definition taxPart (r : Result.t) : list float :=
  [ Result.OptionCost r; Result.TaxableGain r; Result.FederalTax r;
    Result.MedicareTax r; Result.SocialSecTax r; Result.StateTax r;
    Result.LocalSDITax r; Result.TotalTax r ].

Definition taxPartRSU (r : RSUResult.t) : list float :=
  [ RSUResult.TaxableGain r; RSUResult.FederalTax r;
    RSUResult.MedicareTax r; RSUResult.SocialSecTax r; RSUResult.StateTax r;
    RSUResult.LocalSDITax r; RSUResult.TotalTax r ].


Section ImportVocabulary.

Variable ParseFloat : string -> float * option error.

(** The input FromCSV builds from the first three fields of a record. *)
Definition parsed (record : list string) : Input.t :=
  Input.mk (fst (ParseFloat (field record 0)))
           (fst (ParseFloat (field record 1)))
           (fst (ParseFloat (field record 2))).

(** The error FromCSV reports for the first of the three fields that
    ParseFloat rejects, if any. *)
Definition fieldError (record : list string) : option error :=
  match snd (ParseFloat (field record 0)) with
  | Some err => Some (Errorf "invalid exercise price" err)
  | None =>
      match snd (ParseFloat (field record 1)) with
      | Some err => Some (Errorf "invalid exercised shares" err)
      | None =>
          match snd (ParseFloat (field record 2)) with
          | Some err => Some (Errorf "invalid FMV" err)
          | None => None
          end
      end
  end.

(** What is wrong with a data row under a header of [width] fields: a
    field count other than the header's, or a field that does not parse. *)
Definition rowFault (width : nat) (record : list string) : option error :=
  if (List.length record =? width)%nat then fieldError record
  else Some (Errorf "failed to read row" ErrFieldCount).

Definition sound (width : nat) (record : list string) : bool :=
  match rowFault width record with
  | None => true
  | Some _ => false
  end.

(** A value that ParseFloat reads back from its [%.2f] rendering. *)
Definition comesBack (v : float) : bool :=
  match ParseFloat (GoFmt.Sprintf_f 2 v) with
  | (v', None) => PrimFloat.Leibniz.eqb v' v
  | (_, Some _) => false
  end.

Definition survives (input : Input.t) : bool :=
  comesBack (Input.ExercisePrice input) &&
  comesBack (Input.ExercisedShares input) &&
  comesBack (Input.FMV input).

(** ParseFloat accepts the [%.2f] rendering of a value. *)
Definition reads (v : float) : bool :=
  match snd (ParseFloat (GoFmt.Sprintf_f 2 v)) with
  | None => true
  | Some _ => false
  end.

Definition readable (r : Result.t) : bool :=
  reads (Result.ExercisePrice r) && reads (Result.ExercisedShares r) &&
  reads (Result.FMV r).

End ImportVocabulary.


(** The input a result was computed from. *)
Definition inputOf (r : Result.t) : Input.t :=
  Input.mk (Result.ExercisePrice r) (Result.ExercisedShares r) (Result.FMV r).

(** The sum the loop of Summarize builds of one field, left to right
    from zero. *)
Definition total (field : Result.t -> float) (results : list Result.t) : float :=
  fold_left (fun sum result => (sum + field result)%float) results 0%float.

(** The whole number a binary64 whole number stands for. *)
Definition countOf (x : float) : Z := valueSF (Prim2SF x).

(** A whole number of magnitude below 2^32. *)
Definition smallCount (x : float) : bool :=
  integerValued x && (Z.abs (countOf x) <? 2 ^ 32).

Definition sumZ (l : list Z) : Z := fold_right Z.add 0 l.


(** An input of whole share counts: the shares exercised and, under the
    calculator [c], the shares sold are whole numbers below 2^32. *)
Definition wholeShares (c : Calculator.t) (input : Input.t) : bool :=
  smallCount (Input.ExercisedShares input) &&
  smallCount (Result.SharesToSell (Calculate c input)).

(** A result whose share counts are whole and whose net shares are their
    difference. *)
Definition settled (r : Result.t) : Prop :=
  smallCount (Result.ExercisedShares r) = true /\
  smallCount (Result.SharesToSell r) = true /\
  Result.NetShares r = (Result.ExercisedShares r - Result.SharesToSell r)%float.

(** Decimal.ParseFloat together with the spelling NaN, which
    strconv.ParseFloat reads as a NaN without an error. *)
Definition parseDecimalOrNaN (s : string) : float * option error :=
  if String.eqb s "NaN" then (nan, None) else Decimal.ParseFloat s.

(** The labels of the pad's number and operator buttons. *)
Definition onPad (b : Button) : bool :=
  match b with
  | NumButton n =>
      existsb (String.eqb n) ["0"; "1"; "2"; "3"; "4"; "5"; "6"; "7"; "8"; "9"; "."]
  | OpButton op => existsb (String.eqb op) ["+"; "-"; "*"; "/"]
  | ClearButton | EqButton => true
  end.

Definition isDigit (a : ascii) : bool :=
  (48 <=? nat_of_ascii a)%nat && (nat_of_ascii a <=? 57)%nat.

Fixpoint digitsOrPoint (s : string) : bool :=
  match s with
  | EmptyString => true
  | String a rest => (isDigit a || Ascii.eqb a ".") && digitsOrPoint rest
  end.

Fixpoint points (s : string) : nat :=
  match s with
  | EmptyString => O
  | String a rest => ((if Ascii.eqb a "." then 1 else 0) + points rest)%nat
  end.

Definition leadingZero (s : string) : bool :=
  match s with
  | String "0" (String a _) => isDigit a
  | _ => false
  end.

(** A number as typed on the pad: digits with at most one point, not
    empty, and no zero in front of another digit. *)
Definition typedNumber (s : string) : bool :=
  digitsOrPoint s && (points s <=? 1)%nat && negb (String.eqb s "")
  && negb (leadingZero s).

(** While a number is being typed the display shows it. *)
Definition typing (s : Keys.State) : Prop :=
  Keys.lastWasOp s = false ->
  Keys.display s = Keys.currentNum s /\ typedNumber (Keys.currentNum s) = true.

(** ** Rounding to a whole number *)

(** The sign bit of a bit pattern. *)
Definition signBits (s : bool) : Z := if s then GoMath.signMask else 0.

(** The whole number nearest to [m * 2^e], halves going up. *)
Definition nearestAway (m : positive) (e : Z) : Z :=
  if 0 <=? e then Zpos m * 2 ^ e
  else (Zpos m + 2 ^ (- e - 1)) / 2 ^ (- e).

(** [y] is the whole number [N] taken with the sign [s]; a zero keeps
    the sign. *)
Definition signedWhole (s : bool) (N : Z) (y : spec_float) : Prop :=
  if N =? 0 then y = S754_zero s else hasValue y (cond_Zopp s N).

(** * Properties *)

(** ** The fixed-point loops *)

Section LoopFacts.

Variable c : Calculator.t.

Lemma solve_fixedPoint (fuel : nat) (input : Input.t) :
  forall (n : float) (result : Result.t),
    solve c fuel input n result =
    match fixedPoint c fuel input n result with
    | Some n' => recorded c input result n'
    | None => result
    end.
Proof.
  induction fuel as [|fuel IH]; intros n result; [reflexivity|].
  cbn [solve fixedPoint]. unfold recorded.
  destruct (iteration c result input n) as [[[comm fee] total] new] eqn:E.
  destruct (new =? n)%float.
  - rewrite E. reflexivity.
  - rewrite IH. reflexivity.
Qed.

Lemma fixedPoint_stable (fuel : nat) (input : Input.t) :
  forall (n n' : float) (result : Result.t),
    fixedPoint c fuel input n result = Some n' ->
    (snd (iteration c result input n') =? n')%float = true.
Proof.
  induction fuel as [|fuel IH]; intros n n' result; [discriminate|].
  cbn [fixedPoint].
  destruct (iteration c result input n) as [[[comm fee] total] new] eqn:E.
  destruct (new =? n)%float eqn:Stable.
  - intros [= <-]. rewrite E. exact Stable.
  - apply IH.
Qed.

Lemma solveRSU_fixedPointRSU (fuel : nat) (input : RSUInput.t) :
  forall (n : float) (result : RSUResult.t),
    solveRSU c fuel input n result =
    match fixedPointRSU c fuel input n result with
    | Some n' => (n', recordedRSU c input result n')
    | None => (sharesAfterRSU c fuel input n result, result)
    end.
Proof.
  induction fuel as [|fuel IH]; intros n result; [reflexivity|].
  cbn [solveRSU fixedPointRSU sharesAfterRSU]. unfold recordedRSU.
  destruct (iterationRSU c result input n) as [[[[gross comm] fees] total] new] eqn:E.
  destruct (new =? n)%float.
  - rewrite E. reflexivity.
  - rewrite IH. reflexivity.
Qed.

Lemma fixedPointRSU_stable (fuel : nat) (input : RSUInput.t) :
  forall (n n' : float) (result : RSUResult.t),
    fixedPointRSU c fuel input n result = Some n' ->
    (snd (iterationRSU c result input n') =? n')%float = true.
Proof.
  induction fuel as [|fuel IH]; intros n n' result; [discriminate|].
  cbn [fixedPointRSU].
  destruct (iterationRSU c result input n) as [[[[gross comm] fees] total] new] eqn:E.
  destruct (new =? n)%float eqn:Stable.
  - intros [= <-]. rewrite E. exact Stable.
  - apply IH.
Qed.

(** Calculate, split on whether the loop stabilised. *)
Lemma Calculate_cases (input : Input.t) :
  Calculate c input =
  finish input
    match stableAt c input with
    | Some n => recorded c input (taxLines c input) n
    | None => taxLines c input
    end.
Proof.
  unfold Calculate, stableAt. rewrite solve_fixedPoint. reflexivity.
Qed.

Lemma CalculateRSU_cases (input : RSUInput.t) :
  CalculateRSU c input =
  match stableAtRSU c input with
  | Some n => finishRSU input n (recordedRSU c input (taxLinesRSU c input) n)
  | None =>
      finishRSU input
        (sharesAfterRSU c maxIterations input
           (initialGuessRSU (taxLinesRSU c input) input) (taxLinesRSU c input))
        (taxLinesRSU c input)
  end.
Proof.
  unfold CalculateRSU, stableAtRSU. rewrite solveRSU_fixedPointRSU.
  destruct (fixedPointRSU _ _ _ _ _); reflexivity.
Qed.

End LoopFacts.

(** Two floats with different bit patterns are different. *)
Lemma differ_neq (x y : float) : differ x y = true -> x <> y.
Proof.
  unfold differ. intros H E.
  apply (proj2 (FloatAxioms.Leibniz.eqb_spec x y)) in E.
  rewrite E in H. discriminate.
Qed.

(** A zero numerator over a positive divisor is zero. *)
Lemma zero_div_positive (x : float) :
  (0 <? x)%float = true -> (0 / x)%float = 0%float.
Proof.
  intros H. apply Prim2SF_inj. rewrite div_spec. rewrite ltb_spec in H.
  destruct (Prim2SF x) as [s|s| |s m e]; cbn in *;
    try discriminate; destruct s; try discriminate; reflexivity.
Qed.


(** Reads a field off a result built by the solvers: the record
    assignments are reduced, the arithmetic is left alone. *)
Ltac project :=
  lazy -[GoMath.Max GoMath.Ceil GoMath.Round roundMoney]; reflexivity.

Lemma stableAt_eq (c : Calculator.t) (input : Input.t) :
  stableAt c input =
  fixedPoint c maxIterations input
    (initialGuess c (taxLines c input) input) (taxLines c input).
Proof. reflexivity. Qed.

Lemma stableAtRSU_eq (c : Calculator.t) (input : RSUInput.t) :
  stableAtRSU c input =
  fixedPointRSU c maxIterations input
    (initialGuessRSU (taxLinesRSU c input) input) (taxLinesRSU c input).
Proof. reflexivity. Qed.

(** ** Option exercise: flat fee and total costs *)

(** On a stable pass the recorded total is cost basis plus total tax plus
    the applied fee; the flat fee of the configuration is no part of it. *)
Lemma Calculate_stable_total (c : Calculator.t) (input : Input.t) (n : float) :
  stableAt c input = Some n ->
  let r := Calculate c input in
  let fees := Config.BrokerFees (Calculator.config c) in
  Result.SharesToSell r = n /\
  Result.BrokerCommission r = (n * BrokerFees.CommissionRate fees)%float /\
  Result.BrokerFees r =
    GoMath.Max (n * BrokerFees.CommissionRate fees) (BrokerFees.MinimumFee fees) /\
  Result.TotalCosts r =
    (Result.OptionCost r + Result.TotalTax r
     + GoMath.Max (n * BrokerFees.CommissionRate fees) (BrokerFees.MinimumFee fees))%float.
Proof.
  intros Stable. cbv zeta. rewrite Calculate_cases, Stable.
  repeat apply conj; project.
Qed.

(** C1: with a flat fee of 5.00 on the spec's example (price 10, 100
    shares, FMV 50, default rates) Calculate stabilises at 45 shares and
    records TotalCosts 2211.00, which is cost basis + total tax + applied
    fee; the flat fee only raised the seed.  The claimed
    optionCost + totalTax + flatFee + max(n * rate, minimumFee) is
    2216.00. *)
Theorem C1_flat_fee_missing_from_total :
  let r := Calculate flatFeeCalculator specExample in
  stableAt flatFeeCalculator specExample = Some 45%float /\
  baseLiability flatFeeCalculator (taxLines flatFeeCalculator specExample) = 2191%float /\
  Result.TotalCosts r = 2211%float /\
  Result.TotalCosts r =
    (Result.OptionCost r + Result.TotalTax r + GoMath.Max (45 * 0.03) 25)%float /\
  (Result.OptionCost r + Result.TotalTax r + 5 + GoMath.Max (45 * 0.03) 25)%float
    = 2216%float /\
  Result.TotalCosts r <>
    (Result.OptionCost r + Result.TotalTax r + 5 + GoMath.Max (45 * 0.03) 25)%float.
Proof.
  cbv zeta. repeat apply conj; try (vm_compute; reflexivity).
  apply differ_neq. vm_compute. reflexivity.
Qed.

(** ** No fixed point within 100 iterations *)

(** C2 (as stated) fails: on the penny stock (price 0.01, 100 shares,
    FMV 0.02, default configuration) no pass is stable and the result
    does not hold the values of the last pass. *)
Lemma C2_last_values_not_returned :
  stableAt NewDefaultCalculator pennyStock = None /\
  ~ carriesLastValues NewDefaultCalculator pennyStock.
Proof.
  split; [vm_compute; reflexivity|].
  unfold carriesLastValues.
  destruct (lastPass NewDefaultCalculator pennyStock)
    as [[[[n comm] fee] total] new] eqn:E.
  intros (_ & _ & _ & H).
  assert (T : total = snd (fst (lastPass NewDefaultCalculator pennyStock)))
    by (rewrite E; reflexivity).
  rewrite T in H. revert H. apply differ_neq. vm_compute. reflexivity.
Qed.

(** C2 (amended): when no pass is stable the loop writes nothing.
    Calculate returns SharesToSell, BrokerCommission, BrokerFees and
    TotalCosts at their zero value, with the closing lines computed from
    those zeros; CalculateRSU likewise, except that its Residual is taken
    from the share count the loop ended on. *)
Theorem C2_no_fixed_point_leaves_zero_values
    (c : Calculator.t) (input : Input.t) (rsu : RSUInput.t) :
  (stableAt c input = None ->
   let r := Calculate c input in
   Result.SharesToSell r = 0%float /\
   Result.BrokerCommission r = 0%float /\
   Result.BrokerFees r = 0%float /\
   Result.TotalCosts r = 0%float /\
   Result.EstGrossProceeds r = (0 * Input.FMV input)%float /\
   Result.Residual r = (0 * Input.FMV input - 0)%float /\
   Result.NetShares r = (Input.ExercisedShares input - 0)%float) /\
  (stableAtRSU c rsu = None ->
   let r := CalculateRSU c rsu in
   let last :=
     sharesAfterRSU c maxIterations rsu
       (initialGuessRSU (taxLinesRSU c rsu) rsu) (taxLinesRSU c rsu) in
   RSUResult.SharesToSell r = 0%float /\
   RSUResult.BrokerCommission r = 0%float /\
   RSUResult.FlatFee r = 0%float /\
   RSUResult.TotalFees r = 0%float /\
   RSUResult.TotalCosts r = 0%float /\
   RSUResult.EstGrossProceeds r = 0%float /\
   RSUResult.Residual r = (last * RSUInput.SalePrice rsu - 0)%float /\
   RSUResult.NetShares r = (RSUInput.SharesReleased rsu - 0)%float).
Proof.
  split; intros Unstable; cbv zeta.
  - rewrite Calculate_cases, Unstable. repeat apply conj; project.
  - rewrite CalculateRSU_cases, Unstable. repeat apply conj; project.
Qed.

Lemma C2_no_fixed_point_witness :
  Result.TotalCosts (Calculate NewDefaultCalculator pennyStock) = 0%float /\
  RSUResult.TotalCosts (CalculateRSU NewDefaultCalculator pennyRelease) = 0%float.
Proof.
  destruct (C2_no_fixed_point_leaves_zero_values
              NewDefaultCalculator pennyStock pennyRelease) as [Opt Rsu].
  split.
  - apply Opt. vm_compute. reflexivity.
  - apply Rsu. vm_compute. reflexivity.
Defined.

(** ** The worked example *)

(** C4: price 10.00, 100 shares, FMV 50.00 under the default
    configuration gives OptionCost 1000, TaxableGain 4000, TotalTax 1186,
    SharesToSell 45, TotalCosts 2211, EstGrossProceeds 2250, Residual 39
    and NetShares 55, each exactly. *)
Theorem C4_worked_example :
  let c :=
    NewCalculator
      (Config.mk (TaxRates.mk 0.22 0.0145 0.062 0 0) (BrokerFees.mk 0.03 25.00 0)) in
  let r := Calculate c (Input.mk 10.00 100 50.00) in
  Result.OptionCost r = 1000.00%float /\
  Result.TaxableGain r = 4000.00%float /\
  Result.TotalTax r = 1186.00%float /\
  Result.SharesToSell r = 45%float /\
  Result.TotalCosts r = 2211.00%float /\
  Result.EstGrossProceeds r = 2250.00%float /\
  Result.Residual r = 39.00%float /\
  Result.NetShares r = 55%float.
Proof.
  cbv zeta. repeat apply conj; vm_compute; reflexivity.
Qed.

(** ** RSU release *)

(** The new share count of a pass is the ceiling of its liability over
    the sale price, and a stable pass records that liability. *)
Lemma iterationRSU_new (c : Calculator.t) (result : RSUResult.t)
    (input : RSUInput.t) (n : float) :
  snd (iterationRSU c result input n) =
  GoMath.Ceil (snd (fst (iterationRSU c result input n)) / RSUInput.SalePrice input).
Proof. reflexivity. Qed.

Lemma recordedRSU_total (c : Calculator.t) (result : RSUResult.t)
    (input : RSUInput.t) (n : float) :
  RSUResult.TotalCosts (finishRSU input n (recordedRSU c input result n)) =
  snd (fst (iterationRSU c result input n)).
Proof. project. Qed.

(** C5: at the fixed point n that CalculateRSU records, EstGrossProceeds
    is (sharesReleased - n) * salePrice, TotalCosts is
    totalTax + (max(n * commissionRate, minimumFee) + flatFee), and the
    Residual is n * salePrice - TotalCosts; every pass, stable or not,
    computes its liability by that same formula, flat fee included. *)
Theorem C5_rsu_fixed_point (c : Calculator.t) (input : RSUInput.t) (n : float) :
  stableAtRSU c input = Some n ->
  let r := CalculateRSU c input in
  let fees := Config.BrokerFees (Calculator.config c) in
  let liability (k : float) :=
    (RSUResult.TotalTax r
     + (GoMath.Max (k * BrokerFees.CommissionRate fees) (BrokerFees.MinimumFee fees)
        + BrokerFees.FlatFee fees))%float in
  RSUResult.SharesToSell r = n /\
  RSUResult.EstGrossProceeds r =
    ((RSUInput.SharesReleased input - n) * RSUInput.SalePrice input)%float /\
  RSUResult.TotalCosts r = liability n /\
  (GoMath.Ceil (RSUResult.TotalCosts r / RSUInput.SalePrice input) =? n)%float = true /\
  RSUResult.Residual r = (n * RSUInput.SalePrice input - RSUResult.TotalCosts r)%float /\
  (forall k : float,
     snd (fst (iterationRSU c (taxLinesRSU c input) input k)) = liability k).
Proof.
  intros Stable. cbv zeta. rewrite CalculateRSU_cases, Stable.
  repeat apply conj; try project.
  rewrite recordedRSU_total, <- iterationRSU_new.
  rewrite stableAtRSU_eq in Stable.
  exact (fixedPointRSU_stable c _ _ _ _ _ Stable).
Qed.

Lemma C5_rsu_fixed_point_witness :
  stableAtRSU flatFeeCalculator release = Some 31%float /\
  RSUResult.SharesToSell (CalculateRSU flatFeeCalculator release) = 31%float.
Proof.
  assert (Stable : stableAtRSU flatFeeCalculator release = Some 31%float)
    by (vm_compute; reflexivity).
  split; [exact Stable|].
  pose proof (C5_rsu_fixed_point flatFeeCalculator release 31%float Stable) as Facts.
  cbv zeta in Facts. destruct Facts as (Sell & _). exact Sell.
Defined.

(** ** Binary64 arithmetic on whole numbers

    What the checks of the solvers rest on: sums of whole numbers are
    whole, the integral part that Modf cuts out of the bit pattern is
    whole, and so Floor and Ceil return whole numbers (or pass an
    infinity or NaN through). *)
Module Binary64.

Import GoMath.

Lemma pow2_succ (d : Z) : 0 <= d -> 2 ^ (d + 1) = 2 * 2 ^ d.
Proof. intros H. rewrite Z.pow_add_r by lia. lia. Qed.

Lemma digits2_pos_bounds (m : positive) :
  2 ^ (Zpos (digits2_pos m) - 1) <= Zpos m < 2 ^ Zpos (digits2_pos m).
Proof.
  induction m as [m IH|m IH|]; cbn [digits2_pos]; [| |cbn; lia].
  all: rewrite Pos2Z.inj_succ;
    replace (Z.succ (Zpos (digits2_pos m)) - 1) with (Zpos (digits2_pos m) - 1 + 1) by lia;
    replace (Z.succ (Zpos (digits2_pos m))) with (Zpos (digits2_pos m) + 1) by lia;
    rewrite !pow2_succ by lia;
    replace (2 ^ Zpos (digits2_pos m)) with (2 * 2 ^ (Zpos (digits2_pos m) - 1)) in *
      by (rewrite <- pow2_succ by lia; f_equal; lia);
    lia.
Qed.

Lemma finite_bounds (x : float) (s : bool) (m : positive) (e : Z) :
  Prim2SF x = S754_finite s m e ->
  -1074 <= e <= 971 /\ Zpos m < 2 ^ 53 /\ (-1074 < e -> 2 ^ 52 <= Zpos m).
Proof.
  intros Shape. pose proof (Prim2SF_valid x) as Valid. rewrite Shape in Valid.
  unfold SpecFloat.valid_binary, bounded, canonical_mantissa, fexp, emin in Valid.
  apply andb_prop in Valid. destruct Valid as [Canon Top].
  apply Z.eqb_eq in Canon. apply Z.leb_le in Top.
  change prec with 53 in *. change emax with 1024 in *.
  pose proof (digits2_pos_bounds m) as [Low High].
  set (d := Zpos (digits2_pos m)) in *.
  assert (d <= 53) by lia.
  assert (Zpos m < 2 ^ 53).
  { apply Z.lt_le_trans with (2 ^ d); [exact High|].
    apply Z.pow_le_mono_r; lia. }
  repeat split; try lia.
  intros Normal. assert (d = 53) as D by lia. rewrite D in Low. exact Low.
Qed.





Lemma wholeSF_finite (s : bool) (m : positive) (e : Z) :
  wholeZ (Zpos m) e -> wholeSF (S754_finite s m e) = true.
Proof.
  intros [Up|[Down [k K]]]; cbn [wholeSF]; apply orb_true_iff.
  - left. apply Z.leb_le. exact Up.
  - right.
    apply Z.eqb_eq. rewrite K. apply Z.mod_mul.
    apply Z.pow_nonzero; lia.
Qed.

Lemma wholeSF_finite_inv (s : bool) (m : positive) (e : Z) :
  wholeSF (S754_finite s m e) = true -> wholeZ (Zpos m) e.
Proof.
  cbn [wholeSF]. intros W. apply orb_true_iff in W. destruct W as [Up|Div].
  - left. apply Z.leb_le. exact Up.
  - destruct (Z.leb_spec 0 e) as [Up|Down]; [left; exact Up|right].
    split; [exact Down|].
    apply Z.eqb_eq in Div. exists (Zpos m / 2 ^ (- e)).
    pose proof (Z.div_mod (Zpos m) (2 ^ (- e))) as DM.
    assert (2 ^ (- e) <> 0) by (apply Z.pow_nonzero; lia).
    specialize (DM H). lia.
Qed.

Lemma iter_pos_nat {A : Type} (f : A -> A) (p : positive) :
  forall x : A, iter_pos f p x = Nat.iter (Pos.to_nat p) f x.
Proof.
  induction p as [p IH|p IH|]; intros x; cbn [iter_pos].
  - rewrite !IH. rewrite Pos2Nat.inj_xI.
    replace (S (2 * Pos.to_nat p)) with (Pos.to_nat p + (Pos.to_nat p + 1))%nat by lia.
    rewrite !Nat.iter_add. reflexivity.
  - rewrite !IH. rewrite Pos2Nat.inj_xO.
    replace (2 * Pos.to_nat p)%nat with (Pos.to_nat p + Pos.to_nat p)%nat by lia.
    rewrite Nat.iter_add. reflexivity.
  - reflexivity.
Qed.

Lemma shr_1_exact (m : Z) : shr_1 (exactly (2 * m)) = exactly m.
Proof. destruct m; reflexivity. Qed.

Lemma iter_shr_1_exact (n : nat) :
  forall m : Z, Nat.iter n shr_1 (exactly (m * 2 ^ Z.of_nat n)) = exactly m.
Proof.
  induction n as [|n IH]; intros m.
  - cbn. f_equal. lia.
  - rewrite Nat.iter_succ. rewrite Nat2Z.inj_succ, Z.pow_succ_r by lia.
    replace (m * (2 * 2 ^ Z.of_nat n)) with ((2 * m) * 2 ^ Z.of_nat n) by lia.
    rewrite IH. apply shr_1_exact.
Qed.

(** Shifting a whole number right keeps it whole, and exact as long as
    the exponent stays negative. *)
Lemma shr_whole (m e n : Z) :
  wholeZ m e ->
  e <= snd (shr (exactly m) e n) /\
  (0 <= snd (shr (exactly m) e n) \/
   exists m', fst (shr (exactly m) e n) = exactly m' /\
              wholeZ m' (snd (shr (exactly m) e n))).
Proof.
  intros W. unfold shr. destruct n as [|p|p]; cbn [fst snd].
  - split; [lia|]. destruct W as [Up|K]; [left; exact Up|].
    right. exists m. split; [reflexivity|right; exact K].
  - split; [lia|]. destruct (Z.leb_spec 0 (e + Zpos p)) as [Up|Down]; [left; exact Up|].
    right. destruct W as [Up|[_ [k K]]]; [lia|].
    exists (k * 2 ^ (- (e + Zpos p))). split.
    + rewrite iter_pos_nat. rewrite K.
      replace (2 ^ (- e)) with (2 ^ (- (e + Zpos p)) * 2 ^ Z.of_nat (Pos.to_nat p)).
      * rewrite Z.mul_assoc. apply iter_shr_1_exact.
      * rewrite <- Z.pow_add_r by lia. f_equal. lia.
    + right. split; [exact Down|]. exists k. reflexivity.
  - split; [lia|]. destruct W as [Up|K]; [left; exact Up|].
    right. exists m. split; [reflexivity|right; exact K].
Qed.


Lemma binary_round_aux_whole (sx : bool) (mx ex : Z) :
  wholeZ mx ex ->
  wholeOrSpecial (binary_round_aux prec emax sx mx ex loc_Exact).
Proof.
  intros W. unfold binary_round_aux, shr_fexp.
  change (shr_record_of_loc mx loc_Exact) with (exactly mx).
  set (n1 := fexp prec emax (Zdigits2 mx + ex) - ex).
  destruct (shr_whole mx ex n1 W) as [Mono1 Shape1].
  destruct (shr (exactly mx) ex n1) as [mrs1 e1]. cbn [fst snd] in *.
  assert (Rest : forall m2, wholeZ m2 e1 ->
    wholeOrSpecial
      (let '(mrs'', e'') :=
         shr (shr_record_of_loc m2 loc_Exact) e1
             (fexp prec emax (Zdigits2 m2 + e1) - e1) in
       match shr_m mrs'' with
       | 0 => S754_zero sx
       | Zpos m => if e'' <=? emax - prec then S754_finite sx m e'' else S754_infinity sx
       | Zneg _ => S754_nan
       end)).
  { intros m2 W2. change (shr_record_of_loc m2 loc_Exact) with (exactly m2).
    set (n2 := fexp prec emax (Zdigits2 m2 + e1) - e1).
    destruct (shr_whole m2 e1 n2 W2) as [Mono2 Shape2].
    destruct (shr (exactly m2) e1 n2) as [mrs2 e2]. cbn [fst snd] in *.
    destruct (shr_m mrs2) as [|m|m] eqn:M.
    - left. reflexivity.
    - destruct (e2 <=? emax - prec); [|right; reflexivity].
      left. apply wholeSF_finite.
      destruct Shape2 as [Up|(m' & Exact & W')]; [left; exact Up|].
      rewrite Exact in M. cbn in M. subst m'. exact W'.
    - right. reflexivity. }
  destruct Shape1 as [Up|(m1 & Exact1 & W1)].
  - apply Rest. left. exact Up.
  - rewrite Exact1. cbn [exactly loc_of_shr_record shr_m round_nearest_even].
    apply Rest. exact W1.
Qed.

Lemma iter_xO (d : positive) (m : positive) :
  Zpos (Pos.iter xO m d) = Zpos m * 2 ^ Zpos d.
Proof.
  induction d as [|d IH] using Pos.peano_ind.
  - cbn. lia.
  - rewrite Pos.iter_succ. rewrite Pos2Z.inj_xO, IH.
    rewrite Pos2Z.inj_succ, Z.pow_succ_r by lia. lia.
Qed.

Lemma shl_align_whole (mx : positive) (ex ex' : Z) :
  wholeZ (Zpos mx) ex ->
  wholeZ (Zpos (fst (shl_align mx ex ex'))) (snd (shl_align mx ex ex')).
Proof.
  intros W. unfold shl_align. destruct (ex' - ex) as [|d|d] eqn:D; cbn [fst snd]; try exact W.
  rewrite iter_xO. pose proof (Pos2Z.opp_pos d) as Neg.
  destruct (Z.leb_spec 0 ex') as [Up|Down]; [left; exact Up|right].
  split; [exact Down|].
  destruct W as [Up|[Low [k K]]].
  - exists (Zpos mx * 2 ^ ex).
    rewrite <- Z.mul_assoc, <- (Z.pow_add_r 2 ex (- ex')) by lia.
    f_equal. f_equal. lia.
  - exists k. rewrite K.
    rewrite <- !Z.mul_assoc, <- (Z.pow_add_r 2 (- ex) (Zpos d)) by lia.
    f_equal. f_equal. lia.
Qed.

Lemma binary_round_whole (sx : bool) (mx : positive) (ex : Z) :
  wholeZ (Zpos mx) ex ->
  wholeOrSpecial (binary_round prec emax sx mx ex).
Proof.
  intros W. unfold binary_round.
  pose proof (shl_align_whole mx ex (fexp prec emax (Zpos (digits2_pos mx) + ex)) W) as W'.
  destruct (shl_align mx ex (fexp prec emax (Zpos (digits2_pos mx) + ex))) as [mz ez].
  apply binary_round_aux_whole. exact W'.
Qed.

Lemma binary_normalize_whole (m e : Z) (szero : bool) :
  wholeZ m e -> wholeOrSpecial (binary_normalize prec emax m e szero).
Proof.
  intros W. unfold binary_normalize. destruct m as [|p|p].
  - left. reflexivity.
  - apply binary_round_whole. exact W.
  - apply binary_round_whole. destruct W as [Up|[Down [k K]]]; [left; exact Up|right].
    split; [exact Down|]. exists (- k). lia.
Qed.

Lemma shl_align_snd (mx : positive) (ex ex' : Z) :
  ex' <= ex -> snd (shl_align mx ex ex') = ex'.
Proof.
  intros Le. unfold shl_align. destruct (ex' - ex) as [|d|d] eqn:D; cbn [snd]; lia.
Qed.

Lemma signed_sum_whole (s1 s2 : bool) (a b e : Z) :
  wholeZ a e -> wholeZ b e ->
  wholeZ (cond_Zopp s1 a + cond_Zopp s2 b) e /\
  wholeZ (cond_Zopp s1 a - cond_Zopp s2 b) e.
Proof.
  intros [Up|[Down [k1 K1]]] Wb; [split; left; exact Up|].
  destruct Wb as [Up|[_ [k2 K2]]]; [lia|].
  split; right; (split; [exact Down|]).
  - exists (cond_Zopp s1 k1 + cond_Zopp s2 k2).
    destruct s1, s2; cbn [cond_Zopp]; rewrite K1, K2; ring.
  - exists (cond_Zopp s1 k1 - cond_Zopp s2 k2).
    destruct s1, s2; cbn [cond_Zopp]; rewrite K1, K2; ring.
Qed.

Lemma aligned_whole (m : positive) (e ez : Z) :
  ez <= e -> wholeZ (Zpos m) e -> wholeZ (Zpos (fst (shl_align m e ez))) ez.
Proof.
  intros Le W. pose proof (shl_align_whole m e ez W) as W'.
  rewrite (shl_align_snd m e ez Le) in W'. exact W'.
Qed.

(** Sums and differences of whole numbers are whole, unless they leave
    the finite range. *)
Lemma SFadd_whole (x y : spec_float) :
  wholeSF x = true -> wholeSF y = true ->
  wholeOrSpecial (SFadd prec emax x y).
Proof.
  destruct x as [sx|sx| |sx mx ex]; try discriminate;
    destruct y as [sy|sy| |sy my ey]; try discriminate; intros Wx Wy.
  - left. cbn. destruct sx, sy; reflexivity.
  - left. exact Wy.
  - left. exact Wx.
  - cbn [SFadd]. apply binary_normalize_whole.
    apply signed_sum_whole; apply aligned_whole;
      try lia; apply wholeSF_finite_inv with (s := false); assumption.
Qed.

Lemma SFsub_whole (x y : spec_float) :
  wholeSF x = true -> wholeSF y = true ->
  wholeOrSpecial (SFsub prec emax x y).
Proof.
  destruct x as [sx|sx| |sx mx ex]; try discriminate;
    destruct y as [sy|sy| |sy my ey]; try discriminate; intros Wx Wy.
  - left. cbn. destruct sx, sy; reflexivity.
  - left. exact Wy.
  - left. exact Wx.
  - cbn [SFsub]. apply binary_normalize_whole.
    apply signed_sum_whole; apply aligned_whole;
      try lia; apply wholeSF_finite_inv with (s := false); assumption.
Qed.

(** ** Bit patterns of normal numbers *)


Lemma digits_53 (p : positive) :
  2 ^ 52 <= Zpos p < 2 ^ 53 -> digits2_pos p = 53%positive.
Proof.
  intros [Low High]. pose proof (digits2_pos_bounds p) as [L H].
  set (d := Zpos (digits2_pos p)) in *.
  assert (d = 53).
  { destruct (Z.lt_trichotomy d 53) as [Lt|[Eq|Gt]]; [|exact Eq|].
    - assert (2 ^ d <= 2 ^ 52) by (apply Z.pow_le_mono_r; lia). lia.
    - assert (2 ^ 53 <= 2 ^ (d - 1)) by (apply Z.pow_le_mono_r; lia). lia. }
  subst d. congruence.
Qed.

Lemma normal_valid (s : bool) (p : positive) (e : Z) :
  2 ^ 52 <= Zpos p < 2 ^ 53 -> -1074 <= e <= 971 ->
  Prim2SF (SF2Prim (S754_finite s p e)) = S754_finite s p e.
Proof.
  intros Size Range. apply Prim2SF_SF2Prim.
  unfold SpecFloat.valid_binary, bounded, canonical_mantissa, fexp, emin.
  rewrite (digits_53 p Size). change prec with 53. change emax with 1024.
  apply andb_true_intro. split; [apply Z.eqb_eq|apply Z.leb_le]; lia.
Qed.

Lemma bits_normal (x : float) (m : positive) (e : Z) :
  Prim2SF x = S754_finite false m e -> 2 ^ 52 <= Zpos m ->
  Float64bits x = (e + 1075) * 2 ^ 52 + (Zpos m - 2 ^ 52).
Proof.
  intros Shape Normal. unfold Float64bits. rewrite Shape.
  change shift with 52. change bias with 1023.
  destruct (Z.ltb_spec (Zpos m) (2 ^ 52)) as [Sub|_]; [lia|].
  rewrite Z.shiftl_mul_pow2 by lia. lia.
Qed.

Lemma field_split (E f : Z) :
  0 <= E -> 0 <= f < 2 ^ 52 ->
  Z.shiftr (E * 2 ^ 52 + f) 52 = E /\ Z.land (E * 2 ^ 52 + f) fracMask = f.
Proof.
  intros PosE Frac. split.
  - rewrite Z.shiftr_div_pow2 by lia.
    rewrite Z.div_add_l by lia. rewrite Z.div_small by lia. lia.
  - change fracMask with (Z.ones 52). rewrite Z.land_ones by lia.
    rewrite Z.add_comm, Z.mod_add by lia. apply Z.mod_small. exact Frac.
Qed.

Lemma exponent_field (E : Z) : 0 <= E < 2048 -> Z.land E mask = E.
Proof.
  intros Range. change mask with (Z.ones 11). rewrite Z.land_ones by lia.
  apply Z.mod_small. change (2 ^ 11) with 2048. lia.
Qed.

Lemma sign_clear (b : Z) : 0 <= b < 2 ^ 63 -> Z.testbit b 63 = false.
Proof.
  intros Range. apply Z.testbit_false; [lia|].
  rewrite Z.div_small by lia. reflexivity.
Qed.

Lemma frombits_normal (E f : Z) :
  1 <= E <= 2046 -> 0 <= f < 2 ^ 52 ->
  Float64frombits (E * 2 ^ 52 + f) =
  SF2Prim (S754_finite false (Z.to_pos (f + 2 ^ 52)) (E - 1075)).
Proof.
  intros RangeE RangeF. unfold Float64frombits.
  change shift with 52. change bias with 1023.
  destruct (field_split E f) as [Hi Lo]; [lia|exact RangeF|].
  rewrite Hi, Lo, exponent_field by lia.
  rewrite sign_clear.
  - destruct (Z.eqb_spec E mask) as [Top|_]; [change mask with 2047 in Top; lia|].
    destruct (Z.eqb_spec E 0) as [Bottom|_]; [lia|].
    do 2 f_equal. lia.
  - change (2 ^ 63) with (2048 * 2 ^ 52). nia.
Qed.

Lemma low_bits_cleared (b k : Z) :
  0 <= b < 2 ^ 64 -> 0 <= k ->
  andnot b (Z.shiftl 1 k - 1) = b / 2 ^ k * 2 ^ k.
Proof.
  intros Range K. unfold andnot.
  rewrite Z.shiftl_1_l. change (2 ^ 64 - 1) with (Z.ones 64).
  replace (2 ^ k - 1) with (Z.ones k) by (rewrite Z.ones_equiv; lia).
  rewrite <- Z.shiftl_mul_pow2, <- Z.shiftr_div_pow2 by lia.
  rewrite <- Z.ldiff_ones_r by lia.
  apply Z.bits_inj'. intros n N.
  rewrite Z.land_spec, Z.lxor_spec, Z.ldiff_spec.
  rewrite !Z.testbit_ones_nonneg by lia.
  destruct (Z.ltb_spec n 64) as [In|Out].
  - destruct (n <? k); destruct (Z.testbit b n); reflexivity.
  - assert (Z.testbit b n = false) as ->; [|reflexivity].
    destruct (Z.eq_dec b 0) as [->|NZ]; [apply Z.bits_0|].
    apply Z.bits_above_log2; [lia|].
    apply Z.lt_le_trans with 64; [|exact Out].
    apply Z.log2_lt_pow2; lia.
Qed.

(** ** Comparisons read off the representation *)

Lemma Prim2SF_zero : Prim2SF 0 = S754_zero false.
Proof. reflexivity. Qed.

Lemma Prim2SF_one : Prim2SF 1 = S754_finite false 4503599627370496 (-52).
Proof. reflexivity. Qed.

Lemma Prim2SF_max : Prim2SF MaxFloat64 = S754_finite false 9007199254740991 971.
Proof. reflexivity. Qed.

Lemma Prim2SF_min : Prim2SF (- MaxFloat64) = S754_finite true 9007199254740991 971.
Proof. reflexivity. Qed.

Lemma eqb_zero (y : float) :
  (y =? 0)%float = match Prim2SF y with S754_zero _ => true | _ => false end.
Proof.
  rewrite eqb_spec, Prim2SF_zero.
  destruct (Prim2SF y) as [s|s| |s m e]; try destruct s; reflexivity.
Qed.

Lemma SFeqb_refl (x : spec_float) :
  SFeqb x x = match x with S754_nan => false | _ => true end.
Proof.
  destruct x as [s|s| |s m e]; try destruct s; try reflexivity;
    unfold SFeqb, SFcompare; rewrite Z.compare_refl, Pos.compare_cont_refl; reflexivity.
Qed.

Lemma IsNaN_shape (y : float) :
  IsNaN y = match Prim2SF y with S754_nan => true | _ => false end.
Proof.
  unfold IsNaN. rewrite eqb_spec, SFeqb_refl. destruct (Prim2SF y); reflexivity.
Qed.

Lemma ltb_zero (y : float) :
  (y <? 0)%float =
  match Prim2SF y with
  | S754_finite s _ _ | S754_infinity s => s
  | _ => false
  end.
Proof.
  rewrite ltb_spec, Prim2SF_zero.
  destruct (Prim2SF y) as [s|s| |s m e]; try destruct s; reflexivity.
Qed.

Lemma IsInf_shape (y : float) :
  IsInf y 0 = match Prim2SF y with S754_infinity _ => true | _ => false end.
Proof.
  unfold IsInf. change (0 <=? 0) with true. cbn [andb].
  rewrite !ltb_spec, Prim2SF_max, Prim2SF_min.
  destruct (Prim2SF y) as [s|s| |s m e] eqn:Shape; try destruct s; try reflexivity.
  - destruct (finite_bounds y _ _ _ Shape) as (Range & Size & _).
    unfold SFltb, SFcompare. cbn [orb].
    destruct (Z.compare_spec e 971) as [E|L|G]; try reflexivity; [|lia].
    rewrite Pos.compare_cont_spec. cbn [Pos.switch_Eq].
    destruct (Pos.compare_spec m 9007199254740991) as [_|_|G]; try reflexivity.
    change (2 ^ 53) with 9007199254740992 in Size. lia.
  - destruct (finite_bounds y _ _ _ Shape) as (Range & Size & _).
    unfold SFltb, SFcompare.
    destruct (Z.compare_spec 971 e) as [E|L|G]; try reflexivity; [|lia].
    rewrite Pos.compare_cont_spec. cbn [Pos.switch_Eq].
    destruct (Pos.compare_spec 9007199254740991 m) as [_|L|_]; try reflexivity.
    change (2 ^ 53) with 9007199254740992 in Size. lia.
Qed.

Lemma not_below_one (z : float) (m : positive) (e : Z) :
  Prim2SF z = S754_finite false m e -> (z <? 1)%float = false -> -52 <= e.
Proof.
  intros Shape. rewrite ltb_spec, Prim2SF_one, Shape.
  unfold SFltb, SFcompare.
  destruct (Z.compare_spec e (-52)) as [E|L|G]; try lia; discriminate.
Qed.

(** ** The integral part taken by Modf *)


Lemma clear_low_fraction (E f k : Z) :
  0 <= k <= 52 ->
  (E * 2 ^ 52 + f) / 2 ^ k * 2 ^ k = E * 2 ^ 52 + f / 2 ^ k * 2 ^ k.
Proof.
  intros K. assert (NZ : 2 ^ k <> 0) by (apply Z.pow_nonzero; lia).
  replace (2 ^ 52) with (2 ^ (52 - k) * 2 ^ k)
    by (rewrite <- Z.pow_add_r by lia; f_equal; lia).
  rewrite Z.mul_assoc, Z.div_add_l by exact NZ. ring.
Qed.

Lemma clear_low_mantissa (f k : Z) :
  0 <= k <= 52 ->
  f / 2 ^ k * 2 ^ k + 2 ^ 52 = (f + 2 ^ 52) / 2 ^ k * 2 ^ k.
Proof.
  intros K. assert (NZ : 2 ^ k <> 0) by (apply Z.pow_nonzero; lia).
  replace (2 ^ 52) with (2 ^ (52 - k) * 2 ^ k)
    by (rewrite <- Z.pow_add_r by lia; f_equal; lia).
  rewrite Z.div_add by exact NZ. ring.
Qed.

Lemma modf_nonneg_int (z : float) (m : positive) (e : Z) :
  Prim2SF z = S754_finite false m e ->
  nonnegWhole (Prim2SF (fst (modf_nonneg z))).
Proof.
  intros Shape. unfold modf_nonneg.
  destruct (z <? 1)%float eqn:Small.
  - rewrite eqb_zero, Shape. cbn [fst]. left. apply Prim2SF_zero.
  - pose proof (not_below_one z m e Shape Small) as Big.
    destruct (finite_bounds z _ _ _ Shape) as (Range & Size & Normal).
    assert (2 ^ 52 <= Zpos m) as Low by (apply Normal; lia).
    rewrite (bits_normal z m e Shape Low).
    change shift with 52. change bias with 1023.
    set (E := e + 1075). set (f := Zpos m - 2 ^ 52).
    assert (RangeF : 0 <= f < 2 ^ 52).
    { unfold f. change (2 ^ 53) with (2 * 2 ^ 52) in Size. lia. }
    destruct (field_split E f) as [Hi Lo]; [unfold E; lia|exact RangeF|].
    rewrite Hi, exponent_field by (unfold E; lia). cbn [fst].
    destruct (Z.ltb_spec (E - 1023) (64 - 12)) as [Frac|Int].
    + set (k := 64 - 12 - (E - 1023)).
      assert (K : 0 <= k <= 52) by (unfold k, E in *; lia).
      assert (P : 0 < 2 ^ k) by (apply Z.pow_pos_nonneg; lia).
      rewrite low_bits_cleared; [|change (2 ^ 64) with (4096 * 2 ^ 52); unfold E; nia|lia].
      rewrite clear_low_fraction by exact K.
      assert (RangeF' : 0 <= f / 2 ^ k * 2 ^ k < 2 ^ 52).
      { pose proof (Z.mul_div_le f (2 ^ k) P).
        pose proof (Z.div_pos f (2 ^ k) (proj1 RangeF) P). nia. }
      rewrite frombits_normal by (unfold E; lia || exact RangeF').
      rewrite clear_low_mantissa by exact K.
      replace (f + 2 ^ 52) with (Zpos m) by (unfold f; lia).
      assert (Size' : 2 ^ 52 <= Zpos m / 2 ^ k * 2 ^ k < 2 ^ 53).
      { pose proof (clear_low_mantissa f k K) as CM.
        replace (f + 2 ^ 52) with (Zpos m) in CM by (unfold f; lia).
        change (2 ^ 53) with (2 * 2 ^ 52). lia. }
      replace (E - 1075) with e by (unfold E; lia).
      rewrite normal_valid; [|rewrite Z2Pos.id by lia; exact Size'|lia].
      right. eexists _, e. split; [reflexivity|].
      right. split; [unfold E in Frac; lia|].
      exists (Zpos m / 2 ^ k). rewrite Z2Pos.id by lia.
      f_equal. f_equal. unfold k, E. lia.
    + rewrite frombits_normal by (unfold E; lia || exact RangeF).
      replace (f + 2 ^ 52) with (Zpos m) by (unfold f; lia).
      replace (E - 1075) with e by (unfold E; lia).
      cbn [Z.to_pos]. rewrite <- Shape, SF2Prim_Prim2SF, Shape.
      right. exists m, e. split; [reflexivity|left; unfold E in Int; lia].
Qed.

(** ** Floor and Ceil return whole numbers *)

Lemma nonnegWhole_whole (w : spec_float) : nonnegWhole w -> wholeSF w = true.
Proof.
  intros [->|(m & e & -> & W)]; [reflexivity|]. apply wholeSF_finite. exact W.
Qed.

Lemma opp_whole (y : float) :
  wholeOrSpecial (Prim2SF y) -> wholeOrSpecial (Prim2SF (- y)).
Proof.
  rewrite opp_spec. unfold wholeOrSpecial.
  destruct (Prim2SF y) as [s|s| |s m e]; cbn; tauto.
Qed.

Lemma Modf_nonneg (z : float) (m : positive) (e : Z) :
  Prim2SF z = S754_finite false m e -> Modf z = modf_nonneg z.
Proof.
  intros Shape. unfold Modf. rewrite (ltb_zero z), Shape.
  rewrite andb_false_r. reflexivity.
Qed.

Lemma succ_whole (d : float) :
  wholeSF (Prim2SF d) = true -> wholeOrSpecial (Prim2SF (d + 1)).
Proof.
  intros W. rewrite add_spec. apply SFadd_whole; [exact W|].
  rewrite Prim2SF_one. reflexivity.
Qed.

Lemma Floor_whole (y : float) : wholeOrSpecial (Prim2SF (Floor y)).
Proof.
  unfold Floor. rewrite eqb_zero, IsNaN_shape, IsInf_shape, ltb_zero.
  destruct (Prim2SF y) as [s|s| |s m e] eqn:Shape; cbn [orb].
  - left. rewrite Shape. reflexivity.
  - right. rewrite Shape. reflexivity.
  - right. rewrite Shape. reflexivity.
  - destruct s.
    + assert (Pos : Prim2SF (- y) = S754_finite false m e)
        by (rewrite opp_spec, Shape; reflexivity).
      rewrite (Modf_nonneg _ _ _ Pos).
      pose proof (modf_nonneg_int _ _ _ Pos) as Int.
      destruct (modf_nonneg (- y)) as [d fract]. cbn [fst] in Int.
      apply nonnegWhole_whole in Int.
      apply opp_whole.
      destruct (negb (fract =? 0)%float); [apply succ_whole; exact Int|left; exact Int].
    + rewrite (Modf_nonneg _ _ _ Shape).
      left. apply nonnegWhole_whole. apply (modf_nonneg_int _ _ _ Shape).
Qed.

Lemma Ceil_whole (x : float) : wholeOrSpecial (Prim2SF (Ceil x)).
Proof. unfold Ceil. apply opp_whole. apply Floor_whole. Qed.

(** Go's [==] relates values of the same representation, or two zeros. *)
Lemma eqb_shape (a b : float) :
  (a =? b)%float = true ->
  Prim2SF a = Prim2SF b \/
  (exists s t, Prim2SF a = S754_zero s /\ Prim2SF b = S754_zero t).
Proof.
  rewrite eqb_spec. unfold SFeqb, SFcompare.
  destruct (Prim2SF a) as [s|s| |s m e]; destruct (Prim2SF b) as [t|t| |t n f];
    try discriminate; try (destruct s; discriminate); try (destruct t; discriminate).
  - intros _. right. eauto.
  - destruct s, t; try discriminate; intros _; left; reflexivity.
  - destruct s, t; try discriminate;
      destruct (Z.compare_spec e f) as [E|L|G]; try discriminate;
      rewrite Pos.compare_cont_spec; cbn [Pos.switch_Eq];
      destruct (Pos.compare_spec m n) as [M|L|G]; try discriminate;
      intros _; left; congruence.
Qed.

Lemma eqb_whole (a b : float) :
  (a =? b)%float = true ->
  wholeOrSpecial (Prim2SF a) -> wholeOrSpecial (Prim2SF b).
Proof.
  intros Same W. destruct (eqb_shape a b Same) as [<-|(s & t & _ & ->)]; [exact W|].
  left. reflexivity.
Qed.

(** ** Signs *)


Lemma binary_round_aux_sign (sx : bool) (mx ex : Z) (lx : location) :
  match binary_round_aux prec emax sx mx ex lx with
  | S754_zero s | S754_infinity s | S754_finite s _ _ => s = sx
  | S754_nan => True
  end.
Proof.
  unfold binary_round_aux.
  destruct (shr_fexp prec emax mx ex lx) as [mrs' e'].
  destruct (shr_fexp prec emax _ e' loc_Exact) as [mrs'' e''].
  destruct (shr_m mrs'') as [|m|m]; [reflexivity| |exact I].
  destruct (e'' <=? emax - prec); reflexivity.
Qed.

Lemma binary_round_aux_notNegative (mx ex : Z) (lx : location) :
  notNegative (binary_round_aux prec emax false mx ex lx).
Proof.
  pose proof (binary_round_aux_sign false mx ex lx) as Sign.
  destruct (binary_round_aux prec emax false mx ex lx); try subst; exact I.
Qed.

Lemma binary_round_notNegative (mx : positive) (ex : Z) :
  notNegative (binary_round prec emax false mx ex).
Proof.
  unfold binary_round.
  destruct (shl_align mx ex (fexp prec emax (Zpos (digits2_pos mx) + ex))).
  apply binary_round_aux_notNegative.
Qed.

Lemma nonnegWhole_notNegative (w : spec_float) : nonnegWhole w -> notNegative w.
Proof. intros [->|(m & e & -> & _)]; exact I. Qed.

Lemma succ_notNegative (d : float) :
  nonnegWhole (Prim2SF d) -> notNegative (Prim2SF (d + 1)).
Proof.
  intros W. rewrite add_spec, Prim2SF_one.
  destruct W as [->|(m & e & -> & _)]; [exact I|].
  cbn [SF64add SFadd cond_Zopp]. unfold SF64add, SFadd. cbn [cond_Zopp].
  unfold binary_normalize.
  destruct (Z.pos _ + Z.pos _) eqn:Sum; try lia.
  apply binary_round_notNegative.
Qed.

Lemma opp_opp_shape (d : float) : Prim2SF (- - d) = Prim2SF d.
Proof. rewrite !opp_spec. destruct (Prim2SF d) as [s|s| |s m e]; cbn; try destruct s; reflexivity. Qed.

Lemma Ceil_notNegative (q : float) :
  notNegative (Prim2SF q) -> notNegative (Prim2SF (Ceil q)).
Proof.
  intros Sign. unfold Ceil. rewrite opp_spec.
  pose proof (opp_spec q) as Neg.
  unfold Floor. rewrite eqb_zero, IsNaN_shape, IsInf_shape, ltb_zero, Neg.
  destruct (Prim2SF q) as [s|s| |s m e] eqn:Shape; cbn [SFopp orb negb] in *.
  - rewrite Neg. exact I.
  - rewrite Neg. destruct s; [destruct Sign|exact I].
  - rewrite Neg. exact I.
  - destruct s; [destruct Sign|].
    assert (Pos : Prim2SF (- - q) = S754_finite false m e)
      by (rewrite opp_opp_shape; exact Shape).
    rewrite (Modf_nonneg _ _ _ Pos).
    pose proof (modf_nonneg_int _ _ _ Pos) as Int.
    destruct (modf_nonneg (- - q)) as [d fract]. cbn [fst] in Int.
    change (negb false) with true. cbv beta iota zeta. rewrite opp_spec.
    destruct (negb (fract =? 0)%float).
    + pose proof (succ_notNegative d Int) as Up.
      destruct (Prim2SF (d + 1)) as [t|t| |t n f]; try destruct t; exact Up || exact I.
    + apply nonnegWhole_notNegative in Int.
      destruct (Prim2SF d) as [t|t| |t n f]; try destruct t; exact Int || exact I.
Qed.

Lemma div_notNegative (t f : float) :
  (0 <=? t)%float = true -> (0 <? f)%float = true ->
  notNegative (Prim2SF (t / f)).
Proof.
  rewrite leb_spec, ltb_spec, div_spec, Prim2SF_zero.
  unfold SFleb, SFltb, SF64div.
  destruct (Prim2SF t) as [s|s| |s m e]; destruct (Prim2SF f) as [u|u| |u n g];
    try destruct s; try destruct u; try discriminate; intros _ _; try exact I.
  cbn [SFdiv xorb]. destruct (SFdiv_core_binary _ _ _ _ _ _) as [[mz ez] lz].
  apply binary_round_aux_notNegative.
Qed.

Lemma notNegative_leb (w : float) :
  notNegative (Prim2SF w) -> (w =? w)%float = true -> (0 <=? w)%float = true.
Proof.
  rewrite leb_spec, eqb_spec, SFeqb_refl, Prim2SF_zero.
  destruct (Prim2SF w) as [s|s| |s m e]; try destruct s; cbn; try tauto; try discriminate.
Qed.

Lemma eqb_leb (a n : float) :
  (a =? n)%float = true -> notNegative (Prim2SF a) -> (0 <=? n)%float = true.
Proof.
  rewrite eqb_spec, leb_spec, Prim2SF_zero. unfold SFeqb, SFleb.
  destruct (Prim2SF a) as [s|s| |s m e]; destruct (Prim2SF n) as [t|t| |t k f];
    try destruct s; try destruct t; cbn; try discriminate; try tauto.
Qed.

Lemma eqb_not_nan (a n : float) :
  (a =? n)%float = true -> Prim2SF n <> S754_nan.
Proof.
  rewrite eqb_spec. unfold SFeqb. intros Same Nan. rewrite Nan in Same.
  destruct (Prim2SF a) as [s|s| |s m e]; try destruct s; discriminate.
Qed.

Lemma infinite_value (n : float) (s : bool) :
  Prim2SF n = S754_infinity s -> n = if s then neg_infinity else infinity.
Proof.
  intros Shape. apply Prim2SF_inj. rewrite Shape. destruct s; reflexivity.
Qed.

(** A value that compares equal to a ceiling is a whole number or an
    infinity. *)
Lemma ceiling_value (t n : float) :
  (Ceil t =? n)%float = true ->
  wholeSF (Prim2SF n) = true \/ n = infinity \/ n = neg_infinity.
Proof.
  intros Same.
  destruct (eqb_whole _ _ Same (Ceil_whole t)) as [W|Special]; [left; exact W|right].
  pose proof (eqb_not_nan _ _ Same) as NotNan.
  destruct (Prim2SF n) as [s|s| |s m e] eqn:Shape; try discriminate; [|congruence].
  rewrite (infinite_value n s Shape). destruct s; [right|left]; reflexivity.
Qed.

End Binary64.

(** ** The fixed-point recheck *)

Lemma iteration_new (c : Calculator.t) (result : Result.t)
    (input : Input.t) (n : float) :
  snd (iteration c result input n) =
  GoMath.Ceil (snd (fst (iteration c result input n)) / Input.FMV input).
Proof. reflexivity. Qed.

Lemma recorded_total (c : Calculator.t) (result : Result.t)
    (input : Input.t) (n : float) :
  Result.TotalCosts (finish input (recorded c input result n)) =
  snd (fst (iteration c result input n)).
Proof. project. Qed.

Lemma recorded_shares (c : Calculator.t) (result : Result.t)
    (input : Input.t) (n : float) :
  Result.SharesToSell (finish input (recorded c input result n)) = n.
Proof. project. Qed.

Lemma unrecorded_total (c : Calculator.t) (input : Input.t) :
  Result.TotalCosts (finish input (taxLines c input)) = 0%float.
Proof. project. Qed.

Lemma unrecorded_shares (c : Calculator.t) (input : Input.t) :
  Result.SharesToSell (finish input (taxLines c input)) = 0%float.
Proof. project. Qed.

(** C3 (as stated) fails: price 1e300, 1e10 shares and FMV 1e300 are all
    positive, the cost basis overflows, and under the default
    configuration the loop is stable at +Inf, which is no whole number. *)
Lemma C3_shares_to_sell_infinite :
  let r := Calculate NewDefaultCalculator hugeExercise in
  (0 <? Input.ExercisePrice hugeExercise)%float = true /\
  (0 <? Input.ExercisedShares hugeExercise)%float = true /\
  (0 <? Input.FMV hugeExercise)%float = true /\
  Result.SharesToSell r = infinity /\
  ~ (integerValued (Result.SharesToSell r) = true /\
     (0 <=? Result.SharesToSell r)%float = true /\
     (GoMath.Ceil (Result.TotalCosts r / Input.FMV hugeExercise)
      =? Result.SharesToSell r)%float = true).
Proof.
  cbv zeta. repeat apply conj; try (vm_compute; reflexivity).
  intros (Whole & _). vm_compute in Whole. discriminate Whole.
Qed.

Lemma Calculate_recheck (c : Calculator.t) (input : Input.t) :
  (0 <? Input.FMV input)%float = true ->
  (GoMath.Ceil (Result.TotalCosts (Calculate c input) / Input.FMV input)
   =? Result.SharesToSell (Calculate c input))%float = true /\
  (stableAt c input = Some (Result.SharesToSell (Calculate c input)) \/
   stableAt c input = None /\ Result.SharesToSell (Calculate c input) = 0%float).
Proof.
  intros Positive. rewrite Calculate_cases.
  destruct (stableAt c input) as [n|] eqn:Stable.
  - rewrite recorded_total, recorded_shares, <- iteration_new. split.
    + rewrite stableAt_eq in Stable.
      exact (fixedPoint_stable c _ _ _ _ _ Stable).
    + left. reflexivity.
  - rewrite unrecorded_total, unrecorded_shares. split.
    + rewrite (zero_div_positive _ Positive). vm_compute. reflexivity.
    + right. split; reflexivity.
Qed.

(** C3 (amended): for every input with FMV above zero and every
    configuration, ceil(TotalCosts / FMV) == SharesToSell holds on the
    returned result; SharesToSell is the share count at which the loop
    was stable or, when it never was, zero; it is a whole number unless
    it is an infinity; and it is not below zero unless TotalCosts is. *)
Theorem C3_recheck_holds (c : Calculator.t) (input : Input.t) :
  (0 <? Input.FMV input)%float = true ->
  let r := Calculate c input in
  (GoMath.Ceil (Result.TotalCosts r / Input.FMV input) =? Result.SharesToSell r)%float
    = true /\
  (stableAt c input = Some (Result.SharesToSell r) \/
   stableAt c input = None /\ Result.SharesToSell r = 0%float) /\
  (integerValued (Result.SharesToSell r) = true \/
   Result.SharesToSell r = infinity \/ Result.SharesToSell r = neg_infinity) /\
  ((0 <=? Result.TotalCosts r)%float = true ->
   (0 <=? Result.SharesToSell r)%float = true).
Proof.
  intros Positive. cbv zeta.
  destruct (Calculate_recheck c input Positive) as [Recheck Where].
  revert Recheck Where. generalize (Calculate c input). intros r Recheck Where.
  repeat apply conj.
  - exact Recheck.
  - exact Where.
  - unfold integerValued. exact (Binary64.ceiling_value _ _ Recheck).
  - intros Owed. apply (Binary64.eqb_leb _ _ Recheck).
    apply Binary64.Ceil_notNegative.
    apply Binary64.div_notNegative; assumption.
Qed.

Lemma C3_recheck_witness :
  let r := Calculate NewDefaultCalculator specExample in
  (GoMath.Ceil (Result.TotalCosts r / 50) =? Result.SharesToSell r)%float = true.
Proof.
  cbv zeta.
  apply (proj1 (C3_recheck_holds NewDefaultCalculator specExample
                  ltac:(vm_compute; reflexivity))).
Defined.

(** ** math.Round on the bit pattern

    Round adds one half at the position of the first fraction bit and
    clears the fraction bits; on the value this takes the nearest whole
    number, halves going away from zero. *)
Module RoundFacts.

Import GoMath.
Import Binary64.

(** ** Signed bit patterns *)

Lemma land_signMask (x : Z) :
  Z.land x signMask = if Z.testbit x 63 then signMask else 0.
Proof.
  change signMask with (2 ^ 63). apply Z.bits_inj'. intros n N.
  rewrite Z.land_spec, Z.pow2_bits_eqb by lia.
  destruct (Z.eqb_spec 63 n) as [<-|Other].
  - destruct (Z.testbit x 63); [rewrite Z.pow2_bits_true by lia|rewrite Z.bits_0];
      reflexivity.
  - rewrite andb_false_r.
    destruct (Z.testbit x 63); [rewrite Z.pow2_bits_false by lia|rewrite Z.bits_0];
      reflexivity.
Qed.

Lemma signed_testbit (s : bool) (M : Z) :
  0 <= M < 2 ^ 63 -> Z.testbit (signBits s + M) 63 = s.
Proof.
  intros Range. destruct s; cbn [signBits].
  - apply Z.testbit_true; [lia|]. change signMask with (1 * 2 ^ 63).
    rewrite Z.div_add_l by lia. rewrite Z.div_small by lia. reflexivity.
  - apply sign_clear. exact Range.
Qed.

Lemma signed_sign (s : bool) (M : Z) :
  0 <= M < 2 ^ 63 -> Z.land (signBits s + M) signMask = signBits s.
Proof.
  intros Range. rewrite land_signMask, signed_testbit by exact Range.
  destruct s; reflexivity.
Qed.

Lemma signed_split (s : bool) (E f : Z) :
  0 <= E < 2048 -> 0 <= f < 2 ^ 52 ->
  Z.land (Z.shiftr (signBits s + (E * 2 ^ 52 + f)) 52) mask = E /\
  Z.land (signBits s + (E * 2 ^ 52 + f)) fracMask = f.
Proof.
  intros RangeE RangeF.
  assert (Sign : signBits s = (if s then 2048 else 0) * 2 ^ 52) by (destruct s; reflexivity).
  replace (signBits s + (E * 2 ^ 52 + f))
    with (((if s then 2048 else 0) + E) * 2 ^ 52 + f) by (rewrite Sign; ring).
  destruct (field_split ((if s then 2048 else 0) + E) f) as [Hi Lo];
    [destruct s; lia|exact RangeF|].
  rewrite Hi, Lo. split; [|reflexivity].
  change mask with (Z.ones 11). rewrite Z.land_ones by lia.
  change (2 ^ 11) with 2048. destruct s.
  - replace (2048 + E) with (E + 1 * 2048) by lia.
    rewrite Z.mod_add by lia. apply Z.mod_small. exact RangeE.
  - apply Z.mod_small. lia.
Qed.

Lemma magnitude_below (E f : Z) :
  0 <= E < 2048 -> 0 <= f < 2 ^ 52 -> 0 <= E * 2 ^ 52 + f < 2 ^ 63.
Proof. intros RangeE RangeF. change (2 ^ 63) with (2048 * 2 ^ 52). nia. Qed.

Lemma frombits_signed (s : bool) (E f : Z) :
  1 <= E <= 2046 -> 0 <= f < 2 ^ 52 ->
  Float64frombits (signBits s + (E * 2 ^ 52 + f)) =
  SF2Prim (S754_finite s (Z.to_pos (f + 2 ^ 52)) (E - 1075)).
Proof.
  intros RangeE RangeF. unfold Float64frombits.
  change shift with 52. change bias with 1023.
  destruct (signed_split s E f) as [Hi Lo]; [lia|exact RangeF|].
  rewrite Hi, Lo, signed_testbit by (apply magnitude_below; lia).
  destruct (Z.eqb_spec E mask) as [Top|_]; [change mask with 2047 in Top; lia|].
  destruct (Z.eqb_spec E 0) as [Bottom|_]; [lia|].
  do 2 f_equal. lia.
Qed.

Lemma bits_signed (x : float) (s : bool) (m : positive) (e : Z) :
  Prim2SF x = S754_finite s m e -> 2 ^ 52 <= Zpos m ->
  Float64bits x = signBits s + ((e + 1075) * 2 ^ 52 + (Zpos m - 2 ^ 52)).
Proof.
  intros Shape Normal. unfold Float64bits. rewrite Shape.
  change shift with 52. change bias with 1023. fold (signBits s).
  destruct (Z.ltb_spec (Zpos m) (2 ^ 52)) as [Sub|_]; [lia|].
  rewrite Z.shiftl_mul_pow2 by lia. f_equal. lia.
Qed.

Lemma bits_subnormal (x : float) (s : bool) (m : positive) (e : Z) :
  Prim2SF x = S754_finite s m e -> Zpos m < 2 ^ 52 ->
  Float64bits x = signBits s + (0 * 2 ^ 52 + Zpos m).
Proof.
  intros Shape Sub. unfold Float64bits. rewrite Shape.
  change shift with 52. fold (signBits s).
  destruct (Z.ltb_spec (Zpos m) (2 ^ 52)) as [_|Bad]; [|lia]. f_equal.
Qed.

Lemma frombits_zero (s : bool) : Prim2SF (Float64frombits (signBits s)) = S754_zero s.
Proof. destruct s; vm_compute; reflexivity. Qed.

Lemma frombits_one (s : bool) :
  Prim2SF (Float64frombits (Z.lor (signBits s) uvone)) =
  S754_finite s 4503599627370496 (-52).
Proof. destruct s; vm_compute; reflexivity. Qed.

(** ** Round takes the nearest whole number *)

Lemma pow2_double (k : Z) : 1 <= k -> 2 ^ k = 2 * 2 ^ (k - 1).
Proof.
  intros K. replace k with (k - 1 + 1) at 1 by lia. apply pow2_succ. lia.
Qed.

(** Below one half the nearest whole number is zero, from one half up to
    one it is one. *)
Lemma nearestAway_small (m : positive) (e : Z) :
  Zpos m < 2 ^ 53 -> e < -53 -> nearestAway m e = 0.
Proof.
  intros Size Small. unfold nearestAway.
  destruct (Z.leb_spec 0 e) as [Bad|_]; [lia|].
  apply Z.div_small.
  assert (2 ^ 53 <= 2 ^ (- e - 1)) by (apply Z.pow_le_mono_r; lia).
  rewrite (pow2_double (- e)) by lia. lia.
Qed.

Lemma nearestAway_half (m : positive) :
  2 ^ 52 <= Zpos m < 2 ^ 53 -> nearestAway m (-53) = 1.
Proof.
  intros Size. unfold nearestAway. cbn [Z.leb Z.compare Z.opp Z.sub Z.add Z.pos_sub
    Pos.pred_double Z.succ_double Z.pred_double Z.double].
  change (2 ^ 53) with 9007199254740992 in *.
  change (2 ^ 52) with 4503599627370496 in *.
  symmetry. apply (Z.div_unique _ _ 1 (Zpos m + 4503599627370496 - 9007199254740992)); lia.
Qed.

(** The mantissa after the half has been added and the fraction bits
    cleared. *)
Lemma rounded_mantissa (m : positive) (k : Z) :
  1 <= k <= 52 -> 2 ^ 52 <= Zpos m < 2 ^ 53 ->
  let N := (Zpos m + 2 ^ (k - 1)) / 2 ^ k in
  2 ^ (52 - k) <= N <= 2 ^ (53 - k).
Proof.
  intros K Size N.
  assert (P : 0 < 2 ^ k) by (apply Z.pow_pos_nonneg; lia).
  assert (H : 0 < 2 ^ (k - 1)) by (apply Z.pow_pos_nonneg; lia).
  assert (Low : 2 ^ 52 = 2 ^ (52 - k) * 2 ^ k)
    by (rewrite <- Z.pow_add_r by lia; f_equal; lia).
  assert (High : 2 ^ 53 = 2 ^ (53 - k) * 2 ^ k)
    by (rewrite <- Z.pow_add_r by lia; f_equal; lia).
  pose proof (pow2_double k (proj1 K)) as Double.
  subst N. split.
  - apply Z.div_le_lower_bound; [exact P|]. lia.
  - assert ((Zpos m + 2 ^ (k - 1)) / 2 ^ k < 2 ^ (53 - k) + 1); [|lia].
    apply Z.div_lt_upper_bound; [exact P|]. lia.
Qed.

Lemma clear_signed (s : bool) (E y k : Z) :
  0 <= k <= 52 ->
  (signBits s + (E * 2 ^ 52 + y)) / 2 ^ k * 2 ^ k =
  signBits s + (E * 2 ^ 52 + y / 2 ^ k * 2 ^ k).
Proof.
  intros K. assert (NZ : 2 ^ k <> 0) by (apply Z.pow_nonzero; lia).
  assert (Sign : signBits s = (if s then 2048 else 0) * 2 ^ 52) by (destruct s; reflexivity).
  rewrite Sign.
  replace (2 ^ 52) with (2 ^ (52 - k) * 2 ^ k)
    by (rewrite <- Z.pow_add_r by lia; f_equal; lia).
  replace ((if s then 2048 else 0) * (2 ^ (52 - k) * 2 ^ k)
           + (E * (2 ^ (52 - k) * 2 ^ k) + y))
    with ((((if s then 2048 else 0) + E) * 2 ^ (52 - k)) * 2 ^ k + y) by ring.
  rewrite Z.div_add_l by exact NZ. ring.
Qed.

Lemma shifted_half (e' : Z) :
  0 <= e' <= 51 -> Z.shiftr (Z.shiftl 1 (shift - 1)) e' = 2 ^ (51 - e').
Proof.
  intros Range. change (shift - 1) with 51.
  rewrite Z.shiftl_1_l, Z.shiftr_div_pow2 by lia.
  replace (2 ^ 51) with (2 ^ (51 - e') * 2 ^ e')
    by (rewrite <- Z.pow_add_r by lia; f_equal; lia).
  apply Z.div_mul. apply Z.pow_nonzero; lia.
Qed.

Lemma shifted_mask (e' : Z) :
  0 <= e' <= 51 -> Z.shiftr fracMask e' = Z.shiftl 1 (52 - e') - 1.
Proof.
  intros Range. change fracMask with (Z.ones 52).
  rewrite Z.shiftr_div_pow2, Z.ones_div_pow2 by lia.
  rewrite Z.ones_equiv, Z.shiftl_1_l. lia.
Qed.

Lemma hasValue_signed (s : bool) (P : positive) (e N : Z) :
  e < 0 -> Zpos P = N * 2 ^ (- e) ->
  hasValue (S754_finite s P e) (cond_Zopp s N).
Proof.
  intros Down Split. cbn [hasValue]. right. split; [exact Down|].
  destruct s; cbn [cond_Zopp]; lia.
Qed.

Lemma Round_finite (x : float) (s : bool) (m : positive) (e : Z) :
  Prim2SF x = S754_finite s m e ->
  signedWhole s (nearestAway m e) (Prim2SF (Round x)).
Proof.
  intros Shape. destruct (finite_bounds x s m e Shape) as (Range & Size & Normal).
  unfold Round. cbv zeta.
  destruct (Z.lt_ge_cases (Zpos m) (2 ^ 52)) as [Sub|Norm].
  - assert (Least : e = -1074) by lia.
    rewrite (bits_subnormal x s m e Shape Sub).
    change shift with 52. change bias with 1023.
    destruct (signed_split s 0 (Zpos m)) as [Hi _]; [lia|lia|].
    rewrite Hi. cbn [Z.ltb Z.eqb Z.compare Z.sub Z.add Z.opp Z.pos_sub].
    rewrite signed_sign by (apply magnitude_below; lia).
    rewrite frombits_zero. unfold signedWhole.
    rewrite nearestAway_small by lia. reflexivity.
  - rewrite (bits_signed x s m e Shape Norm).
    change shift with 52. change bias with 1023.
    set (E := e + 1075). set (f := Zpos m - 2 ^ 52).
    assert (RangeE : 1 <= E <= 2046) by (unfold E; lia).
    assert (RangeF : 0 <= f < 2 ^ 52).
    { unfold f. change (2 ^ 53) with (2 * 2 ^ 52) in Size. lia. }
    destruct (signed_split s E f) as [Hi _]; [lia|exact RangeF|].
    rewrite Hi.
    pose proof (magnitude_below E f) as Below.
    destruct (Z.ltb_spec E 1023) as [Small|Big].
    + rewrite signed_sign by (apply Below; lia).
      destruct (Z.eqb_spec E (1023 - 1)) as [Half|Less].
      * assert (e = -53) as -> by (unfold E in Half; lia).
        rewrite frombits_one. unfold signedWhole.
        rewrite nearestAway_half by lia. cbn [Z.eqb].
        apply hasValue_signed; [lia|reflexivity].
      * rewrite frombits_zero. unfold signedWhole.
        rewrite nearestAway_small by (unfold E in *; lia). reflexivity.
    + destruct (Z.ltb_spec E (1023 + 52)) as [Fraction|Whole].
      * set (k := - e).
        assert (K : 1 <= k <= 52) by (unfold k, E in *; lia).
        replace (E - 1023) with (52 - k) by (unfold k, E; lia).
        rewrite shifted_half, shifted_mask by lia.
        replace (51 - (52 - k)) with (k - 1) by lia.
        replace (52 - (52 - k)) with k by lia.
        assert (P : 0 < 2 ^ k) by (apply Z.pow_pos_nonneg; lia).
        assert (H : 0 < 2 ^ (k - 1) <= 2 ^ 51).
        { split; [apply Z.pow_pos_nonneg; lia|apply Z.pow_le_mono_r; lia]. }
        assert (Sign : 0 <= signBits s <= 2048 * 2 ^ 52)
          by (destruct s; unfold signBits; change signMask with (2048 * 2 ^ 52); lia).
        assert (Fits64 : 0 <= signBits s + (E * 2 ^ 52 + f) + 2 ^ (k - 1) < 2 ^ 64).
        { specialize (Below ltac:(lia) RangeF).
          change (2 ^ 64) with (4096 * 2 ^ 52).
          change (2 ^ 51) with 2251799813685248 in H.
          change (2 ^ 63) with (2048 * 2 ^ 52) in Below.
          change (2 ^ 52) with 4503599627370496 in *. lia. }
        unfold wrap64. rewrite Z.mod_small by exact Fits64.
        rewrite low_bits_cleared by (exact Fits64 || lia).
        replace (signBits s + (E * 2 ^ 52 + f) + 2 ^ (k - 1))
          with (signBits s + ((E - 1) * 2 ^ 52 + (Zpos m + 2 ^ (k - 1))))
          by (unfold f; ring).
        rewrite clear_signed by lia.
        pose proof (rounded_mantissa m k K (conj Norm Size)) as Bounds.
        cbv zeta in Bounds.
        assert (Near : nearestAway m e = (Zpos m + 2 ^ (k - 1)) / 2 ^ k).
        { unfold nearestAway. destruct (Z.leb_spec 0 e) as [Bad|_]; [unfold k in K; lia|].
          unfold k. reflexivity. }
        rewrite Near. set (N := (Zpos m + 2 ^ (k - 1)) / 2 ^ k) in *.
        assert (Low : 2 ^ 52 = 2 ^ (52 - k) * 2 ^ k)
          by (rewrite <- Z.pow_add_r by lia; f_equal; lia).
        assert (High : 2 ^ 53 = 2 ^ (53 - k) * 2 ^ k)
          by (rewrite <- Z.pow_add_r by lia; f_equal; lia).
        assert (Unit : 0 < 2 ^ (52 - k)) by (apply Z.pow_pos_nonneg; lia).
        assert (NotZero : (N =? 0) = false) by (apply Z.eqb_neq; lia).
        unfold signedWhole. rewrite NotZero.
        destruct (Z.eq_dec N (2 ^ (53 - k))) as [Carry|Stay].
        -- replace (signBits s + ((E - 1) * 2 ^ 52 + N * 2 ^ k))
             with (signBits s + ((E + 1) * 2 ^ 52 + 0))
             by (rewrite Carry, <- High; change (2 ^ 53) with (2 * 2 ^ 52); ring).
           rewrite frombits_signed by lia.
           cbn [Z.add Z.to_pos Z.pow Z.pow_pos Pos.iter Z.mul Pos.mul].
           rewrite normal_valid by (cbn; unfold E; lia).
           replace (E + 1 - 1075) with (e + 1) by (unfold E; lia).
           destruct (Z.eq_dec e (-1)) as [->|Deeper].
           ++ cbn [Z.add Z.pos_sub Z.opp]. cbn [hasValue]. left. split; [lia|].
              rewrite Carry. unfold k. destruct s; reflexivity.
           ++ apply hasValue_signed; [lia|].
              rewrite Carry. rewrite <- Z.pow_add_r by (unfold k; lia).
              replace (53 - k + - (e + 1)) with 52 by (unfold k; lia). reflexivity.
        -- assert (Fits : 2 ^ 52 <= N * 2 ^ k < 2 ^ 53) by nia.
           replace (signBits s + ((E - 1) * 2 ^ 52 + N * 2 ^ k))
             with (signBits s + (E * 2 ^ 52 + (N * 2 ^ k - 2 ^ 52))) by ring.
           rewrite frombits_signed by lia.
           replace (N * 2 ^ k - 2 ^ 52 + 2 ^ 52) with (N * 2 ^ k) by ring.
           replace (E - 1075) with e by (unfold E; lia).
           rewrite normal_valid; [|rewrite Z2Pos.id by lia; exact Fits|lia].
           apply hasValue_signed; [unfold k in K; lia|].
           rewrite Z2Pos.id by lia. reflexivity.
      * assert (Up : 0 <= e) by (unfold E in Whole; lia).
        rewrite frombits_signed by lia.
        replace (f + 2 ^ 52) with (Zpos m) by (unfold f; lia).
        replace (E - 1075) with e by (unfold E; lia).
        cbn [Z.to_pos]. rewrite <- Shape, SF2Prim_Prim2SF, Shape.
        unfold signedWhole, nearestAway.
        destruct (Z.leb_spec 0 e) as [_|Bad]; [|lia].
        assert (Pow : 0 < 2 ^ e) by (apply Z.pow_pos_nonneg; lia).
        assert (NotZero : (Zpos m * 2 ^ e =? 0) = false) by (apply Z.eqb_neq; nia).
        rewrite NotZero. cbn [hasValue]. left. split; [exact Up|].
        destruct s; cbn [cond_Zopp]; lia.
Qed.

Lemma Round_special (x : float) :
  match Prim2SF x with
  | S754_finite _ _ _ => True
  | _ => Round x = x
  end.
Proof.
  destruct (Prim2SF x) as [s|s| |s m e] eqn:Shape; [| | |exact I];
    unfold Round, Float64bits; rewrite Shape; cbv zeta;
    try destruct s; vm_compute; apply Prim2SF_inj; rewrite Shape; reflexivity.
Qed.

(** The whole number chosen is within one half of [m * 2^e], and a
    value halfway between two whole numbers goes to the larger one. *)
Lemma nearestAway_nearest (m : positive) (e : Z) :
  e < 0 ->
  2 * Z.abs (nearestAway m e * 2 ^ (- e) - Zpos m) <= 2 ^ (- e) /\
  (2 * (Zpos m mod 2 ^ (- e)) = 2 ^ (- e) ->
   nearestAway m e = Zpos m / 2 ^ (- e) + 1).
Proof.
  intros Down. unfold nearestAway.
  destruct (Z.leb_spec 0 e) as [Bad|_]; [lia|].
  set (k := - e). replace (- e - 1) with (k - 1) by (unfold k; lia).
  assert (K : 1 <= k) by (unfold k; lia).
  pose proof (pow2_double k K) as Double.
  assert (H : 0 < 2 ^ (k - 1)) by (apply Z.pow_pos_nonneg; lia).
  set (h := 2 ^ (k - 1)) in *. rewrite Double.
  pose proof (Z.div_mod (Zpos m + h) (2 * h) ltac:(lia)) as Split.
  pose proof (Z.mod_pos_bound (Zpos m + h) (2 * h) ltac:(lia)) as Rest.
  split; [lia|].
  intros Tie.
  pose proof (Z.div_mod (Zpos m) (2 * h) ltac:(lia)) as Split'.
  symmetry. apply (Z.div_unique _ _ _ 0); lia.
Qed.

End RoundFacts.

(** ** Rounding to cents *)

(** C6 (as stated) fails on decimal ties: 1.005 lies halfway between
    1.00 and 1.01, so rounding halves away from zero calls for 1.01, yet
    1.005 * 100 is 100.49999999999999 in binary64 and roundMoney
    returns 1.00. *)
Lemma C6_decimal_tie_rounded_down :
  thousandths 1005 = 1.005%float /\
  nearestHundredth 1005 = 101 /\
  hundredths 101 = 1.01%float /\
  (1.005 * 100)%float = 100.49999999999999%float /\
  roundMoney 1.005 = 1%float /\
  roundMoney (thousandths 1005) <> hundredths (nearestHundredth 1005).
Proof.
  repeat apply conj; try (vm_compute; reflexivity).
  apply differ_neq. vm_compute. reflexivity.
Qed.

(** C6 (amended): roundMoney(v) is Round(p) / 100 in binary64, where p is
    the binary64 product v * 100.  For every finite p, Round(p) is the
    whole number nearest to p, a p halfway between two whole numbers
    going to the one away from zero, with the sign of p (a zero result
    keeps the sign); zeros, infinities and NaN pass through.  So
    roundMoney rounds the product to the nearest whole number of cents,
    ties away from zero.  roundMoney(2.005) == 2.01 and
    roundMoney(-2.005) == -2.01 hold (the product is exactly 200.5), as do
    the exact binary ties 0.125 and -0.125; a decimal tie whose product
    with 100 falls below the half is rounded towards zero, as 1.005 and
    0.145 are. *)
Theorem C6_roundMoney :
  (forall v : float, roundMoney v = (GoMath.Round (v * 100) / 100)%float) /\
  (forall (x : float) (s : bool) (m : positive) (e : Z),
     Prim2SF x = S754_finite s m e ->
     signedWhole s (nearestAway m e) (Prim2SF (GoMath.Round x))) /\
  (forall (m : positive) (e : Z),
     e < 0 ->
     2 * Z.abs (nearestAway m e * 2 ^ (- e) - Zpos m) <= 2 ^ (- e) /\
     (2 * (Zpos m mod 2 ^ (- e)) = 2 ^ (- e) ->
      nearestAway m e = Zpos m / 2 ^ (- e) + 1)) /\
  (forall (m : positive) (e : Z), 0 <= e -> nearestAway m e = Zpos m * 2 ^ e) /\
  (forall x : float,
     match Prim2SF x with
     | S754_finite _ _ _ => True
     | _ => GoMath.Round x = x
     end) /\
  (forall (v : float) (s : bool) (m : positive) (e : Z),
     Prim2SF (v * 100) = S754_finite s m e ->
     exists cents : float,
       roundMoney v = (cents / 100)%float /\
       signedWhole s (nearestAway m e) (Prim2SF cents)) /\
  halvesAwayFromZero 1000 = true /\
  (2.005 * 100)%float = 200.5%float /\
  roundMoney 2.005 = 2.01%float /\
  (roundMoney 2.005 =? 2.01)%float = true /\
  roundMoney (-2.005) = (-2.01)%float /\
  (roundMoney (-2.005) =? -2.01)%float = true /\
  roundMoney 0.125 = 0.13%float /\
  roundMoney (-0.125) = (-0.13)%float /\
  roundMoney 1.005 = 1%float /\
  roundMoney 0.145 = 0.14%float.
Proof.
  split; [intros v; reflexivity|].
  split; [exact RoundFacts.Round_finite|].
  split; [exact RoundFacts.nearestAway_nearest|].
  split.
  { intros m e Up. unfold nearestAway.
    destruct (Z.leb_spec 0 e) as [_|Bad]; [reflexivity|lia]. }
  split; [exact RoundFacts.Round_special|].
  split.
  { intros v s m e Shape. exists (GoMath.Round (v * 100)).
    split; [reflexivity|]. apply RoundFacts.Round_finite. exact Shape. }
  repeat apply conj; vm_compute; reflexivity.
Qed.

(** ** Net shares *)



(** ** Methods and the bound configuration *)

(** Calls that only read leave the calculator as it was. *)
Lemma perform_readOnly (call : Call) (c : Calculator.t) :
  readOnly call = true -> snd (perform call c) = c.
Proof.
  destruct call; intros Reads; try discriminate Reads; reflexivity.
Qed.

Lemma performAll_readOnly (calls : list Call) :
  forall c : Calculator.t,
    forallb readOnly calls = true -> snd (performAll calls c) = c.
Proof.
  induction calls as [|call rest IH]; intros c Reads; [reflexivity|].
  cbn [forallb] in Reads. apply andb_prop in Reads. destruct Reads as [Here Later].
  cbn [performAll]. unfold bind.
  pose proof (perform_readOnly call c Here) as Same.
  destruct (perform call c) as [u c']. cbn [snd] in Same. subst c'.
  apply IH. exact Later.
Qed.

(** C10: GetConfig returns the same Config before and after a call of
    Calculate or of CalculateRSU, whatever the input; UpdateTaxRates and
    UpdateBrokerFees replace exactly their half of it. *)
Theorem C10_config_unchanged
    (c : Calculator.t) (input : Input.t) (rsu : RSUInput.t)
    (rates : TaxRates.t) (fees : BrokerFees.t) :
  let config := Calculator.config c in
  fst ((before <- GetConfig ;; _ <- CalculateM input ;;
        after <- GetConfig ;; ret (before, after)) c) = (config, config) /\
  fst ((before <- GetConfig ;; _ <- CalculateRSUM rsu ;;
        after <- GetConfig ;; ret (before, after)) c) = (config, config) /\
  snd (CalculateM input c) = c /\
  snd (CalculateRSUM rsu c) = c /\
  fst ((_ <- UpdateTaxRates rates ;; GetConfig) c) =
    Config.mk rates (Config.BrokerFees config) /\
  fst ((_ <- UpdateBrokerFees fees ;; GetConfig) c) =
    Config.mk (Config.TaxRates config) fees.
Proof.
  cbv zeta. repeat apply conj; reflexivity.
Qed.

(** ** Tabular import *)

Section ImportFacts.

Variable ParseFloat : string -> float * option error.

(** A read takes one record off the source. *)
Lemma Read_consumes (reader : csv.Reader) :
  csv.source reader = [] \/
  S (List.length (csv.source (snd (csv.Read reader))))
  = List.length (csv.source reader).
Proof.
  unfold csv.Read. destruct (csv.source reader) as [|record rest]; [left; reflexivity|].
  right.
  destruct (0 <? csv.FieldsPerRecord reader);
    [destruct (_ =? _)|destruct (csv.FieldsPerRecord reader =? 0)]; reflexivity.
Qed.

Lemma Read_empty (reader : csv.Reader) :
  csv.source reader = [] -> csv.Read reader = (([], Some EOF), reader).
Proof. unfold csv.Read. intros ->. reflexivity. Qed.

(** The loop never runs out of reads: it returns before the source is
    exhausted or on the io.EOF that follows it. *)
Lemma readRows_total (fuel : nat) :
  forall (reader : csv.Reader) (inputs : list Input.t),
    (List.length (csv.source reader) < fuel)%nat ->
    exists out, readRows ParseFloat fuel reader inputs = Some out.
Proof.
  induction fuel as [|fuel IH]; intros reader inputs Enough; [inversion Enough|].
  cbn [readRows].
  destruct (Read_consumes reader) as [Empty|Consumed].
  - rewrite (Read_empty reader Empty). eauto.
  - destruct (csv.Read reader) as [[record err] reader'] eqn:R.
    cbn [snd] in Consumed.
    assert (Less : (List.length (csv.source reader') < fuel)%nat) by lia.
    destruct err as [err|].
    + destruct err; eauto.
    + destruct (List.length record <? 3)%nat; [apply IH; exact Less|].
      destruct (ParseFloat (field record 0)) as [price [e|]]; eauto.
      destruct (ParseFloat (field record 1)) as [shares [e|]]; eauto.
      destruct (ParseFloat (field record 2)) as [fmv [e|]]; eauto.
Qed.

Lemma FromCSV_total (src : list (list string)) :
  exists out, FromCSV ParseFloat src = Some out.
Proof.
  unfold FromCSV.
  destruct (csv.Read (csv.NewReader src)) as [[record err] reader].
  destruct err as [err|]; [eauto|].
  apply readRows_total. lia.
Qed.

(** Whenever the loop reports an error it hands back no inputs. *)
Lemma readRows_error_no_inputs (fuel : nat) :
  forall (reader : csv.Reader) (inputs out : list Input.t) (err : error),
    readRows ParseFloat fuel reader inputs = Some (out, Some err) -> out = [].
Proof.
  induction fuel as [|fuel IH]; intros reader inputs out err; [discriminate|].
  cbn [readRows].
  destruct (csv.Read reader) as [[record e] reader'].
  destruct e as [e|].
  - destruct e; intros [= <- _]; reflexivity.
  - destruct (List.length record <? 3)%nat; [apply IH|].
    destruct (ParseFloat (field record 0)) as [price [e|]];
      [intros [= <- _]; reflexivity|].
    destruct (ParseFloat (field record 1)) as [shares [e|]];
      [intros [= <- _]; reflexivity|].
    destruct (ParseFloat (field record 2)) as [fmv [e|]];
      [intros [= <- _]; reflexivity|].
    apply IH.
Qed.

Lemma FromCSV_error_no_inputs (src : list (list string))
    (out : list Input.t) (err : error) :
  FromCSV ParseFloat src = Some (out, Some err) -> out = [].
Proof.
  unfold FromCSV.
  destruct (csv.Read (csv.NewReader src)) as [[record e] reader].
  destruct e as [e|]; [intros [= <- _]; reflexivity|].
  apply readRows_error_no_inputs.
Qed.

(** C8: after a three-column header, the two-field row 10,100 is not
    skipped.  The reader took the field count 3 from the header, hands
    the short row back with ErrFieldCount, and FromCSV aborts with
    "failed to read row" and no inputs, whatever ParseFloat does and
    although a well-formed row follows. *)
Theorem C8_short_row_aborts_import :
  FromCSV ParseFloat
    [ ["Exercise Price"; "Exercised Shares"; "FMV"];
      ["10"; "100"];
      ["12.50"; "200"; "60"] ]
  = Some ([], Some (Errorf "failed to read row" ErrFieldCount)).
Proof. reflexivity. Qed.

End ImportFacts.

(** A short row is skipped only when the header is as short; the header
    itself never becomes an input. *)
Lemma FromCSV_skips_rows_as_short_as_header :
  FromCSV Decimal.ParseFloat [ ["price"; "shares"]; ["10"; "100"]; ["7"; "3"] ]
  = Some ([], None).
Proof. vm_compute. reflexivity. Qed.

Lemma FromCSV_reads_rows :
  FromCSV Decimal.ParseFloat
    [ ["Exercise Price"; "Exercised Shares"; "FMV"];
      ["10"; "100"; "50"];
      ["12.50"; "200"; "60"] ]
  = Some ([Input.mk 10 100 50; Input.mk 12.5 200 60], None).
Proof. vm_compute. reflexivity. Qed.

Lemma FromCSV_fails_fast :
  FromCSV Decimal.ParseFloat
    [ ["Exercise Price"; "Exercised Shares"; "FMV"];
      ["10"; "100"; "50"];
      ["12.50"; "two hundred"; "60"];
      ["x"; "1"; "1"] ]
  = Some ([], Some (Errorf "invalid exercised shares" ErrSyntax)).
Proof. vm_compute. reflexivity. Qed.

(** ** Tabular export *)

Lemma decimals_after_point (s1 s2 : string) :
  noPoint s1 = true -> decimals (s1 ++ "." ++ s2) = Some (String.length s2).
Proof.
  induction s1 as [|a s1 IH]; intros Clean; [reflexivity|].
  cbn [noPoint] in Clean. apply andb_prop in Clean. destruct Clean as [Here Later].
  cbn [append decimals].
  destruct (Ascii.eqb a "."); [discriminate Here|]. apply IH. exact Later.
Qed.

Lemma noPoint_string_of_uint (d : Decimal.uint) :
  noPoint (NilEmpty.string_of_uint d) = true.
Proof. induction d; cbn [NilEmpty.string_of_uint noPoint]; auto. Qed.

Lemma noPoint_natString (n : Z) : noPoint (GoFmt.natString n) = true.
Proof.
  unfold GoFmt.natString, NilZero.string_of_uint.
  destruct (N.to_uint (Z.to_N n)) eqn:D; try reflexivity;
    rewrite <- D; apply noPoint_string_of_uint.
Qed.

Lemma append_length (s1 s2 : string) :
  String.length (s1 ++ s2) = (String.length s1 + String.length s2)%nat.
Proof. induction s1 as [|a s1 IH]; cbn; [reflexivity|]. rewrite IH. reflexivity. Qed.

Lemma fixedDigits_length (width : nat) :
  forall n : Z, String.length (GoFmt.fixedDigits width n) = width.
Proof.
  induction width as [|w IH]; intros n; [reflexivity|].
  cbn [GoFmt.fixedDigits]. rewrite append_length, IH. cbn. lia.
Qed.

Lemma fixed_decimals (prec : nat) (n : Z) :
  decimals (GoFmt.fixed (S prec) n) = Some (S prec).
Proof.
  unfold GoFmt.fixed.
  rewrite decimals_after_point by apply noPoint_natString.
  rewrite fixedDigits_length. reflexivity.
Qed.

(** A finite value printed with [%.Nf], N at least 1, has N characters
    after its point. *)
Lemma Sprintf_f_decimals (prec : nat) (x : float) :
  isFinite x = true -> decimals (GoFmt.Sprintf_f (S prec) x) = Some (S prec).
Proof.
  unfold isFinite, GoFmt.Sprintf_f.
  destruct (Prim2SF x) as [s|s| |s m e]; try discriminate; intros _;
    destruct s; cbn [append decimals Ascii.eqb Bool.eqb]; apply fixed_decimals.
Qed.

Lemma writeRows_appends (results : list Result.t) :
  forall w : csv.Writer,
    csv.broken w = false ->
    writeRows results w =
    (None, csv.mkWriter (csv.written w ++ map row results) false).
Proof.
  induction results as [|r rest IH]; intros [records bad] Sound;
    cbn [csv.broken] in Sound; subst bad.
  - cbn. rewrite app_nil_r. reflexivity.
  - cbn [writeRows csv.Write csv.broken csv.written].
    rewrite IH by reflexivity. cbn [csv.written map].
    rewrite <- app_assoc. reflexivity.
Qed.

(** C9 (as stated) fails on Exercised Shares: for the worked example
    the export writes 100.00 in the second column, where four decimals
    would give 100.0000. *)
Lemma C9_exercised_shares_two_decimals :
  let r := Calculate NewDefaultCalculator specExample in
  ToCSV [r] csv.NewWriter =
    (None,
     csv.mkWriter
       [ header;
         [ "10.00"; "100.00"; "50.00"; "45.0000"; "55.0000"; "2211.00";
           "2250.00"; "4000.00"; "1186.00"; "1000.00"; "25.00" ] ] false) /\
  nth 1 (rowSharesAtFour r) "" = "100.0000" /\
  csv.written (snd (ToCSV [r] csv.NewWriter)) <> [header; rowSharesAtFour r].
Proof.
  cbv zeta. repeat apply conj; try (vm_compute; reflexivity).
  intros Same. vm_compute in Same. discriminate Same.
Qed.

(** C9 (amended): on a sound writer the export adds the eleven-column
    header and then one row per result, in order.  In a row the prices,
    the money amounts and Exercised Shares are printed with [%.2f], Shares
    To Sell and Net Shares with [%.4f]; a finite value so printed has
    that many digits after the point. *)
Theorem C9_export_layout (results : list Result.t) (w : csv.Writer) :
  csv.broken w = false ->
  ToCSV results w =
    (None, csv.mkWriter (csv.written w ++ header :: map row results) false) /\
  header =
    [ "Exercise Price"; "Exercised Shares"; "FMV"; "Shares To Sell";
      "Net Shares"; "Total Costs"; "Est. Gross Proceeds"; "Taxable Gain";
      "Total Tax"; "Option Cost"; "Broker Fees" ] /\
  (forall r : Result.t,
     row r =
     [ GoFmt.Sprintf_f 2 (Result.ExercisePrice r);
       GoFmt.Sprintf_f 2 (Result.ExercisedShares r);
       GoFmt.Sprintf_f 2 (Result.FMV r);
       GoFmt.Sprintf_f 4 (Result.SharesToSell r);
       GoFmt.Sprintf_f 4 (Result.NetShares r);
       GoFmt.Sprintf_f 2 (Result.TotalCosts r);
       GoFmt.Sprintf_f 2 (Result.EstGrossProceeds r);
       GoFmt.Sprintf_f 2 (Result.TaxableGain r);
       GoFmt.Sprintf_f 2 (Result.TotalTax r);
       GoFmt.Sprintf_f 2 (Result.OptionCost r);
       GoFmt.Sprintf_f 2 (Result.BrokerFees r) ]) /\
  (forall x : float,
     isFinite x = true ->
     decimals (GoFmt.Sprintf_f 2 x) = Some 2%nat /\
     decimals (GoFmt.Sprintf_f 4 x) = Some 4%nat).
Proof.
  intros Sound. repeat apply conj.
  - destruct w as [records bad]. cbn [csv.broken] in Sound. subst bad.
    unfold ToCSV. cbn [csv.Write csv.broken csv.written].
    rewrite writeRows_appends by reflexivity. cbn [csv.written].
    rewrite <- app_assoc. reflexivity.
  - reflexivity.
  - intros r. reflexivity.
  - intros x Finite. split; apply Sprintf_f_decimals; exact Finite.
Qed.

Lemma C9_export_layout_witness :
  ToCSV (CalculateBatch NewDefaultCalculator [specExample; tenthOfAShare]) csv.NewWriter =
  (None,
   csv.mkWriter
     ([] ++ header ::
      map row (CalculateBatch NewDefaultCalculator [specExample; tenthOfAShare]))
     false).
Proof.
  apply (proj1 (C9_export_layout
                  (CalculateBatch NewDefaultCalculator [specExample; tenthOfAShare])
                  csv.NewWriter eq_refl)).
Defined.

(** * Further properties *)

Import Binary64.

Lemma pow2_pos (k : Z) : 0 <= k -> 0 < 2 ^ k.
Proof. intros K. apply Z.pow_pos_nonneg; lia. Qed.

Lemma pow2_split (a b : Z) : 0 <= a -> 0 <= b -> 2 ^ (a + b) = 2 ^ a * 2 ^ b.
Proof. intros A B. apply Z.pow_add_r; assumption. Qed.

Lemma digits_unique (p : positive) (d : Z) :
  2 ^ (d - 1) <= Zpos p < 2 ^ d -> 1 <= d -> Zpos (digits2_pos p) = d.
Proof.
  intros [Low High] D. pose proof (digits2_pos_bounds p) as [L H].
  set (d' := Zpos (digits2_pos p)) in *.
  destruct (Z.lt_trichotomy d' d) as [Lt|[Eq|Gt]]; [|exact Eq|].
  - assert (2 ^ d' <= 2 ^ (d - 1)) by (apply Z.pow_le_mono_r; lia). lia.
  - assert (2 ^ d <= 2 ^ (d' - 1)) by (apply Z.pow_le_mono_r; lia). lia.
Qed.

Lemma digits_shift_left (p : positive) (k : Z) :
  0 <= k ->
  Zpos (digits2_pos (Z.to_pos (Zpos p * 2 ^ k))) = Zpos (digits2_pos p) + k.
Proof.
  intros K. pose proof (digits2_pos_bounds p) as [L H].
  pose proof (pow2_pos k K) as P.
  apply digits_unique; [|pose proof (Pos2Z.is_pos (digits2_pos p)); lia].
  rewrite Z2Pos.id by nia.
  replace (Zpos (digits2_pos p) + k - 1) with (Zpos (digits2_pos p) - 1 + k) by lia.
  pose proof (Pos2Z.is_pos (digits2_pos p)).
  rewrite !pow2_split by lia. nia.
Qed.

Lemma digits_shift_right (p : positive) (q k : Z) :
  0 <= k -> Zpos p = q * 2 ^ k ->
  0 < q /\ Zpos (digits2_pos (Z.to_pos q)) = Zpos (digits2_pos p) - k.
Proof.
  intros K Split. pose proof (pow2_pos k K) as P.
  assert (Q : 0 < q) by nia. split; [exact Q|].
  pose proof (digits_shift_left (Z.to_pos q) k K) as Shift.
  rewrite Z2Pos.id in Shift by exact Q. rewrite <- Split in Shift.
  cbn [Z.to_pos] in Shift. lia.
Qed.

Lemma shr_exact (q k e : Z) :
  0 < k -> shr (exactly (q * 2 ^ k)) e k = (exactly q, e + k).
Proof.
  intros K. destruct k as [|p|p]; try lia. unfold shr.
  rewrite iter_pos_nat. rewrite <- (positive_nat_Z p) at 1.
  rewrite iter_shr_1_exact. reflexivity.
Qed.

(** A mantissa already at its canonical exponent is kept as it is. *)
Lemma binary_round_aux_canonical (s : bool) (m : positive) (t : Z) :
  fexp prec emax (Zpos (digits2_pos m) + t) = t -> t <= emax - prec ->
  binary_round_aux prec emax s (Zpos m) t loc_Exact = S754_finite s m t.
Proof.
  intros Canon Top. unfold binary_round_aux, shr_fexp.
  cbn [Zdigits2]. rewrite Canon, Z.sub_diag.
  cbn [shr shr_record_of_loc shr_m loc_of_shr_record round_nearest_even].
  cbn [Zdigits2]. rewrite Canon, Z.sub_diag.
  cbn [shr shr_record_of_loc shr_m].
  destruct (Z.leb_spec t (emax - prec)) as [_|Bad]; [reflexivity|lia].
Qed.

(** A mantissa with too many digits for its exponent is shifted right
    to the canonical one; nothing is lost when the shifted-out digits
    are zeros. *)
Lemma binary_round_aux_shift (s : bool) (m q : positive) (e t : Z) :
  e < t -> Zpos m = Zpos q * 2 ^ (t - e) ->
  fexp prec emax (Zpos (digits2_pos m) + e) = t -> t <= emax - prec ->
  binary_round_aux prec emax s (Zpos m) e loc_Exact = S754_finite s q t.
Proof.
  intros Shift Split Canon Top.
  destruct (digits_shift_right m (Zpos q) (t - e)) as [_ Digits]; [lia|exact Split|].
  cbn [Z.to_pos] in Digits.
  assert (Canon' : fexp prec emax (Zpos (digits2_pos q) + t) = t).
  { rewrite Digits. replace (Zpos (digits2_pos m) - (t - e) + t)
      with (Zpos (digits2_pos m) + e) by lia. exact Canon. }
  unfold binary_round_aux, shr_fexp.
  cbn [Zdigits2]. rewrite Canon.
  change (shr_record_of_loc (Zpos m) loc_Exact) with (exactly (Zpos m)).
  rewrite Split, shr_exact by lia.
  replace (e + (t - e)) with t by lia.
  cbn [exactly shr_m loc_of_shr_record round_nearest_even].
  cbn [Zdigits2]. rewrite Canon', Z.sub_diag.
  cbn [shr shr_record_of_loc shr_m].
  destruct (Z.leb_spec t (emax - prec)) as [_|Bad]; [reflexivity|lia].
Qed.

Lemma isValue_whole (m e V : Z) : isValue m e V -> wholeZ m e.
Proof.
  intros [[Up _]|[Down Split]]; [left; exact Up|right].
  split; [exact Down|]. exists V. exact Split.
Qed.

Lemma isValue_sign (m e V : Z) : isValue m e V -> (0 < m <-> 0 < V).
Proof.
  intros [[Up ->]|[Down ->]].
  - pose proof (pow2_pos e Up). nia.
  - pose proof (pow2_pos (- e)). assert (0 < 2 ^ (- e)) by (apply H; lia). nia.
Qed.

Lemma isValue_opp (m e V : Z) : isValue m e V -> isValue (- m) e (- V).
Proof.
  intros [[Up ->]|[Down ->]]; [left|right]; split; try assumption; ring.
Qed.

Lemma isValue_add (a b e Va Vb : Z) :
  isValue a e Va -> isValue b e Vb -> isValue (a + b) e (Va + Vb).
Proof.
  intros [[Up ->]|[Down ->]] [[Up' ->]|[Down' ->]]; try lia;
    [left|right]; split; try assumption; ring.
Qed.

(** Moving a mantissa to a lower exponent keeps its value. *)
Lemma isValue_lower (m e t V : Z) :
  t <= e -> isValue m e V -> isValue (m * 2 ^ (e - t)) t V.
Proof.
  intros Le [[Up ->]|[Down ->]].
  - destruct (Z.leb_spec 0 t) as [T|T]; [left|right]; split; try assumption.
    + rewrite <- Z.mul_assoc, <- pow2_split by lia.
      replace (e - t + t) with e by lia. reflexivity.
    + rewrite <- !Z.mul_assoc, <- pow2_split by lia.
      replace (e + - t) with (e - t) by lia. reflexivity.
  - right. split; [lia|].
    rewrite <- !Z.mul_assoc, <- pow2_split by lia.
    replace (- e + (e - t)) with (- t) by lia. reflexivity.
Qed.

(** Digits and exponent together are bounded by the value. *)
Lemma isValue_magnitude (p : positive) (e V : Z) :
  isValue (Zpos p) e V ->
  2 ^ (Zpos (digits2_pos p) + e - 1) <= V < 2 ^ (Zpos (digits2_pos p) + e) /\
  1 <= Zpos (digits2_pos p) + e.
Proof.
  intros Val. pose proof (digits2_pos_bounds p) as [L H].
  pose proof (Pos2Z.is_pos (digits2_pos p)) as DP.
  set (d := Zpos (digits2_pos p)) in *.
  destruct Val as [[Up ->]|[Down Split]].
  - pose proof (pow2_pos e Up) as P.
    replace (d + e - 1) with (d - 1 + e) by lia.
    rewrite !pow2_split by lia. split; [nia|lia].
  - pose proof (pow2_pos (- e)) as P. assert (0 < 2 ^ (- e)) as P' by (apply P; lia).
    assert (Pos : 0 < V) by nia.
    assert (D : 1 <= d + e).
    { destruct (Z.le_gt_cases 1 (d + e)) as [Ok|Small]; [exact Ok|exfalso].
      assert (2 ^ d <= 2 ^ (- e)) by (apply Z.pow_le_mono_r; lia). nia. }
    split; [|exact D].
    replace (2 ^ (d - 1)) with (2 ^ (d + e - 1) * 2 ^ (- e)) in L
      by (rewrite <- pow2_split by lia; f_equal; lia).
    replace (2 ^ d) with (2 ^ (d + e) * 2 ^ (- e)) in H
      by (rewrite <- pow2_split by lia; f_equal; lia).
    nia.
Qed.

Lemma canonical_exponent (D : Z) :
  1 <= D <= 53 ->
  -1074 <= fexp prec emax D <= 0 /\ fexp prec emax D <= emax - prec.
Proof.
  intros Range. unfold fexp, emin. change prec with 53. change emax with 1024. lia.
Qed.

(** Rounding a whole number below 2^53 changes its representation, not
    its value. *)
Lemma binary_round_value (s : bool) (m : positive) (e V : Z) :
  isValue (Zpos m) e V -> V < 2 ^ 53 ->
  exists m' t,
    binary_round prec emax s m e = S754_finite s m' t /\ isValue (Zpos m') t V.
Proof.
  intros Val Small.
  destruct (isValue_magnitude m e V Val) as [[Low High] One].
  pose proof (proj1 (isValue_sign _ _ _ Val) (Pos2Z.is_pos m)) as Pos.
  set (D := Zpos (digits2_pos m) + e) in *.
  assert (Fits : D <= 53).
  { destruct (Z.le_gt_cases D 53) as [Ok|Big]; [exact Ok|exfalso].
    assert (2 ^ 53 <= 2 ^ (D - 1)) by (apply Z.pow_le_mono_r; lia). lia. }
  destruct (canonical_exponent D (conj One Fits)) as [[Floor Zero] Top].
  unfold binary_round. fold D.
  remember (fexp prec emax D) as t eqn:T.
  unfold shl_align. destruct (t - e) as [|k|k] eqn:Diff.
  - assert (e = t) as E by lia.
    rewrite binary_round_aux_canonical.
    + exists m, e. split; [reflexivity|exact Val].
    + fold D. congruence.
    + lia.
  - assert (Less : e < t) by lia.
    destruct Val as [[Up _]|[Down Split]]; [lia|].
    assert (Q : 0 < V * 2 ^ (- t)) by (pose proof (pow2_pos (- t)); nia).
    rewrite (binary_round_aux_shift s m (Z.to_pos (V * 2 ^ (- t))) e t).
    + exists (Z.to_pos (V * 2 ^ (- t))), t. split; [reflexivity|].
      rewrite Z2Pos.id by exact Q.
      destruct (Z.eq_dec t 0) as [T0|TN]; [left|right]; split; try lia.
      rewrite T0. cbn. lia.
    + exact Less.
    + rewrite Z2Pos.id by exact Q. rewrite Split.
      rewrite <- Z.mul_assoc, <- pow2_split by lia.
      replace (- t + (t - e)) with (- e) by lia. reflexivity.
    + fold D. congruence.
    + exact Top.
  - assert (Less : t < e) by lia.
    assert (Shifted : Zpos (Pos.iter xO m k) = Zpos m * 2 ^ (e - t)).
    { rewrite iter_xO. do 2 f_equal. lia. }
    rewrite binary_round_aux_canonical.
    + exists (Pos.iter xO m k), t. split; [reflexivity|].
      rewrite Shifted. apply isValue_lower; [lia|exact Val].
    + replace (Pos.iter xO m k) with (Z.to_pos (Zpos m * 2 ^ (e - t)))
        by (rewrite <- Shifted; reflexivity).
      rewrite digits_shift_left by lia.
      replace (Zpos (digits2_pos m) + (e - t) + t) with D by (unfold D; lia).
      congruence.
    + exact Top.
Qed.

Lemma isValue_zero (e V : Z) : isValue 0 e V -> V = 0.
Proof.
  intros [[Up ->]|[Down Split]]; [lia|].
  pose proof (pow2_pos (- e)) as P. assert (0 < 2 ^ (- e)) by (apply P; lia). nia.
Qed.

Lemma binary_normalize_value (M E V : Z) (szero : bool) :
  isValue M E V -> Z.abs V < 2 ^ 53 ->
  hasValue (binary_normalize prec emax M E szero) V.
Proof.
  intros Val Small. unfold binary_normalize. destruct M as [|m|m].
  - apply isValue_zero in Val. exact Val.
  - pose proof (proj1 (isValue_sign _ _ _ Val) (Pos2Z.is_pos m)) as Pos.
    destruct (binary_round_value false m E V Val) as (m' & t & -> & Val'); [lia|].
    exact Val'.
  - apply isValue_opp in Val. cbn [Z.opp] in Val.
    pose proof (proj1 (isValue_sign _ _ _ Val) (Pos2Z.is_pos m)) as Pos.
    destruct (binary_round_value true m E (- V) Val) as (m' & t & -> & Val'); [lia|].
    cbn [hasValue cond_Zopp]. apply isValue_opp in Val'.
    rewrite Z.opp_involutive in Val'. exact Val'.
Qed.

Lemma aligned_value (s : bool) (m : positive) (e ez V : Z) :
  ez <= e -> isValue (cond_Zopp s (Zpos m)) e V ->
  isValue (cond_Zopp s (Zpos (fst (shl_align m e ez)))) ez V.
Proof.
  intros Le Val. unfold shl_align. destruct (ez - e) as [|d|d] eqn:Diff; cbn [fst].
  - replace ez with e by lia. exact Val.
  - lia.
  - rewrite iter_xO. replace (Zpos d) with (e - ez) by lia.
    replace (cond_Zopp s (Zpos m * 2 ^ (e - ez)))
      with (cond_Zopp s (Zpos m) * 2 ^ (e - ez)) by (destruct s; cbn [cond_Zopp]; ring).
    apply isValue_lower; assumption.
Qed.

Lemma cond_Zopp_opp (s : bool) (m : Z) : - cond_Zopp s m = cond_Zopp (negb s) m.
Proof. destruct s; cbn; lia. Qed.

(** Sums and differences of whole numbers are exact as long as the
    result stays below 2^53. *)
Lemma SFadd_value (x y : spec_float) (Vx Vy : Z) :
  hasValue x Vx -> hasValue y Vy -> Z.abs (Vx + Vy) < 2 ^ 53 ->
  hasValue (SFadd prec emax x y) (Vx + Vy).
Proof.
  destruct x as [sx|sx| |sx mx ex]; try contradiction;
    destruct y as [sy|sy| |sy my ey]; try contradiction; cbn [hasValue];
    intros Hx Hy Small.
  - subst. cbn. destruct sx, sy; reflexivity.
  - subst. cbn [SFadd hasValue]. exact Hy.
  - subst. cbn [SFadd hasValue]. rewrite Z.add_0_r. exact Hx.
  - cbn [SFadd]. apply binary_normalize_value; [|exact Small].
    apply isValue_add; apply aligned_value; try lia; assumption.
Qed.

Lemma SFsub_value (x y : spec_float) (Vx Vy : Z) :
  hasValue x Vx -> hasValue y Vy -> Z.abs (Vx - Vy) < 2 ^ 53 ->
  hasValue (SFsub prec emax x y) (Vx - Vy).
Proof.
  destruct x as [sx|sx| |sx mx ex]; try contradiction;
    destruct y as [sy|sy| |sy my ey]; try contradiction; cbn [hasValue];
    intros Hx Hy Small.
  - subst. cbn. destruct sx, sy; reflexivity.
  - subst. cbn [SFsub hasValue]. rewrite <- cond_Zopp_opp.
    apply isValue_opp in Hy. exact Hy.
  - subst. cbn [SFsub hasValue]. rewrite Z.sub_0_r. exact Hx.
  - cbn [SFsub]. apply binary_normalize_value; [|exact Small].
    rewrite <- !Z.add_opp_r. apply isValue_add; [|apply isValue_opp];
      apply aligned_value; try lia; assumption.
Qed.

Lemma canonical (x : float) (s : bool) (m : positive) (e : Z) :
  Prim2SF x = S754_finite s m e ->
  fexp prec emax (Zpos (digits2_pos m) + e) = e.
Proof.
  intros Shape. pose proof (Prim2SF_valid x) as Valid. rewrite Shape in Valid.
  unfold SpecFloat.valid_binary, bounded, canonical_mantissa in Valid.
  apply andb_prop in Valid. destruct Valid as [Canon _].
  apply Z.eqb_eq in Canon. exact Canon.
Qed.

Lemma magnitude_unique (V D1 D2 : Z) :
  2 ^ (D1 - 1) <= V < 2 ^ D1 -> 2 ^ (D2 - 1) <= V < 2 ^ D2 ->
  1 <= D1 -> 1 <= D2 -> D1 = D2.
Proof.
  intros [L1 H1] [L2 H2] One1 One2.
  destruct (Z.lt_trichotomy D1 D2) as [Lt|[Eq|Gt]]; [|exact Eq|].
  - assert (2 ^ D1 <= 2 ^ (D2 - 1)) by (apply Z.pow_le_mono_r; lia). lia.
  - assert (2 ^ D2 <= 2 ^ (D1 - 1)) by (apply Z.pow_le_mono_r; lia). lia.
Qed.

(** Two binary64 values of one positive whole value have one
    representation. *)
Lemma representation_unique (a b : float) (s t : bool) (m n : positive)
    (e f W : Z) :
  Prim2SF a = S754_finite s m e -> Prim2SF b = S754_finite t n f ->
  isValue (Zpos m) e W -> isValue (Zpos n) f W -> m = n /\ e = f.
Proof.
  intros ShapeA ShapeB ValA ValB.
  destruct (isValue_magnitude m e W ValA) as [MagA OneA].
  destruct (isValue_magnitude n f W ValB) as [MagB OneB].
  pose proof (magnitude_unique _ _ _ MagA MagB OneA OneB) as Same.
  pose proof (canonical a s m e ShapeA) as CanonA.
  pose proof (canonical b t n f ShapeB) as CanonB.
  rewrite Same in CanonA. assert (e = f) as E by congruence.
  split; [|exact E]. subst f.
  destruct ValA as [[Up EqA]|[Down EqA]]; destruct ValB as [[Up' EqB]|[Down' EqB]];
    try lia.
  pose proof (pow2_pos e Up). apply Pos2Z.inj. nia.
Qed.

Lemma hasValue_sign (s : bool) (m : positive) (e V : Z) :
  hasValue (S754_finite s m e) V ->
  isValue (Zpos m) e (Z.abs V) /\ (if s then V < 0 else 0 < V).
Proof.
  cbn [hasValue]. intros Val. destruct s; cbn [cond_Zopp] in Val.
  - apply isValue_opp in Val. cbn [Z.opp] in Val.
    pose proof (proj1 (isValue_sign _ _ _ Val) (Pos2Z.is_pos m)) as Pos.
    split; [|lia]. replace (Z.abs V) with (- V) by lia. exact Val.
  - pose proof (proj1 (isValue_sign _ _ _ Val) (Pos2Z.is_pos m)) as Pos.
    split; [|lia]. replace (Z.abs V) with V by lia. exact Val.
Qed.

(** Go's [==] holds between two binary64 values of one whole value. *)
Lemma same_value_eqb (a b : float) (V : Z) :
  hasValue (Prim2SF a) V -> hasValue (Prim2SF b) V -> (a =? b)%float = true.
Proof.
  rewrite eqb_spec.
  destruct (Prim2SF a) as [s|s| |s m e] eqn:ShapeA; try contradiction;
    destruct (Prim2SF b) as [t|t| |t n f] eqn:ShapeB; try contradiction;
    intros ValA ValB.
  - destruct s, t; reflexivity.
  - cbn [hasValue] in ValA. apply hasValue_sign in ValB. destruct t; lia.
  - cbn [hasValue] in ValB. apply hasValue_sign in ValA. destruct s; lia.
  - apply hasValue_sign in ValA. apply hasValue_sign in ValB.
    destruct ValA as [ValA SignA]. destruct ValB as [ValB SignB].
    destruct (representation_unique a b s t m n e f _ ShapeA ShapeB ValA ValB)
      as [-> ->].
    assert (s = t) as -> by (destruct s, t; lia || reflexivity).
    rewrite SFeqb_refl. reflexivity.
Qed.

Lemma Prim2SF_two52 :
  Prim2SF 4503599627370496 = S754_finite false 4503599627370496 0.
Proof. reflexivity. Qed.

Lemma wholeCount_value (x : float) :
  wholeCount x = true ->
  exists V, hasValue (Prim2SF x) V /\ Z.abs V < 2 ^ 52.
Proof.
  unfold wholeCount, integerValued. intros Count.
  apply andb_prop in Count. destruct Count as [Whole Below].
  rewrite ltb_spec, abs_spec, Prim2SF_two52 in Below.
  destruct (Prim2SF x) as [s|s| |s m e] eqn:Shape; try discriminate.
  - exists 0. split; [reflexivity|cbn; lia].
  - destruct (finite_bounds x _ _ _ Shape) as (Range & Size & _).
    apply wholeSF_finite_inv in Whole.
    assert (Val : exists V0, isValue (Zpos m) e V0 /\ 0 <= V0 < 2 ^ 52).
    { cbn [SFabs] in Below. unfold SFltb, SFcompare in Below.
      destruct (Z.compare_spec e 0) as [E|L|G]; try discriminate.
      - rewrite Pos.compare_cont_spec in Below. cbn [Pos.switch_Eq] in Below.
        destruct (Pos.compare_spec m 4503599627370496) as [_|L|_]; try discriminate.
        assert (Small : Zpos m < 4503599627370496) by exact L. clear L.
        exists (Zpos m). split.
        { left. split; [lia|]. rewrite E, Z.pow_0_r. lia. }
        change (2 ^ 52) with 4503599627370496. lia.
      - destruct Whole as [Up|[_ [k K]]]; [lia|].
        exists k. split; [right; split; [exact L|exact K]|].
        assert (2 ^ 1 <= 2 ^ (- e)) by (apply Z.pow_le_mono_r; lia).
        change (2 ^ 1) with 2 in *. change (2 ^ 53) with (2 * 2 ^ 52) in Size. nia. }
    destruct Val as (V0 & Val & Bound).
    exists (cond_Zopp s V0). split.
    + cbn [hasValue]. destruct s; cbn [cond_Zopp]; [apply isValue_opp|]; exact Val.
    + destruct s; cbn [cond_Zopp]; lia.
Qed.

(** Taking a whole count away and adding it back gives the count again,
    exactly. *)
Lemma sub_add_exact (s n : float) :
  wholeCount s = true -> wholeCount n = true ->
  (s - n + n =? s)%float = true.
Proof.
  intros CountS CountN.
  destruct (wholeCount_value s CountS) as (Vs & ValS & BoundS).
  destruct (wholeCount_value n CountN) as (Vn & ValN & BoundN).
  change (2 ^ 52) with 4503599627370496 in *.
  assert (Diff : hasValue (Prim2SF (s - n)) (Vs - Vn)).
  { rewrite sub_spec. apply SFsub_value; try assumption.
    change (2 ^ 53) with 9007199254740992. lia. }
  assert (Back : hasValue (Prim2SF (s - n + n)) (Vs - Vn + Vn)).
  { rewrite add_spec. apply SFadd_value; try assumption.
    change (2 ^ 53) with 9007199254740992. lia. }
  replace (Vs - Vn + Vn) with Vs in Back by lia.
  exact (same_value_eqb _ _ _ Back ValS).
Qed.



(** ** Whole share counts *)

Lemma Calculate_net_shares (c : Calculator.t) (input : Input.t) :
  Result.NetShares (Calculate c input) =
  (Input.ExercisedShares input - Result.SharesToSell (Calculate c input))%float.
Proof. rewrite Calculate_cases. destruct (stableAt c input); project. Qed.

Lemma CalculateRSU_net_shares (c : Calculator.t) (input : RSUInput.t) :
  RSUResult.NetShares (CalculateRSU c input) =
  (RSUInput.SharesReleased input - RSUResult.SharesToSell (CalculateRSU c input))%float.
Proof. rewrite CalculateRSU_cases. destruct (stableAtRSU c input); project. Qed.

Lemma recordedRSU_shares (c : Calculator.t) (result : RSUResult.t)
    (input : RSUInput.t) (n : float) :
  RSUResult.SharesToSell (finishRSU input n (recordedRSU c input result n)) = n.
Proof. project. Qed.

Lemma unrecordedRSU_shares (c : Calculator.t) (input : RSUInput.t) (k : float) :
  RSUResult.SharesToSell (finishRSU input k (taxLinesRSU c input)) = 0%float.
Proof. project. Qed.

(** The share count either solver reports is a whole number or an
    infinity. *)
Lemma Calculate_shares_whole (c : Calculator.t) (input : Input.t) :
  integerValued (Result.SharesToSell (Calculate c input)) = true \/
  Result.SharesToSell (Calculate c input) = infinity \/
  Result.SharesToSell (Calculate c input) = neg_infinity.
Proof.
  rewrite Calculate_cases. destruct (stableAt c input) as [n|] eqn:Stable.
  - rewrite recorded_shares. rewrite stableAt_eq in Stable.
    pose proof (fixedPoint_stable c _ _ _ _ _ Stable) as Fix.
    rewrite iteration_new in Fix. unfold integerValued.
    revert Fix. generalize (snd (fst (iteration c (taxLines c input) input n))
                            / Input.FMV input)%float.
    intros t Fix. exact (ceiling_value t n Fix).
  - rewrite unrecorded_shares. left. reflexivity.
Qed.

Lemma CalculateRSU_shares_whole (c : Calculator.t) (input : RSUInput.t) :
  integerValued (RSUResult.SharesToSell (CalculateRSU c input)) = true \/
  RSUResult.SharesToSell (CalculateRSU c input) = infinity \/
  RSUResult.SharesToSell (CalculateRSU c input) = neg_infinity.
Proof.
  rewrite CalculateRSU_cases. destruct (stableAtRSU c input) as [n|] eqn:Stable.
  - rewrite recordedRSU_shares. rewrite stableAtRSU_eq in Stable.
    pose proof (fixedPointRSU_stable c _ _ _ _ _ Stable) as Fix.
    rewrite iterationRSU_new in Fix. unfold integerValued.
    revert Fix. generalize (snd (fst (iterationRSU c (taxLinesRSU c input) input n))
                            / RSUInput.SalePrice input)%float.
    intros t Fix. exact (ceiling_value t n Fix).
  - rewrite unrecordedRSU_shares. left. reflexivity.
Qed.

Lemma below_wholeCount (n : float) :
  integerValued n = true \/ n = infinity \/ n = neg_infinity ->
  (abs n <? 4503599627370496)%float = true -> wholeCount n = true.
Proof.
  intros [Whole|[Inf|Inf]] Below.
  - unfold wholeCount. rewrite Whole, Below. reflexivity.
  - subst n. vm_compute in Below. discriminate Below.
  - subst n. vm_compute in Below. discriminate Below.
Qed.

(** X1: when the exercised share count is a whole number below 2^52 and the
    reported SharesToSell is below 2^52 in magnitude, Calculate returns
    NetShares + SharesToSell == ExercisedShares: taking the shares sold
    away from a whole count and adding them back loses nothing. *)
Theorem Calculate_whole_shares_balance (c : Calculator.t) (input : Input.t) :
  wholeCount (Input.ExercisedShares input) = true ->
  (abs (Result.SharesToSell (Calculate c input)) <? 4503599627370496)%float = true ->
  (Result.NetShares (Calculate c input) + Result.SharesToSell (Calculate c input)
   =? Input.ExercisedShares input)%float = true.
Proof.
  intros Shares Below. rewrite Calculate_net_shares.
  pose proof (below_wholeCount _ (Calculate_shares_whole c input) Below) as Sold.
  revert Sold. generalize (Result.SharesToSell (Calculate c input)). intros n Sold.
  apply sub_add_exact; assumption.
Qed.

Lemma Calculate_whole_shares_balance_witness :
  (Result.NetShares (Calculate NewDefaultCalculator specExample)
   + Result.SharesToSell (Calculate NewDefaultCalculator specExample)
   =? Input.ExercisedShares specExample)%float = true.
Proof.
  apply (Calculate_whole_shares_balance NewDefaultCalculator specExample);
    vm_compute; reflexivity.
Defined.

(** X2: the same for a release: with a whole number of shares released
    below 2^52 and a reported SharesToSell below 2^52 in magnitude,
    CalculateRSU returns NetShares + SharesToSell == SharesReleased. *)
Theorem CalculateRSU_whole_shares_balance (c : Calculator.t) (input : RSUInput.t) :
  wholeCount (RSUInput.SharesReleased input) = true ->
  (abs (RSUResult.SharesToSell (CalculateRSU c input)) <? 4503599627370496)%float = true ->
  (RSUResult.NetShares (CalculateRSU c input)
   + RSUResult.SharesToSell (CalculateRSU c input)
   =? RSUInput.SharesReleased input)%float = true.
Proof.
  intros Shares Below. rewrite CalculateRSU_net_shares.
  pose proof (below_wholeCount _ (CalculateRSU_shares_whole c input) Below) as Sold.
  revert Sold. generalize (RSUResult.SharesToSell (CalculateRSU c input)). intros n Sold.
  apply sub_add_exact; assumption.
Qed.

Lemma CalculateRSU_whole_shares_balance_witness :
  (RSUResult.NetShares (CalculateRSU NewDefaultCalculator release)
   + RSUResult.SharesToSell (CalculateRSU NewDefaultCalculator release)
   =? RSUInput.SharesReleased release)%float = true.
Proof.
  apply (CalculateRSU_whole_shares_balance NewDefaultCalculator release);
    vm_compute; reflexivity.
Defined.





(** ** A price that is no number *)

Lemma IsNaN_value (x : float) : GoMath.IsNaN x = true -> x = nan.
Proof.
  rewrite IsNaN_shape. intros Shape. apply Prim2SF_inj.
  destruct (Prim2SF x); try discriminate Shape. reflexivity.
Qed.

Lemma div_nan (x : float) : (x / nan)%float = nan.
Proof.
  apply Prim2SF_inj. rewrite div_spec.
  change (Prim2SF nan) with S754_nan. destruct (Prim2SF x); reflexivity.
Qed.

Lemma nan_eqb (n : float) : (nan =? n)%float = false.
Proof. rewrite eqb_spec. reflexivity. Qed.

Lemma Ceil_nan : GoMath.Ceil nan = nan.
Proof. vm_compute. reflexivity. Qed.

Lemma fixedPoint_nan (c : Calculator.t) (input : Input.t) (fuel : nat) :
  Input.FMV input = nan ->
  forall (n : float) (result : Result.t),
    fixedPoint c fuel input n result = None.
Proof.
  intros Price. induction fuel as [|fuel IH]; intros n result; [reflexivity|].
  cbn [fixedPoint].
  destruct (iteration c result input n) as [[[comm fee] total] new] eqn:E.
  assert (New : new = nan).
  { change new with (snd (comm, fee, total, new)). rewrite <- E.
    rewrite iteration_new, Price, div_nan. exact Ceil_nan. }
  rewrite New, nan_eqb. apply IH.
Qed.

Lemma fixedPointRSU_nan (c : Calculator.t) (input : RSUInput.t) (fuel : nat) :
  RSUInput.SalePrice input = nan ->
  forall (n : float) (result : RSUResult.t),
    fixedPointRSU c fuel input n result = None.
Proof.
  intros Price. induction fuel as [|fuel IH]; intros n result; [reflexivity|].
  cbn [fixedPointRSU].
  destruct (iterationRSU c result input n) as [[[[gross comm] fees] total] new] eqn:E.
  assert (New : new = nan).
  { change new with (snd (gross, comm, fees, total, new)). rewrite <- E.
    rewrite iterationRSU_new, Price, div_nan. exact Ceil_nan. }
  rewrite New, nan_eqb. apply IH.
Qed.

Lemma unrecorded_fees (c : Calculator.t) (input : Input.t) :
  Result.BrokerFees (finish input (taxLines c input)) = 0%float.
Proof. project. Qed.

Lemma unrecorded_proceeds (c : Calculator.t) (input : Input.t) :
  Result.EstGrossProceeds (finish input (taxLines c input)) =
  (0 * Input.FMV input)%float.
Proof. project. Qed.

Lemma unrecorded_residual (c : Calculator.t) (input : Input.t) :
  Result.Residual (finish input (taxLines c input)) =
  (0 * Input.FMV input - 0)%float.
Proof. project. Qed.

(** X3: with an FMV that is NaN the loop of Calculate never meets its
    stability test, under any configuration: the result is left with
    SharesToSell, BrokerFees and TotalCosts at zero, and the proceeds
    and the residual computed after the loop are NaN. *)
Theorem Calculate_price_not_a_number (c : Calculator.t) (input : Input.t) :
  GoMath.IsNaN (Input.FMV input) = true ->
  let r := Calculate c input in
  stableAt c input = None /\
  Result.SharesToSell r = 0%float /\
  Result.BrokerFees r = 0%float /\
  Result.TotalCosts r = 0%float /\
  GoMath.IsNaN (Result.EstGrossProceeds r) = true /\
  GoMath.IsNaN (Result.Residual r) = true.
Proof.
  intros NoNumber. apply IsNaN_value in NoNumber. cbv zeta.
  assert (Unstable : stableAt c input = None).
  { rewrite stableAt_eq. apply fixedPoint_nan. exact NoNumber. }
  rewrite Calculate_cases, Unstable.
  rewrite unrecorded_shares, unrecorded_fees, unrecorded_total,
    unrecorded_proceeds, unrecorded_residual, NoNumber.
  repeat apply conj; try reflexivity; vm_compute; reflexivity.
Qed.

Lemma Calculate_price_not_a_number_witness :
  Result.SharesToSell (Calculate NewDefaultCalculator (Input.mk 10 100 nan)) = 0%float.
Proof.
  apply (Calculate_price_not_a_number NewDefaultCalculator (Input.mk 10 100 nan)).
  vm_compute. reflexivity.
Defined.

Lemma mul_nan (x : float) : (x * nan)%float = nan.
Proof.
  apply Prim2SF_inj. rewrite mul_spec.
  change (Prim2SF nan) with S754_nan. destruct (Prim2SF x); reflexivity.
Qed.

Lemma unrecordedRSU_fields (c : Calculator.t) (input : RSUInput.t) (k : float) :
  let r := finishRSU input k (taxLinesRSU c input) in
  RSUResult.SharesToSell r = 0%float /\
  RSUResult.BrokerCommission r = 0%float /\
  RSUResult.TotalFees r = 0%float /\
  RSUResult.TotalCosts r = 0%float /\
  RSUResult.EstGrossProceeds r = 0%float /\
  RSUResult.Residual r = (k * RSUInput.SalePrice input - 0)%float.
Proof. cbv zeta. repeat apply conj; project. Qed.

(** X4: with a sale price that is NaN the loop of CalculateRSU never
    meets its stability test: SharesToSell, BrokerCommission, TotalFees,
    TotalCosts and EstGrossProceeds stay zero and the Residual is NaN. *)
Theorem CalculateRSU_price_not_a_number (c : Calculator.t) (input : RSUInput.t) :
  GoMath.IsNaN (RSUInput.SalePrice input) = true ->
  let r := CalculateRSU c input in
  stableAtRSU c input = None /\
  RSUResult.SharesToSell r = 0%float /\
  RSUResult.BrokerCommission r = 0%float /\
  RSUResult.TotalFees r = 0%float /\
  RSUResult.TotalCosts r = 0%float /\
  RSUResult.EstGrossProceeds r = 0%float /\
  GoMath.IsNaN (RSUResult.Residual r) = true.
Proof.
  intros NoNumber. apply IsNaN_value in NoNumber. cbv zeta.
  assert (Unstable : stableAtRSU c input = None).
  { rewrite stableAtRSU_eq. apply fixedPointRSU_nan. exact NoNumber. }
  rewrite CalculateRSU_cases, Unstable. split; [reflexivity|].
  generalize (sharesAfterRSU c maxIterations input
                (initialGuessRSU (taxLinesRSU c input) input) (taxLinesRSU c input)).
  intros k. pose proof (unrecordedRSU_fields c input k) as Fields. cbv zeta in Fields.
  destruct Fields as (Sell & Commission & Fees & Costs & Proceeds & Residual).
  rewrite Sell, Commission, Fees, Costs, Proceeds, Residual, NoNumber, mul_nan.
  repeat apply conj; try reflexivity.
Qed.

Lemma CalculateRSU_price_not_a_number_witness :
  RSUResult.SharesToSell (CalculateRSU NewDefaultCalculator (RSUInput.mk 100 50 nan))
  = 0%float.
Proof.
  apply (CalculateRSU_price_not_a_number NewDefaultCalculator (RSUInput.mk 100 50 nan)).
  vm_compute. reflexivity.
Defined.



(** ** The minimum fee *)

Lemma SFcompare_antisym (x y : spec_float) :
  SFcompare y x = option_map CompOpp (SFcompare x y).
Proof.
  destruct x as [s|s| |s m e]; destruct y as [t|t| |t n f];
    try reflexivity; try (destruct s; reflexivity); try (destruct t; reflexivity);
    try (destruct s, t; reflexivity).
  unfold SFcompare, option_map.
  pose proof (Pos.compare_cont_antisym m n Eq) as Swap. cbn [CompOpp] in Swap.
  destruct s, t; try reflexivity; rewrite (Z.compare_antisym e f);
    destruct (e ?= f); cbn [CompOpp]; try reflexivity;
    rewrite Swap; reflexivity.
Qed.

Lemma SFleb_refl (x : spec_float) :
  SFleb x x = match x with S754_nan => false | _ => true end.
Proof.
  destruct x as [s|s| |s m e]; try destruct s; try reflexivity;
    unfold SFleb, SFcompare; rewrite Z.compare_refl, Pos.compare_cont_refl; reflexivity.
Qed.

Lemma SFltb_leb (x y : spec_float) : SFltb y x = true -> SFleb y x = true.
Proof.
  unfold SFltb, SFleb. destruct (SFcompare y x) as [[ | | ]|]; try discriminate; reflexivity.
Qed.

Lemma SFleb_total (x y : spec_float) :
  x <> S754_nan -> y <> S754_nan -> SFltb y x = false -> SFleb x y = true.
Proof.
  intros X Y. unfold SFltb, SFleb. rewrite (SFcompare_antisym x y).
  destruct x as [s|s| |s m e]; try congruence;
    destruct y as [t|t| |t n f]; try congruence;
    destruct (SFcompare _ _) as [[ | | ]|] eqn:Order; cbn; try discriminate;
    try reflexivity; cbn in Order; discriminate Order.
Qed.

Lemma SFleb_infinity (x : spec_float) :
  x <> S754_nan -> SFleb x (S754_infinity false) = true.
Proof. destruct x as [s|s| |s m e]; try congruence; destruct s; reflexivity. Qed.

Lemma not_nan_shape (x : float) : GoMath.IsNaN x = false -> Prim2SF x <> S754_nan.
Proof. rewrite IsNaN_shape. intros Shape Nan. rewrite Nan in Shape. discriminate. Qed.

(** Go's [math.Max] is not below either argument, when neither is NaN. *)
Lemma Max_bounds (x y : float) :
  GoMath.IsNaN x = false -> GoMath.IsNaN y = false ->
  (x <=? GoMath.Max x y)%float = true /\ (y <=? GoMath.Max x y)%float = true.
Proof.
  intros X Y. unfold GoMath.Max. rewrite X, Y. cbn [orb].
  pose proof (not_nan_shape x X) as ShapeX. pose proof (not_nan_shape y Y) as ShapeY.
  assert (ReflX : (x <=? x)%float = true).
  { rewrite leb_spec, SFleb_refl. destruct (Prim2SF x); congruence. }
  assert (ReflY : (y <=? y)%float = true).
  { rewrite leb_spec, SFleb_refl. destruct (Prim2SF y); congruence. }
  destruct (GoMath.IsInf x 1 || GoMath.IsInf y 1).
  { rewrite !leb_spec. change (Prim2SF infinity) with (S754_infinity false).
    split; apply SFleb_infinity; assumption. }
  destruct ((x =? 0)%float && (x =? y)%float) eqn:Zeros.
  { apply andb_prop in Zeros. destruct Zeros as [ZeroX Same].
    rewrite eqb_zero in ZeroX. rewrite eqb_spec in Same.
    assert (Both : (x <=? y)%float = true /\ (y <=? x)%float = true).
    { rewrite !leb_spec.
      destruct (Prim2SF x) as [s|s| |s m e]; try discriminate ZeroX.
      destruct (Prim2SF y) as [t|t| |t n f]; try discriminate Same;
        try (destruct t; discriminate Same).
      split; reflexivity. }
    destruct (GoMath.Signbit x); tauto. }
  destruct (y <? x)%float eqn:Order.
  - split; [exact ReflX|]. rewrite ltb_spec in Order. rewrite leb_spec.
    apply SFltb_leb. exact Order.
  - split; [|exact ReflY]. rewrite ltb_spec in Order. rewrite leb_spec.
    apply SFleb_total; assumption.
Qed.

Lemma recorded_fees (c : Calculator.t) (result : Result.t)
    (input : Input.t) (n : float) :
  Result.BrokerFees (finish input (recorded c input result n)) =
  GoMath.Max (Result.BrokerCommission (finish input (recorded c input result n)))
    (BrokerFees.MinimumFee (Config.BrokerFees (Calculator.config c))).
Proof. project. Qed.

Lemma recordedRSU_commission (c : Calculator.t) (result : RSUResult.t)
    (input : RSUInput.t) (n k : float) :
  RSUResult.BrokerCommission (finishRSU input k (recordedRSU c input result n)) =
  GoMath.Max (n * BrokerFees.CommissionRate (Config.BrokerFees (Calculator.config c)))
    (BrokerFees.MinimumFee (Config.BrokerFees (Calculator.config c))).
Proof. project. Qed.

Lemma recorded_commission (c : Calculator.t) (result : Result.t)
    (input : Input.t) (n : float) :
  Result.BrokerCommission (finish input (recorded c input result n)) =
  (n * BrokerFees.CommissionRate (Config.BrokerFees (Calculator.config c)))%float.
Proof. project. Qed.

(** X5: on a result that Calculate recorded at the fixed point n,
    BrokerCommission is n * CommissionRate and the applied BrokerFees is
    below neither that commission nor the MinimumFee of the
    configuration, provided neither of the two is NaN. *)
Theorem minimum_fee_is_a_floor
    (c : Calculator.t) (input : Input.t) (n : float) :
  let fees := Config.BrokerFees (Calculator.config c) in
  let commission := (n * BrokerFees.CommissionRate fees)%float in
  stableAt c input = Some n ->
  GoMath.IsNaN commission = false ->
  GoMath.IsNaN (BrokerFees.MinimumFee fees) = false ->
  let r := Calculate c input in
  Result.BrokerCommission r = commission /\
  (Result.BrokerCommission r <=? Result.BrokerFees r)%float = true /\
  (BrokerFees.MinimumFee fees <=? Result.BrokerFees r)%float = true.
Proof.
  cbv zeta. intros Stable Commission Minimum.
  rewrite Calculate_cases, Stable, recorded_fees, recorded_commission.
  split; [reflexivity|]. apply Max_bounds; assumption.
Qed.

Lemma minimum_fee_is_a_floor_witness :
  (BrokerFees.MinimumFee (Config.BrokerFees (Calculator.config NewDefaultCalculator))
   <=? Result.BrokerFees (Calculate NewDefaultCalculator specExample))%float = true.
Proof.
  apply (minimum_fee_is_a_floor NewDefaultCalculator specExample 45%float);
    vm_compute; reflexivity.
Defined.

(** X6: on a result that CalculateRSU recorded at the fixed point n,
    BrokerCommission holds the applied fee max(n * CommissionRate,
    MinimumFee), which is below neither the commission nor the minimum
    fee, provided neither of the two is NaN. *)
Theorem minimum_fee_is_a_floor_RSU
    (c : Calculator.t) (input : RSUInput.t) (n : float) :
  let fees := Config.BrokerFees (Calculator.config c) in
  let commission := (n * BrokerFees.CommissionRate fees)%float in
  stableAtRSU c input = Some n ->
  GoMath.IsNaN commission = false ->
  GoMath.IsNaN (BrokerFees.MinimumFee fees) = false ->
  let r := CalculateRSU c input in
  RSUResult.BrokerCommission r = GoMath.Max commission (BrokerFees.MinimumFee fees) /\
  (commission <=? RSUResult.BrokerCommission r)%float = true /\
  (BrokerFees.MinimumFee fees <=? RSUResult.BrokerCommission r)%float = true.
Proof.
  cbv zeta. intros Stable Commission Minimum.
  rewrite CalculateRSU_cases, Stable, recordedRSU_commission.
  split; [reflexivity|]. apply Max_bounds; assumption.
Qed.

Lemma minimum_fee_is_a_floor_RSU_witness :
  (BrokerFees.MinimumFee (Config.BrokerFees (Calculator.config flatFeeCalculator))
   <=? RSUResult.BrokerCommission (CalculateRSU flatFeeCalculator release))%float = true.
Proof.
  apply (minimum_fee_is_a_floor_RSU flatFeeCalculator release 31%float);
    vm_compute; reflexivity.
Defined.


(** ** Taxes and fees are kept apart *)

Lemma taxPart_Calculate (c : Calculator.t) (input : Input.t) :
  taxPart (Calculate c input) = taxPart (taxLines c input).
Proof. rewrite Calculate_cases. destruct (stableAt c input); project. Qed.

Lemma taxPartRSU_CalculateRSU (c : Calculator.t) (input : RSUInput.t) :
  taxPartRSU (CalculateRSU c input) = taxPartRSU (taxLinesRSU c input).
Proof. rewrite CalculateRSU_cases. destruct (stableAtRSU c input); project. Qed.

Lemma taxLines_rates (rates : TaxRates.t) (fees fees' : BrokerFees.t) (input : Input.t) :
  taxLines (Calculator.mk (Config.mk rates fees)) input =
  taxLines (Calculator.mk (Config.mk rates fees')) input.
Proof. reflexivity. Qed.

Lemma taxLinesRSU_rates (rates : TaxRates.t) (fees fees' : BrokerFees.t)
    (shares vest sale sale' : float) :
  taxPartRSU (taxLinesRSU (Calculator.mk (Config.mk rates fees))
                (RSUInput.mk shares vest sale)) =
  taxPartRSU (taxLinesRSU (Calculator.mk (Config.mk rates fees'))
                (RSUInput.mk shares vest sale')).
Proof. reflexivity. Qed.

(** X7: the cost basis, the taxable gain, the five tax lines and the
    total tax that Calculate returns depend on the tax rates and the
    input only, not on the broker fees; those of CalculateRSU depend
    neither on the broker fees nor on the sale price. *)
Theorem taxes_ignore_broker_fees
    (rates : TaxRates.t) (fees fees' : BrokerFees.t) (input : Input.t)
    (shares vest sale sale' : float) :
  taxPart (Calculate (NewCalculator (Config.mk rates fees)) input) =
  taxPart (Calculate (NewCalculator (Config.mk rates fees')) input) /\
  taxPartRSU (CalculateRSU (NewCalculator (Config.mk rates fees))
                (RSUInput.mk shares vest sale)) =
  taxPartRSU (CalculateRSU (NewCalculator (Config.mk rates fees'))
                (RSUInput.mk shares vest sale')).
Proof.
  unfold NewCalculator. split.
  - rewrite !taxPart_Calculate, (taxLines_rates rates fees fees'). reflexivity.
  - rewrite !taxPartRSU_CalculateRSU.
    apply taxLinesRSU_rates.
Qed.

(** ** Sequences of calls *)

Lemma perform_config (call : Call) (c : Calculator.t) :
  Calculator.config (snd (perform call c)) =
  Config.mk (ratesAfter [call] (Config.TaxRates (Calculator.config c)))
            (feesAfter [call] (Config.BrokerFees (Calculator.config c))).
Proof. destruct c as [[rates fees]]. destruct call; reflexivity. Qed.

Lemma performAll_config (calls : list Call) :
  forall c : Calculator.t,
    Calculator.config (snd (performAll calls c)) =
    Config.mk (ratesAfter calls (Config.TaxRates (Calculator.config c)))
              (feesAfter calls (Config.BrokerFees (Calculator.config c))).
Proof.
  induction calls as [|call rest IH]; intros c; [destruct c as [[rates fees]]; reflexivity|].
  cbn [performAll]. unfold bind.
  pose proof (perform_config call c) as Step.
  destruct (perform call c) as [u c']. cbn [snd] in Step.
  rewrite IH, Step. destruct call; reflexivity.
Qed.

Lemma then_fst {A : Type} (m : Method unit) (k : Method A) (c : Calculator.t) :
  fst ((_ <- m ;; k) c) = fst (k (snd (m c))).
Proof. unfold bind. destruct (m c) as [u c']. reflexivity. Qed.

Lemma GetConfig_fst (c : Calculator.t) : fst (GetConfig c) = Calculator.config c.
Proof. reflexivity. Qed.

Lemma CalculateM_fst (input : Input.t) (c : Calculator.t) :
  fst (CalculateM input c) = Calculate (Calculator.mk (Calculator.config c)) input.
Proof. reflexivity. Qed.

(** X8: after any sequence of calls on a calculator, GetConfig returns the
    tax rates of the last UpdateTaxRates in the sequence and the broker
    fees of the last UpdateBrokerFees (those it started with where there
    was none), and Calculate answers as a calculator newly built from
    that configuration does. *)
Theorem calls_leave_last_update (calls : list Call) (c : Calculator.t)
    (input : Input.t) :
  let rates := ratesAfter calls (Config.TaxRates (Calculator.config c)) in
  let fees := feesAfter calls (Config.BrokerFees (Calculator.config c)) in
  fst ((_ <- performAll calls ;; GetConfig) c) = Config.mk rates fees /\
  fst ((_ <- performAll calls ;; CalculateM input) c) =
    Calculate (NewCalculator (Config.mk rates fees)) input.
Proof.
  cbv zeta. rewrite !then_fst, GetConfig_fst, CalculateM_fst, performAll_config.
  split; reflexivity.
Qed.


Section ImportRows.

Variable ParseFloat : string -> float * option error.

Lemma Read_header (header : list string) (rows : list (list string)) :
  csv.Read (csv.NewReader (header :: rows)) =
  ((header, None), csv.mkReader (Z.of_nat (List.length header)) rows).
Proof. reflexivity. Qed.

Lemma Read_row (width : nat) (record : list string) (rows : list (list string)) :
  (0 < width)%nat ->
  csv.Read (csv.mkReader (Z.of_nat width) (record :: rows)) =
  ((record, if (List.length record =? width)%nat then None else Some ErrFieldCount),
   csv.mkReader (Z.of_nat width) rows).
Proof.
  intros Positive. unfold csv.Read. cbn [csv.source csv.FieldsPerRecord].
  destruct (Z.ltb_spec 0 (Z.of_nat width)) as [_|Bad]; [|lia].
  destruct (Nat.eqb_spec (List.length record) width) as [Same|Other].
  - rewrite Same, Z.eqb_refl. reflexivity.
  - destruct (Z.eqb_spec (Z.of_nat (List.length record)) (Z.of_nat width)) as [Same|_];
      [lia|reflexivity].
Qed.

Lemma readRows_end (fuel : nat) (width : Z) (inputs : list Input.t) :
  readRows ParseFloat (S fuel) (csv.mkReader width []) inputs = Some (inputs, None).
Proof. reflexivity. Qed.

(** One pass of the loop over a row that has as many fields as the
    header, at least three. *)
Lemma readRows_step (fuel width : nat) (record : list string)
    (rows : list (list string)) (inputs : list Input.t) :
  (3 <= width)%nat -> List.length record = width ->
  readRows ParseFloat (S fuel) (csv.mkReader (Z.of_nat width) (record :: rows)) inputs =
  match fieldError ParseFloat record with
  | Some err => Some ([], Some err)
  | None =>
      readRows ParseFloat fuel (csv.mkReader (Z.of_nat width) rows)
        (inputs ++ [parsed ParseFloat record])%list
  end.
Proof.
  intros Wide Same. cbn [readRows]. rewrite Read_row by lia.
  rewrite Same, Nat.eqb_refl.
  destruct (Nat.ltb_spec width 3) as [Bad|_]; [lia|].
  unfold fieldError, parsed.
  destruct (ParseFloat (field record 0)) as [price [e|]]; [reflexivity|].
  destruct (ParseFloat (field record 1)) as [shares [e|]]; [reflexivity|].
  destruct (ParseFloat (field record 2)) as [fmv [e|]]; reflexivity.
Qed.

Lemma readRows_miscount (fuel width : nat) (record : list string)
    (rows : list (list string)) (inputs : list Input.t) :
  (0 < width)%nat -> List.length record <> width ->
  readRows ParseFloat (S fuel) (csv.mkReader (Z.of_nat width) (record :: rows)) inputs =
  Some ([], Some (Errorf "failed to read row" ErrFieldCount)).
Proof.
  intros Positive Other. cbn [readRows]. rewrite Read_row by lia.
  destruct (Nat.eqb_spec (List.length record) width) as [Same|_]; [contradiction|].
  reflexivity.
Qed.

Lemma sound_inv (width : nat) (record : list string) :
  sound ParseFloat width record = true ->
  List.length record = width /\ fieldError ParseFloat record = None.
Proof.
  unfold sound, rowFault.
  destruct (Nat.eqb_spec (List.length record) width) as [Same|_]; [|discriminate].
  destruct (fieldError ParseFloat record); [discriminate|]. split; [exact Same|reflexivity].
Qed.

Lemma readRows_sound (width : nat) (good : list (list string)) :
  (3 <= width)%nat ->
  forallb (sound ParseFloat width) good = true ->
  forall (fuel : nat) (rest : list (list string)) (inputs : list Input.t),
    readRows ParseFloat (List.length good + fuel)
      (csv.mkReader (Z.of_nat width) (good ++ rest)%list) inputs =
    readRows ParseFloat fuel (csv.mkReader (Z.of_nat width) rest)
      (inputs ++ map (parsed ParseFloat) good)%list.
Proof.
  intros Wide. induction good as [|record good IH]; intros Sound fuel rest inputs.
  - cbn [List.length Nat.add app map]. rewrite app_nil_r. reflexivity.
  - cbn [forallb] in Sound. apply andb_prop in Sound. destruct Sound as [Here Later].
    apply sound_inv in Here. destruct Here as [Same NoError].
    cbn [List.length Nat.add app map].
    rewrite readRows_step by assumption. rewrite NoError.
    rewrite IH by exact Later. rewrite <- app_assoc. reflexivity.
Qed.

(** With a header of three fields or more and rows that all have the
    header's field count and parse, every row becomes an input. *)
Lemma FromCSV_sound_rows (header : list string) (rows : list (list string)) :
  (3 <= List.length header)%nat ->
  forallb (sound ParseFloat (List.length header)) rows = true ->
  FromCSV ParseFloat (header :: rows) = Some (map (parsed ParseFloat) rows, None).
Proof.
  intros Wide Sound. unfold FromCSV. rewrite Read_header. cbn [csv.source].
  replace (S (List.length rows)) with (List.length rows + 1)%nat by lia.
  rewrite <- (app_nil_r rows) at 2.
  rewrite readRows_sound by assumption. reflexivity.
Qed.

End ImportRows.

(** X9: under a header of three fields or more, when every row has the
    header's field count and its first three fields parse, FromCSV
    returns one input per row, in order, built from the parsed values,
    and no error. *)
Theorem FromCSV_reads_every_sound_row
    (ParseFloat : string -> float * option error)
    (header : list string) (rows : list (list string)) :
  (3 <= List.length header)%nat ->
  forallb (sound ParseFloat (List.length header)) rows = true ->
  FromCSV ParseFloat (header :: rows) = Some (map (parsed ParseFloat) rows, None).
Proof.
  intros Wide Sound. apply FromCSV_sound_rows; assumption.
Qed.

Lemma FromCSV_reads_every_sound_row_witness :
  FromCSV Decimal.ParseFloat
    [ ["Exercise Price"; "Exercised Shares"; "FMV"; "Note"];
      ["10"; "100"; "50"; "first grant"];
      ["12.50"; "200"; "60"; ""] ]
  = Some ([Input.mk 10 100 50; Input.mk 12.5 200 60], None).
Proof.
  apply (FromCSV_reads_every_sound_row Decimal.ParseFloat
           ["Exercise Price"; "Exercised Shares"; "FMV"; "Note"]
           [ ["10"; "100"; "50"; "first grant"]; ["12.50"; "200"; "60"; ""] ]).
  - cbn. lia.
  - vm_compute. reflexivity.
Defined.

(** X10: under a header of three fields or more, FromCSV stops at the
    first row that has another field count than the header or a field
    among the first three that does not parse: it returns that row's
    error and no inputs, whatever rows come before or after. *)
Theorem FromCSV_stops_at_first_fault
    (ParseFloat : string -> float * option error)
    (header : list string) (good : list (list string)) (bad : list string)
    (rest : list (list string)) (err : error) :
  (3 <= List.length header)%nat ->
  forallb (sound ParseFloat (List.length header)) good = true ->
  rowFault ParseFloat (List.length header) bad = Some err ->
  FromCSV ParseFloat (header :: good ++ bad :: rest)%list = Some ([], Some err).
Proof.
  intros Wide Sound Fault. unfold FromCSV. rewrite Read_header. cbn [csv.source].
  replace (S (List.length (good ++ bad :: rest)))
    with (List.length good + S (S (List.length rest)))%nat
    by (rewrite length_app; cbn [List.length]; lia).
  rewrite readRows_sound by assumption.
  unfold rowFault in Fault.
  destruct (Nat.eqb_spec (List.length bad) (List.length header)) as [Same|Other].
  - rewrite readRows_step by assumption. rewrite Fault. reflexivity.
  - injection Fault as <-. apply readRows_miscount; [lia|exact Other].
Qed.


Lemma FromCSV_stops_at_first_fault_witness :
  FromCSV Decimal.ParseFloat
    ([ "Exercise Price"; "Exercised Shares"; "FMV" ]
     :: [ ["10"; "100"; "50"] ] ++ ["12.50"; "200"; "sixty"] :: [ ["1"; "1"; "1"] ])%list
  = Some ([], Some (Errorf "invalid FMV" ErrSyntax)).
Proof.
  apply (FromCSV_stops_at_first_fault Decimal.ParseFloat
           [ "Exercise Price"; "Exercised Shares"; "FMV" ]
           [ ["10"; "100"; "50"] ] ["12.50"; "200"; "sixty"] [ ["1"; "1"; "1"] ]).
  - cbn. lia.
  - vm_compute. reflexivity.
  - vm_compute. reflexivity.
Defined.

Section ImportBounds.

Variable ParseFloat : string -> float * option error.

(** Under a header of one or two fields every row is skipped or ends the
    import with an error. *)
Lemma readRows_narrow (width : nat) (rows : list (list string)) :
  (0 < width < 3)%nat ->
  forall fuel : nat,
    (List.length rows < fuel)%nat ->
    exists err,
      readRows ParseFloat fuel (csv.mkReader (Z.of_nat width) rows) [] = Some ([], err).
Proof.
  intros Narrow. induction rows as [|record rows IH]; intros fuel Enough.
  - destruct fuel as [|fuel]; [inversion Enough|]. exists None. reflexivity.
  - destruct fuel as [|fuel]; [inversion Enough|]. cbn [List.length] in Enough.
    destruct (Nat.eq_dec (List.length record) width) as [Same|Other].
    + cbn [readRows]. rewrite Read_row by lia. rewrite Same, Nat.eqb_refl.
      destruct (Nat.ltb_spec width 3) as [_|Bad]; [|lia].
      apply IH. lia.
    + rewrite readRows_miscount by (lia || assumption). eauto.
Qed.

(** The loop returns at most one input per record left to read. *)
Lemma readRows_length (fuel : nat) :
  forall (reader : csv.Reader) (inputs out : list Input.t) (err : option error),
    readRows ParseFloat fuel reader inputs = Some (out, err) ->
    (List.length out <= List.length inputs + List.length (csv.source reader))%nat.
Proof.
  induction fuel as [|fuel IH]; intros reader inputs out err; [discriminate|].
  cbn [readRows].
  destruct (Read_consumes reader) as [Empty|Consumed].
  - rewrite (Read_empty reader Empty). intros [= <- _]. lia.
  - destruct (csv.Read reader) as [[record e] reader'] eqn:R.
    cbn [snd] in Consumed.
    destruct e as [e|].
    + destruct e; intros [= <- _]; cbn [List.length]; lia.
    + destruct (List.length record <? 3)%nat.
      { intros Run. apply IH in Run. lia. }
      destruct (ParseFloat (field record 0)) as [price [e|]];
        [intros [= <- _]; cbn [List.length]; lia|].
      destruct (ParseFloat (field record 1)) as [shares [e|]];
        [intros [= <- _]; cbn [List.length]; lia|].
      destruct (ParseFloat (field record 2)) as [fmv [e|]];
        [intros [= <- _]; cbn [List.length]; lia|].
      intros Run. apply IH in Run. rewrite length_app in Run.
      cbn [List.length] in Run. lia.
Qed.

End ImportBounds.

(** X11: under a header of one or two fields FromCSV never returns an
    input: every row either has the header's field count and is skipped
    as shorter than three fields, or ends the import with an error. *)
Theorem FromCSV_narrow_header_reads_nothing
    (ParseFloat : string -> float * option error)
    (header : list string) (rows : list (list string)) :
  (0 < List.length header < 3)%nat ->
  exists err, FromCSV ParseFloat (header :: rows) = Some ([], err).
Proof.
  intros Narrow. unfold FromCSV. rewrite Read_header. cbn [csv.source].
  apply readRows_narrow; [exact Narrow|lia].
Qed.

Lemma FromCSV_narrow_header_reads_nothing_witness :
  exists err,
    FromCSV Decimal.ParseFloat [ ["price"; "shares"]; ["10"; "100"]; ["7"; "3"] ]
    = Some ([], err).
Proof.
  apply (FromCSV_narrow_header_reads_nothing Decimal.ParseFloat
           ["price"; "shares"] [ ["10"; "100"]; ["7"; "3"] ]).
  cbn. lia.
Defined.

(** X12: FromCSV always returns; whenever it returns an error it returns
    no inputs, and it never returns more inputs than there are records
    after the header. *)
Theorem FromCSV_all_or_nothing
    (ParseFloat : string -> float * option error) (src : list (list string)) :
  exists (inputs : list Input.t) (err : option error),
    FromCSV ParseFloat src = Some (inputs, err) /\
    (err <> None -> inputs = []) /\
    (List.length inputs <= List.length src - 1)%nat.
Proof.
  destruct (FromCSV_total ParseFloat src) as [[inputs err] Run].
  exists inputs, err. split; [exact Run|]. split.
  - destruct err as [err|]; [|congruence].
    intros _. exact (FromCSV_error_no_inputs ParseFloat src inputs err Run).
  - unfold FromCSV in Run. destruct src as [|header rows].
    + cbn in Run. injection Run as <- _. cbn. lia.
    + rewrite Read_header in Run. cbn [csv.source] in Run.
      apply readRows_length in Run. cbn [List.length csv.source] in *. lia.
Qed.

(** ** Export, then import *)

Lemma row_length (r : Result.t) : List.length (row r) = 11%nat.
Proof. reflexivity. Qed.

Lemma parsed_row (ParseFloat : string -> float * option error) (r : Result.t) :
  parsed ParseFloat (row r) =
  Input.mk (fst (ParseFloat (GoFmt.Sprintf_f 2 (Result.ExercisePrice r))))
           (fst (ParseFloat (GoFmt.Sprintf_f 2 (Result.ExercisedShares r))))
           (fst (ParseFloat (GoFmt.Sprintf_f 2 (Result.FMV r)))).
Proof. reflexivity. Qed.

Lemma exported (results : list Result.t) :
  csv.written (snd (ToCSV results csv.NewWriter)) = header :: map row results.
Proof.
  unfold ToCSV. cbn [csv.Write csv.NewWriter csv.broken csv.written app].
  rewrite writeRows_appends by reflexivity. reflexivity.
Qed.

Section RoundTrip.

Variable ParseFloat : string -> float * option error.

Lemma readable_sound (r : Result.t) :
  readable ParseFloat r = true -> sound ParseFloat 11 (row r) = true.
Proof.
  unfold readable, reads, sound, rowFault, fieldError. rewrite row_length.
  cbn [Nat.eqb].
  change (field (row r) 0) with (GoFmt.Sprintf_f 2 (Result.ExercisePrice r)).
  change (field (row r) 1) with (GoFmt.Sprintf_f 2 (Result.ExercisedShares r)).
  change (field (row r) 2) with (GoFmt.Sprintf_f 2 (Result.FMV r)).
  destruct (snd (ParseFloat (GoFmt.Sprintf_f 2 (Result.ExercisePrice r))));
    [discriminate|].
  destruct (snd (ParseFloat (GoFmt.Sprintf_f 2 (Result.ExercisedShares r))));
    [discriminate|].
  destruct (snd (ParseFloat (GoFmt.Sprintf_f 2 (Result.FMV r))));
    [discriminate|]. reflexivity.
Qed.

Lemma readable_rows (results : list Result.t) :
  forallb (readable ParseFloat) results = true ->
  forallb (sound ParseFloat (List.length header)) (map row results) = true.
Proof.
  intros Readable. rewrite forallb_forall in *. intros record In.
  apply in_map_iff in In. destruct In as (r & <- & In).
  apply readable_sound. exact (Readable r In).
Qed.

Lemma import_of_export (results : list Result.t) :
  forallb (readable ParseFloat) results = true ->
  FromCSV ParseFloat (csv.written (snd (ToCSV results csv.NewWriter))) =
  Some (map (fun r => parsed ParseFloat (row r)) results, None).
Proof.
  intros Readable. rewrite exported.
  rewrite FromCSV_sound_rows; [|cbn; lia|apply readable_rows; exact Readable].
  rewrite map_map. reflexivity.
Qed.

Lemma comesBack_value (v : float) :
  comesBack ParseFloat v = true -> ParseFloat (GoFmt.Sprintf_f 2 v) = (v, None).
Proof.
  unfold comesBack.
  destruct (ParseFloat (GoFmt.Sprintf_f 2 v)) as [v' [e|]]; [discriminate|].
  intros Same. apply FloatAxioms.Leibniz.eqb_spec in Same. subst v'. reflexivity.
Qed.

Lemma comesBack_reads (v : float) :
  comesBack ParseFloat v = true -> reads ParseFloat v = true.
Proof. intros Back. unfold reads. rewrite (comesBack_value v Back). reflexivity. Qed.

End RoundTrip.

Lemma inputOf_Calculate (c : Calculator.t) (input : Input.t) :
  inputOf (Calculate c input) = input.
Proof.
  rewrite Calculate_cases. destruct input as [price shares fmv].
  destruct (stableAt c _); project.
Qed.

(** X13: FromCSV applied to what ToCSV wrote for a batch returns one input
    per result, in order: its fields are what ParseFloat reads from the
    two-decimal renderings of the result's ExercisePrice,
    ExercisedShares and FMV, provided ParseFloat accepts those. *)
Theorem export_then_import
    (ParseFloat : string -> float * option error) (results : list Result.t) :
  forallb (readable ParseFloat) results = true ->
  FromCSV ParseFloat (csv.written (snd (ToCSV results csv.NewWriter))) =
  Some (map (fun r =>
               Input.mk
                 (fst (ParseFloat (GoFmt.Sprintf_f 2 (Result.ExercisePrice r))))
                 (fst (ParseFloat (GoFmt.Sprintf_f 2 (Result.ExercisedShares r))))
                 (fst (ParseFloat (GoFmt.Sprintf_f 2 (Result.FMV r)))))
            results, None).
Proof.
  intros Readable. rewrite import_of_export by exact Readable. reflexivity.
Qed.

Lemma export_then_import_witness :
  FromCSV Decimal.ParseFloat
    (csv.written
       (snd (ToCSV (CalculateBatch NewDefaultCalculator [specExample; tenthOfAShare])
               csv.NewWriter)))
  = Some ([Input.mk 10 100 50; Input.mk 10 0.1 50], None).
Proof.
  rewrite (export_then_import Decimal.ParseFloat
             (CalculateBatch NewDefaultCalculator [specExample; tenthOfAShare]));
    vm_compute; reflexivity.
Defined.

(** X14: when every price, share count and FMV of a batch of inputs is
    read back by ParseFloat from its two-decimal rendering, exporting
    the results of CalculateBatch and importing the export returns
    exactly the inputs. *)
Theorem batch_round_trip
    (ParseFloat : string -> float * option error)
    (c : Calculator.t) (inputs : list Input.t) :
  forallb (survives ParseFloat) inputs = true ->
  FromCSV ParseFloat
    (csv.written (snd (ToCSV (CalculateBatch c inputs) csv.NewWriter))) =
  Some (inputs, None).
Proof.
  intros Survive. rewrite forallb_forall in Survive.
  assert (Back : forall input, In input inputs ->
            parsed ParseFloat (row (Calculate c input)) = input).
  { intros input Here. specialize (Survive input Here). unfold survives in Survive.
    apply andb_prop in Survive. destruct Survive as [Survive Fmv].
    apply andb_prop in Survive. destruct Survive as [Price Shares].
    rewrite parsed_row.
    pose proof (inputOf_Calculate c input) as Copied. unfold inputOf in Copied.
    revert Copied. generalize (Calculate c input). intros r Copied.
    rewrite <- Copied in Price, Shares, Fmv. cbn [Input.ExercisePrice
      Input.ExercisedShares Input.FMV] in Price, Shares, Fmv.
    rewrite (comesBack_value ParseFloat _ Price),
      (comesBack_value ParseFloat _ Shares), (comesBack_value ParseFloat _ Fmv).
    exact Copied. }
  rewrite import_of_export.
  - unfold CalculateBatch. rewrite map_map.
    rewrite (map_ext_in _ (fun input => input) inputs Back), map_id. reflexivity.
  - unfold CalculateBatch. rewrite forallb_forall. intros r In.
    apply in_map_iff in In. destruct In as (input & <- & Here).
    specialize (Survive input Here). unfold survives in Survive.
    apply andb_prop in Survive. destruct Survive as [Survive Fmv].
    apply andb_prop in Survive. destruct Survive as [Price Shares].
    pose proof (inputOf_Calculate c input) as Copied. unfold inputOf in Copied.
    revert Copied. generalize (Calculate c input). intros r Copied.
    rewrite <- Copied in Price, Shares, Fmv. cbn [Input.ExercisePrice
      Input.ExercisedShares Input.FMV] in Price, Shares, Fmv.
    unfold readable. rewrite !comesBack_reads by assumption. reflexivity.
Qed.

Lemma batch_round_trip_witness :
  FromCSV Decimal.ParseFloat
    (csv.written
       (snd (ToCSV (CalculateBatch NewDefaultCalculator
                      [specExample; Input.mk 12.5 200 60.25])
               csv.NewWriter)))
  = Some ([specExample; Input.mk 12.5 200 60.25], None).
Proof.
  apply (batch_round_trip Decimal.ParseFloat NewDefaultCalculator
           [specExample; Input.mk 12.5 200 60.25]).
  vm_compute. reflexivity.
Defined.


(** ** Summaries *)

Lemma fold_accumulate (results : list Result.t) :
  forall s : Summary.t,
    fold_left accumulate results s =
    Summary.mk
      (fold_left (fun sum r => (sum + Result.ExercisedShares r)%float) results
         (Summary.TotalExercisedShares s))
      (fold_left (fun sum r => (sum + Result.SharesToSell r)%float) results
         (Summary.TotalSharesToSell s))
      (fold_left (fun sum r => (sum + Result.NetShares r)%float) results
         (Summary.TotalNetShares s))
      (fold_left (fun sum r => (sum + Result.TotalCosts r)%float) results
         (Summary.TotalCosts s))
      (fold_left (fun sum r => (sum + Result.TotalTax r)%float) results
         (Summary.TotalTaxes s))
      (fold_left (fun sum r => (sum + Result.BrokerFees r)%float) results
         (Summary.TotalBrokerFees s))
      (fold_left (fun sum r => (sum + Result.FMV r)%float) results
         (Summary.AverageFMV s))
      (Summary.Count s).
Proof.
  induction results as [|r rest IH]; intros s; [destruct s; reflexivity|].
  cbn [fold_left]. rewrite IH. reflexivity.
Qed.

Lemma Summarize_totals (results : list Result.t) :
  Summarize results =
  Summary.mk
    (total Result.ExercisedShares results) (total Result.SharesToSell results)
    (total Result.NetShares results) (total Result.TotalCosts results)
    (total Result.TotalTax results) (total Result.BrokerFees results)
    match results with
    | [] => 0%float
    | _ :: _ => (total Result.FMV results / ofInt (Z.of_nat (List.length results)))%float
    end
    (Z.of_nat (List.length results)).
Proof.
  destruct results as [|r rest]; [reflexivity|].
  unfold Summarize. rewrite fold_accumulate. reflexivity.
Qed.

(** X15: Summarize reports the number of results as Count, the totals as
    the sums of the fields taken left to right from zero, and as
    AverageFMV the sum of the FMVs divided by the count, or zero (no
    division) for an empty batch. *)
Theorem Summarize_counts_and_averages (results : list Result.t) :
  Summary.Count (Summarize results) = Z.of_nat (List.length results) /\
  Summary.TotalCosts (Summarize results) = total Result.TotalCosts results /\
  Summary.TotalTaxes (Summarize results) = total Result.TotalTax results /\
  Summary.TotalBrokerFees (Summarize results) = total Result.BrokerFees results /\
  Summary.AverageFMV (Summarize results) =
    match results with
    | [] => 0%float
    | _ :: _ => (total Result.FMV results / ofInt (Z.of_nat (List.length results)))%float
    end.
Proof.
  rewrite Summarize_totals. repeat apply conj; reflexivity.
Qed.

(** *** Exact sums of whole numbers *)

Lemma whole_hasValue (x : spec_float) : wholeSF x = true -> hasValue x (valueSF x).
Proof.
  destruct x as [s|s| |s m e]; try discriminate; [reflexivity|].
  cbn [wholeSF hasValue valueSF]. unfold shifted. intros Whole.
  destruct (Z.leb_spec 0 e) as [Up|Down].
  - left. split; [exact Up|reflexivity].
  - cbn [orb] in Whole. apply Z.eqb_eq in Whole. right. split; [exact Down|].
    assert (P : 0 < 2 ^ (- e)) by (apply Z.pow_pos_nonneg; lia).
    assert (Split : Zpos m = Zpos m / 2 ^ (- e) * 2 ^ (- e)).
    { pose proof (Z.div_mod (Zpos m) (2 ^ (- e))). lia. }
    set (q := Zpos m / 2 ^ (- e)) in *.
    destruct s; cbn [cond_Zopp].
    + replace (- Z.pos m) with (- q * 2 ^ (- e)) by lia.
      rewrite Z.div_mul by lia. reflexivity.
    + rewrite Split. rewrite Z.div_mul by lia. reflexivity.
Qed.

Lemma smallCount_value (x : float) :
  smallCount x = true ->
  hasValue (Prim2SF x) (countOf x) /\ Z.abs (countOf x) < 2 ^ 32.
Proof.
  unfold smallCount, integerValued. intros Small.
  apply andb_prop in Small. destruct Small as [Whole Below].
  apply Z.ltb_lt in Below. split; [|exact Below].
  apply whole_hasValue. exact Whole.
Qed.

Lemma hasValue_unique (x : spec_float) (V : Z) : hasValue x V -> V = valueSF x.
Proof.
  intros Val. destruct x as [s|s| |s m e]; try contradiction; [exact Val|].
  cbn [hasValue valueSF] in *. unfold shifted.
  destruct Val as [[Up ->]|[Down Split]].
  - destruct (Z.leb_spec 0 e); [reflexivity|lia].
  - destruct (Z.leb_spec 0 e); [lia|]. rewrite Split.
    assert (P : 0 < 2 ^ (- e)) by (apply Z.pow_pos_nonneg; lia).
    rewrite Z.div_mul by lia. reflexivity.
Qed.

(** A left-to-right sum of whole numbers is exact while the magnitudes
    met stay below 2^53. *)
Lemma total_exact (field : Result.t -> float) (b : Z) (results : list Result.t) :
  0 <= b ->
  (forall r, In r results ->
     hasValue (Prim2SF (field r)) (countOf (field r)) /\ Z.abs (countOf (field r)) <= b) ->
  forall (acc : float) (V : Z),
    hasValue (Prim2SF acc) V ->
    Z.abs V + Z.of_nat (List.length results) * b < 2 ^ 53 ->
    let W := V + sumZ (map (fun r => countOf (field r)) results) in
    hasValue (Prim2SF (fold_left (fun sum r => (sum + field r)%float) results acc)) W /\
    Z.abs W <= Z.abs V + Z.of_nat (List.length results) * b.
Proof.
  intros B. induction results as [|r rest IH]; intros Each acc V Val Room; cbv zeta.
  - cbn [map sumZ fold_right fold_left List.length]. rewrite Z.add_0_r.
    split; [exact Val|lia].
  - cbn [map sumZ fold_right fold_left].
    destruct (Each r (or_introl eq_refl)) as [ValR SmallR].
    rewrite length_cons, Nat2Z.inj_succ in Room |- *.
    assert (Step : hasValue (Prim2SF (acc + field r)) (V + countOf (field r))).
    { rewrite add_spec. apply SFadd_value; try assumption. nia. }
    destruct (IH (fun r' In' => Each r' (or_intror In')) _ _ Step) as [Sum Bound].
    { nia. }
    cbv zeta in Sum, Bound. fold (sumZ (map (fun r => countOf (field r)) rest)) in *.
    rewrite <- Z.add_assoc in Sum, Bound. split; [exact Sum|]. nia.
Qed.


Lemma sumZ_difference (results : list Result.t) (g e s : Result.t -> Z) :
  (forall r, In r results -> g r = e r - s r) ->
  sumZ (map g results) + sumZ (map s results) = sumZ (map e results).
Proof.
  induction results as [|r rest IH]; intros Each; [reflexivity|].
  cbn [map sumZ fold_right].
  pose proof (Each r (or_introl eq_refl)) as Here.
  pose proof (IH (fun r' In' => Each r' (or_intror In'))) as Later.
  unfold sumZ in Later. lia.
Qed.

Lemma settled_net (r : Result.t) :
  settled r ->
  hasValue (Prim2SF (Result.NetShares r)) (countOf (Result.NetShares r)) /\
  countOf (Result.NetShares r) =
    countOf (Result.ExercisedShares r) - countOf (Result.SharesToSell r).
Proof.
  intros (Exercised & Sold & Net).
  destruct (smallCount_value _ Exercised) as [ValE SmallE].
  destruct (smallCount_value _ Sold) as [ValS SmallS].
  change (2 ^ 32) with 4294967296 in *.
  assert (Val : hasValue (Prim2SF (Result.NetShares r))
                  (countOf (Result.ExercisedShares r) - countOf (Result.SharesToSell r))).
  { rewrite Net, sub_spec. apply SFsub_value; try assumption.
    change (2 ^ 53) with 9007199254740992. lia. }
  pose proof (hasValue_unique _ _ Val) as Same. fold (countOf (Result.NetShares r)) in Same.
  rewrite <- Same. split; [exact Val|reflexivity].
Qed.

Lemma settled_totals (results : list Result.t) :
  Z.of_nat (List.length results) <= 2 ^ 20 ->
  (forall r, In r results -> settled r) ->
  (total Result.NetShares results + total Result.SharesToSell results
   =? total Result.ExercisedShares results)%float = true.
Proof.
  intros Few Each.
  assert (Zero : hasValue (Prim2SF 0) 0) by reflexivity.
  change (2 ^ 20) with 1048576 in Few.
  assert (Length : 0 <= Z.of_nat (List.length results) <= 1048576) by lia.
  destruct (total_exact Result.NetShares 8589934590 results) with (acc := 0%float) (V := 0)
    as [Net NetBound]; try assumption; try lia.
  { intros r In. destruct (settled_net r (Each r In)) as [Val Diff].
    split; [exact Val|]. rewrite Diff.
    destruct (Each r In) as (Exercised & Sold & _).
    destruct (smallCount_value _ Exercised) as [_ SmallE].
    destruct (smallCount_value _ Sold) as [_ SmallS].
    change (2 ^ 32) with 4294967296 in *. lia. }
  destruct (total_exact Result.SharesToSell 4294967295 results) with (acc := 0%float) (V := 0)
    as [Sold SoldBound]; try assumption; try lia.
  { intros r In. destruct (Each r In) as (_ & Sold & _).
    destruct (smallCount_value _ Sold) as [Val Small].
    change (2 ^ 32) with 4294967296 in *. split; [exact Val|lia]. }
  destruct (total_exact Result.ExercisedShares 4294967295 results) with (acc := 0%float) (V := 0)
    as [Exercised ExercisedBound]; try assumption; try lia.
  { intros r In. destruct (Each r In) as (Exercised & _ & _).
    destruct (smallCount_value _ Exercised) as [Val Small].
    change (2 ^ 32) with 4294967296 in *. split; [exact Val|lia]. }
  cbv zeta in *. rewrite !Z.add_0_l in *. cbn [Z.abs] in *. fold (total Result.NetShares results) in Net.
  fold (total Result.SharesToSell results) in Sold.
  fold (total Result.ExercisedShares results) in Exercised.
  pose proof (sumZ_difference results
                (fun r => countOf (Result.NetShares r))
                (fun r => countOf (Result.ExercisedShares r))
                (fun r => countOf (Result.SharesToSell r))
                (fun r In => proj2 (settled_net r (Each r In)))) as Balance.
  revert Net Sold Exercised NetBound SoldBound ExercisedBound Balance.
  generalize (sumZ (map (fun r => countOf (Result.NetShares r)) results)).
  generalize (sumZ (map (fun r => countOf (Result.SharesToSell r)) results)).
  generalize (sumZ (map (fun r => countOf (Result.ExercisedShares r)) results)).
  generalize (total Result.NetShares results).
  generalize (total Result.SharesToSell results).
  generalize (total Result.ExercisedShares results).
  intros tE tS tN vE vS vN Net Sold Exercised NetBound SoldBound ExercisedBound Balance.
  apply (same_value_eqb _ _ vE); [|exact Exercised].
  rewrite add_spec, <- Balance. apply SFadd_value; try assumption.
  rewrite Balance. change (2 ^ 53) with 9007199254740992. lia.
Qed.

Lemma wholeShares_settled (c : Calculator.t) (input : Input.t) :
  wholeShares c input = true -> settled (Calculate c input).
Proof.
  unfold wholeShares, settled. intros Whole.
  apply andb_prop in Whole. destruct Whole as [Exercised Sold].
  pose proof (inputOf_Calculate c input) as Copied.
  pose proof (Calculate_net_shares c input) as Net.
  revert Sold Copied Net. generalize (Calculate c input). intros r Sold Copied Net.
  assert (Shares : Result.ExercisedShares r = Input.ExercisedShares input)
    by (rewrite <- Copied; reflexivity).
  rewrite Shares. repeat apply conj; assumption.
Qed.

(** X16: for a batch of at most 2^20 inputs whose exercised and sold share
    counts are whole numbers below 2^32, the summary of the results of
    CalculateBatch balances exactly: TotalNetShares + TotalSharesToSell
    == TotalExercisedShares. *)
Theorem Summarize_share_totals_balance (c : Calculator.t) (inputs : list Input.t) :
  Z.of_nat (List.length inputs) <= 2 ^ 20 ->
  forallb (wholeShares c) inputs = true ->
  let summary := Summarize (CalculateBatch c inputs) in
  (Summary.TotalNetShares summary + Summary.TotalSharesToSell summary
   =? Summary.TotalExercisedShares summary)%float = true.
Proof.
  intros Few Whole. cbv zeta. rewrite Summarize_totals.
  cbn [Summary.TotalNetShares Summary.TotalSharesToSell Summary.TotalExercisedShares].
  apply settled_totals.
  - unfold CalculateBatch. rewrite length_map. exact Few.
  - unfold CalculateBatch. intros r In. apply in_map_iff in In.
    destruct In as (input & <- & Here). apply wholeShares_settled.
    rewrite forallb_forall in Whole. exact (Whole input Here).
Qed.

Lemma Summarize_share_totals_balance_witness :
  let summary :=
    Summarize (CalculateBatch NewDefaultCalculator [specExample; Input.mk 12.5 200 60.25]) in
  (Summary.TotalNetShares summary + Summary.TotalSharesToSell summary
   =? Summary.TotalExercisedShares summary)%float = true.
Proof.
  apply (Summarize_share_totals_balance NewDefaultCalculator
           [specExample; Input.mk 12.5 200 60.25]).
  - cbn. lia.
  - vm_compute. reflexivity.
Defined.

(** ** The printed result *)

Lemma Calculate_residual (c : Calculator.t) (input : Input.t) :
  Result.Residual (Calculate c input) =
  (Result.EstGrossProceeds (Calculate c input) - Result.TotalCosts (Calculate c input))%float.
Proof. rewrite Calculate_cases. destruct (stableAt c input); project. Qed.

(** X17: on a result of Calculate, String prints SharesToSell with four
    decimals, the Residual field as the net proceeds with two, and
    ExercisedShares - SharesToSell as the net shares with four. *)
Theorem String_prints_the_residual (c : Calculator.t) (input : Input.t) :
  let r := Calculate c input in
  Result_String r =
  "STC Result: " ++ GoFmt.Sprintf_f 4 (Result.SharesToSell r)
  ++ " shares to sell, $" ++ GoFmt.Sprintf_f 2 (Result.Residual r)
  ++ " net proceeds, "
  ++ GoFmt.Sprintf_f 4 (Input.ExercisedShares input - Result.SharesToSell r)
  ++ " net shares remaining".
Proof.
  cbv zeta. unfold Result_String.
  rewrite Calculate_residual, Calculate_net_shares. reflexivity.
Qed.


(** ** The exercise tab *)

Section WindowFacts.

Variable ParseFloat : string -> float * option error.

Lemma parseFloat_blank : parseFloat ParseFloat "" = (0%float, None).
Proof. reflexivity. Qed.

(** X18: in the exercise tab, when the price, the share count or the FMV
    entry is empty the handler shows an error dialog and leaves every
    label as it was, whatever the other entries hold: an empty entry
    reads as 0, which the validation refuses. *)
Theorem blank_entry_is_rejected (entries : STCTab.Entries) (labels : STCTab.Labels) :
  STCTab.exPriceEntry entries = "" \/ STCTab.exSharesEntry entries = "" \/
  STCTab.fmvEntry entries = "" ->
  exists message, calculateFunc ParseFloat entries labels = (Some message, labels).
Proof.
  intros Blank. unfold calculateFunc.
  destruct (parseFloat ParseFloat (STCTab.exPriceEntry entries)) as [price e1] eqn:Price.
  destruct (parseFloat ParseFloat (STCTab.fmvEntry entries)) as [fmv e3] eqn:Fmv.
  destruct (parseFloat ParseFloat (STCTab.exSharesEntry entries)) as [shares e2] eqn:Shares.
  destruct e1 as [e1|]; [eauto|]. destruct e2 as [e2|]; [eauto|].
  destruct e3 as [e3|]; [eauto|].
  assert (Zero : (price <=? 0)%float || (shares <=? 0)%float || (fmv <=? 0)%float = true).
  { destruct Blank as [Blank|[Blank|Blank]]; rewrite Blank, parseFloat_blank in *.
    - injection Price as <-. reflexivity.
    - injection Shares as <-. rewrite orb_true_r. reflexivity.
    - injection Fmv as <-. rewrite orb_true_r. reflexivity. }
  rewrite Zero. eauto.
Qed.

End WindowFacts.

Lemma blank_entry_is_rejected_witness :
  exists message,
    calculateFunc Decimal.ParseFloat
      (STCTab.mkEntries "100" "" "50" "0.22" "0.0145" "0.062" "0.00" "0.00" "0.03" "25.00")
      (STCTab.mkLabels "-" "-" "-" "-" "-" "-" "-") =
    (Some message, STCTab.mkLabels "-" "-" "-" "-" "-" "-" "-").
Proof.
  apply (blank_entry_is_rejected Decimal.ParseFloat
           (STCTab.mkEntries "100" "" "50" "0.22" "0.0145" "0.062" "0.00" "0.00"
              "0.03" "25.00")
           (STCTab.mkLabels "-" "-" "-" "-" "-" "-" "-")).
  left. reflexivity.
Defined.

Lemma nan_sub (x : float) : (nan - x)%float = nan.
Proof.
  apply Prim2SF_inj. rewrite sub_spec. change (Prim2SF nan) with S754_nan. reflexivity.
Qed.

Lemma nan_mul (x : float) : (nan * x)%float = nan.
Proof.
  apply Prim2SF_inj. rewrite mul_spec. change (Prim2SF nan) with S754_nan. reflexivity.
Qed.

Lemma nan_add (x : float) : (nan + x)%float = nan.
Proof.
  apply Prim2SF_inj. rewrite add_spec. change (Prim2SF nan) with S754_nan. reflexivity.
Qed.

Lemma roundMoney_nan : roundMoney nan = nan.
Proof. vm_compute. reflexivity. Qed.

Lemma unrecorded_net (c : Calculator.t) (input : Input.t) :
  Result.NetShares (finish input (taxLines c input)) =
  (Input.ExercisedShares input - 0)%float.
Proof. project. Qed.

Lemma unrecorded_tax (c : Calculator.t) (input : Input.t) :
  let gain :=
    roundMoney ((Input.FMV input - Input.ExercisePrice input)
                * Input.ExercisedShares input) in
  let rates := Config.TaxRates (Calculator.config c) in
  Result.TotalTax (finish input (taxLines c input)) =
  (roundMoney (gain * TaxRates.Federal rates)
   + roundMoney (gain * TaxRates.Medicare rates)
   + roundMoney (gain * TaxRates.SocialSec rates)
   + roundMoney (gain * TaxRates.State rates)
   + roundMoney (gain * TaxRates.LocalSDI rates))%float.
Proof. project. Qed.

(** What Calculate returns for a price that is no number. *)
Lemma Calculate_nan_result (c : Calculator.t) (price shares : float) :
  let r := Calculate c (Input.mk price shares nan) in
  Result.NetShares r = (shares - 0)%float /\
  Result.Residual r = nan /\
  Result.SharesToSell r = 0%float /\
  Result.TotalCosts r = 0%float /\
  Result.EstGrossProceeds r = nan /\
  Result.TotalTax r = nan /\
  Result.BrokerFees r = 0%float.
Proof.
  cbv zeta.
  assert (Unstable : stableAt c (Input.mk price shares nan) = None).
  { rewrite stableAt_eq. apply fixedPoint_nan. reflexivity. }
  rewrite Calculate_cases, Unstable.
  rewrite unrecorded_net, unrecorded_residual, unrecorded_shares, unrecorded_total,
    unrecorded_proceeds, unrecorded_fees.
  pose proof (unrecorded_tax c (Input.mk price shares nan)) as Tax. cbv zeta in Tax.
  rewrite Tax. cbn [Input.FMV Input.ExercisePrice Input.ExercisedShares].
  rewrite (nan_sub price), (nan_mul shares), roundMoney_nan.
  set (rates := Config.TaxRates (Calculator.config c)).
  rewrite (nan_mul (TaxRates.Federal rates)), (nan_mul (TaxRates.Medicare rates)),
    (nan_mul (TaxRates.SocialSec rates)), (nan_mul (TaxRates.State rates)),
    (nan_mul (TaxRates.LocalSDI rates)), roundMoney_nan.
  repeat apply conj; reflexivity.
Qed.

(** X19: in the exercise tab an FMV entry that parses to NaN passes the
    validation (NaN <= 0 is false): with a price and a share count above
    zero the handler shows no dialog and writes the labels of a
    calculation that never stabilised: no share sold, all shares kept,
    total costs and fees $0.00, and NaN for residual, proceeds and
    taxes. *)
Theorem nan_passes_validation
    (ParseFloat : string -> float * option error)
    (entries : STCTab.Entries) (labels : STCTab.Labels) (price shares : float) :
  parseFloat ParseFloat (STCTab.exPriceEntry entries) = (price, None) ->
  parseFloat ParseFloat (STCTab.exSharesEntry entries) = (shares, None) ->
  parseFloat ParseFloat (STCTab.fmvEntry entries) = (nan, None) ->
  (price <=? 0)%float = false ->
  (shares <=? 0)%float = false ->
  calculateFunc ParseFloat entries labels =
  (None,
   STCTab.mkLabels (GoFmt.Sprintf_f 0 (shares - 0)) "$NaN" "0" "$0.00" "$NaN" "$NaN"
     "$0.00").
Proof.
  intros Price Shares Fmv AbovePrice AboveShares.
  unfold calculateFunc. rewrite Price, Shares, Fmv. cbv beta iota zeta.
  rewrite AbovePrice, AboveShares.
  change (nan <=? 0)%float with false. cbv beta iota zeta. cbn [orb].
  match goal with
  | |- context [Calculate ?c (Input.mk price shares nan)] =>
      pose proof (Calculate_nan_result c price shares) as Fields;
      cbv zeta in Fields; revert Fields;
      generalize (Calculate c (Input.mk price shares nan))
  end.
  intros r (Net & Residual & Sell & Costs & Proceeds & Tax & Fees).
  rewrite Net, Residual, Sell, Costs, Proceeds, Tax, Fees. reflexivity.
Qed.

Lemma nan_passes_validation_witness :
  calculateFunc parseDecimalOrNaN
    (STCTab.mkEntries "100" "10" "NaN" "0.22" "0.0145" "0.062" "0.00" "0.00" "0.03" "25.00")
    (STCTab.mkLabels "-" "-" "-" "-" "-" "-" "-") =
  (None, STCTab.mkLabels "100" "$NaN" "0" "$0.00" "$NaN" "$NaN" "$0.00").
Proof.
  apply (nan_passes_validation parseDecimalOrNaN
           (STCTab.mkEntries "100" "10" "NaN" "0.22" "0.0145" "0.062" "0.00" "0.00"
              "0.03" "25.00")
           (STCTab.mkLabels "-" "-" "-" "-" "-" "-" "-") 10 100);
    vm_compute; reflexivity.
Defined.


(** ** The keys tab *)

Lemma digitsOrPoint_app (s t : string) :
  digitsOrPoint (s ++ t) = digitsOrPoint s && digitsOrPoint t.
Proof.
  induction s as [|a s IH]; [reflexivity|].
  cbn [append digitsOrPoint]. rewrite IH, andb_assoc. reflexivity.
Qed.

Lemma points_app (s t : string) : points (s ++ t) = (points s + points t)%nat.
Proof.
  induction s as [|a s IH]; [reflexivity|].
  cbn [append points]. rewrite IH. lia.
Qed.

Lemma noPoint_points (s : string) : noPoint s = true -> points s = O.
Proof.
  induction s as [|a s IH]; [reflexivity|].
  cbn [noPoint points]. destruct (Ascii.eqb a "."); [discriminate|].
  cbn [negb andb]. intros None. rewrite (IH None). reflexivity.
Qed.

Lemma leadingZero_app (s : string) (a : ascii) :
  leadingZero s = false -> s <> "" -> (s = "0" -> isDigit a = false) ->
  leadingZero (s ++ String a "") = false.
Proof.
  intros Lead Some Zero. destruct s as [|b [|c rest]]; [congruence| |exact Lead].
  cbn [append]. unfold leadingZero.
  destruct (Ascii.eqb_spec b "0") as [->|Other].
  - apply Zero. reflexivity.
  - destruct b as [[] [] [] [] [] [] [] []]; try reflexivity. congruence.
Qed.

Lemma typedNumber_key (a : ascii) :
  isDigit a = true -> typedNumber (String a "") = true.
Proof.
  intros Digit. unfold typedNumber. cbn [digitsOrPoint points leadingZero String.eqb].
  rewrite Digit.
  assert (NoPoint : Ascii.eqb a "." = false).
  { destruct (Ascii.eqb_spec a ".") as [->|]; [discriminate Digit|reflexivity]. }
  rewrite NoPoint.
  destruct a as [[] [] [] [] [] [] [] []]; reflexivity.
Qed.

Lemma typedNumber_app (s : string) (a : ascii) :
  typedNumber s = true ->
  (isDigit a || Ascii.eqb a ".") = true ->
  (Ascii.eqb a "." = true -> noPoint s = true) ->
  (s = "0" -> Ascii.eqb a "." = true) ->
  typedNumber (s ++ String a "") = true.
Proof.
  unfold typedNumber. intros Typed Key Point Zero.
  apply andb_prop in Typed. destruct Typed as [Typed Lead].
  apply andb_prop in Typed. destruct Typed as [Typed Some].
  apply andb_prop in Typed. destruct Typed as [Chars Count].
  apply negb_true_iff in Lead. apply negb_true_iff in Some.
  apply String.eqb_neq in Some. apply Nat.leb_le in Count.
  rewrite digitsOrPoint_app, points_app, Chars.
  cbn [digitsOrPoint points]. rewrite Key. cbn [andb].
  assert (Few : (points s + ((if Ascii.eqb a "." then 1 else 0) + 0) <=? 1)%nat = true).
  { apply Nat.leb_le. destruct (Ascii.eqb a ".") eqn:IsPoint; [|lia].
    rewrite (noPoint_points s (Point eq_refl)). lia. }
  rewrite Few. cbn [andb].
  assert (NotEmpty : String.eqb (s ++ String a "") "" = false).
  { apply String.eqb_neq. destruct s; discriminate. }
  rewrite NotEmpty. cbn [negb andb].
  rewrite leadingZero_app; [reflexivity|exact Lead|exact Some|].
  intros IsZero. specialize (Zero IsZero).
  destruct (Ascii.eqb_spec a ".") as [->|]; [reflexivity|discriminate Zero].
Qed.

Lemma pad_key (n : string) :
  onPad (NumButton n) = true ->
  exists a, n = String a "" /\ (isDigit a || Ascii.eqb a ".") = true.
Proof.
  unfold onPad. cbn [existsb]. intros Key.
  repeat (apply orb_prop in Key; destruct Key as [Key|Key];
          [apply String.eqb_eq in Key; subst n; eexists; split; reflexivity|]).
  discriminate Key.
Qed.

Section KeypadFacts.

Variable ParseFloat : string -> float * option error.
Variable Sprintf_g : float -> string.
Variable throughInt64 : float -> float.

Lemma typing_onNum (n : string) (s : Keys.State) :
  onPad (NumButton n) = true -> typing s -> typing (onNum n s).
Proof.
  intros Key Typing. destruct (pad_key n Key) as (a & -> & Char).
  destruct s as [cur stored op last shown hist]. unfold typing in Typing.
  cbn [Keys.lastWasOp Keys.display Keys.currentNum] in Typing.
  unfold onNum. cbn [Keys.lastWasOp].
  set (s1 := if last then _ else _).
  assert (Facts : Keys.lastWasOp s1 = false /\
                  typedNumber (Keys.currentNum s1) = true /\
                  (ContainsPoint (Keys.currentNum s1) = true ->
                   Keys.display s1 = Keys.currentNum s1)).
  { subst s1. destruct last.
    - repeat apply conj; try reflexivity. intros Bad. discriminate Bad.
    - destruct (Typing eq_refl) as [Shown Typed].
      repeat apply conj; try assumption; try reflexivity. intros _. exact Shown. }
  clearbody s1. destruct s1 as [cur1 stored1 op1 last1 shown1 hist1].
  cbn [Keys.lastWasOp Keys.display Keys.currentNum] in *.
  destruct Facts as (-> & Typed & Shown).
  destruct (String.eqb_spec cur1 "0") as [IsZero|NotZero]; cbn [andb].
  - destruct (String.eqb_spec (String a "") ".") as [IsPoint|NotPoint]; cbn [negb].
    + injection IsPoint as ->. cbn [String.eqb Ascii.eqb Bool.eqb andb].
      subst cur1. cbn. intros _. split; reflexivity.
    + intros _. cbn. split; [reflexivity|]. apply typedNumber_key.
      destruct (Ascii.eqb_spec a ".") as [->|_]; [congruence|].
      rewrite orb_false_r in Char. exact Char.
  - destruct (String.eqb_spec (String a "") ".") as [IsPoint|NotPoint]; cbn [andb].
    + injection IsPoint as ->.
      destruct (ContainsPoint cur1) eqn:Has.
      * intros _. split; [exact (Shown eq_refl)|exact Typed].
      * intros _. cbn. split; [reflexivity|].
        apply typedNumber_app; try assumption; try reflexivity.
        intros _. unfold ContainsPoint in Has. apply negb_false_iff in Has. exact Has.
    + intros _. cbn. split; [reflexivity|].
      apply typedNumber_app; try assumption.
      * intros IsPoint. apply Ascii.eqb_eq in IsPoint. subst a. congruence.
      * intros Bad. contradiction.
Qed.

Lemma onOp_lastWasOp (op : string) (s : Keys.State) :
  Keys.lastWasOp (onOp ParseFloat Sprintf_g throughInt64 op s) = true.
Proof.
  unfold onOp.
  destruct (ParseFloat (Keys.currentNum _)) as [stored [err|]]; reflexivity.
Qed.

Lemma typing_tapped (b : Button) (s : Keys.State) :
  onPad b = true -> typing s ->
  typing (tapped ParseFloat Sprintf_g throughInt64 b s).
Proof.
  intros Pad Typing. destruct b as [n|op| |]; cbn [tapped].
  - apply typing_onNum; assumption.
  - intros Bad. rewrite onOp_lastWasOp in Bad. discriminate Bad.
  - intros _. split; reflexivity.
  - intros Bad. discriminate Bad.
Qed.

Lemma typing_tappedAll (buttons : list Button) :
  forall s : Keys.State,
    forallb onPad buttons = true -> typing s ->
    typing (tappedAll ParseFloat Sprintf_g throughInt64 buttons s).
Proof.
  induction buttons as [|b rest IH]; intros s Pad Typing; [exact Typing|].
  cbn [forallb] in Pad. apply andb_prop in Pad. destruct Pad as [Here Later].
  cbn [tappedAll fold_left]. apply IH; [exact Later|].
  apply typing_tapped; assumption.
Qed.

End KeypadFacts.

(** X20: in the keys tab, after any sequence of taps on the buttons of the
    pad, whenever the last tap was not an operator or the equals button
    the display shows the number being typed, and that number is made of
    digits with at most one decimal point, is not empty and has no zero
    in front of another digit. *)
Theorem keypad_shows_typed_number
    (ParseFloat : string -> float * option error)
    (Sprintf_g : float -> string) (throughInt64 : float -> float)
    (buttons : list Button) :
  forallb onPad buttons = true ->
  let s := tappedAll ParseFloat Sprintf_g throughInt64 buttons Keys.initial in
  Keys.lastWasOp s = false ->
  Keys.display s = Keys.currentNum s /\ typedNumber (Keys.currentNum s) = true.
Proof.
  intros Pad. cbv zeta. apply typing_tappedAll; [exact Pad|].
  intros _. split; reflexivity.
Qed.

Lemma keypad_shows_typed_number_witness :
  let s :=
    tappedAll Decimal.ParseFloat (GoFmt.Sprintf_f 6) (fun x => x)
      [ NumButton "0"; NumButton "0"; NumButton "."; NumButton "5"; NumButton ".";
        OpButton "+"; NumButton "1"; NumButton "." ]
      Keys.initial in
  Keys.display s = Keys.currentNum s /\ typedNumber (Keys.currentNum s) = true.
Proof.
  apply (keypad_shows_typed_number Decimal.ParseFloat (GoFmt.Sprintf_f 6) (fun x => x)
           [ NumButton "0"; NumButton "0"; NumButton "."; NumButton "5"; NumButton ".";
             OpButton "+"; NumButton "1"; NumButton "." ]);
    vm_compute; reflexivity.
Defined.

